(** * WebSocketSubject: connection lifecycle, outgoing buffer and multiplex

    A shallow embedding of [src/internal/observable/dom/WebSocketSubject.ts].

    The subject is a single-threaded JavaScript object: every method and every
    socket callback runs to completion before the next one starts.  The model
    therefore is a state record that is passed through the calls, together
    with a trace of the externally visible effects (calls on the socket,
    calls of the configured lifecycle observers, notifications handed to
    application observers, values offered to [next]).

    Objects that are shared by reference and mutated in place (sockets, the
    [Subject] hubs captured by socket callbacks, subscribers) live in heaps
    indexed by allocation order; [this._socket], [this._output] and
    [this.destination] are references into them.

    Only a root subject (one constructed from a url or a config) is
    modelled; [lift] and the [source] branch of [_subscribe] are not. *)

From Stdlib Require Import ZArith List Lia String Bool.
From stdpp Require Import base list.
Import ListNotations.
Local Open Scope Z_scope.
Local Open Scope nat_scope.

Set Implicit Arguments.

(** ** Values crossing the API *)

(** [CloseEvent] as far as the code reads it. *)
Record CloseEvent := {
  wasClean : bool;
  closeCode : Z;
  closeReason : string
}.

(** The [Event] objects of [onopen] and [onerror] are opaque tokens. *)
Definition Event := nat.

(** Error values.  The code only ever inspects [err && err.code] and
    [err.reason], so an application value is represented by these two
    properties. *)
Inductive Err :=
| UserError (code : option Z) (reason : option string)
| TypeError (message : string)
| TransportError (evt : Event)
| UncleanClose (e : CloseEvent).

Definition WEBSOCKETSUBJECT_INVALID_ERROR_OBJECT : string :=
  "WebSocketSubject.error must be called with an object with an error code, and an optional reason: { code: number, reason: string }".

(** [err && err.code]: the arguments of [socket.close(err.code, err.reason)]
    when the test is truthy.  A number is truthy when it is not zero. *)
Definition close_args (err : Err) : option (Z * option string) :=
  match err with
  | UserError (Some c) r => if Z.eqb c 0 then None else Some (c, r)
  | UserError None _ => None
  | TypeError _ => None
  | TransportError _ => None
  | UncleanClose e =>
      if Z.eqb (closeCode e) 0 then None else Some (closeCode e, Some (closeReason e))
  end.

(** Result of calling application code that may throw. *)
Inductive Try (A : Type) :=
| Ok (a : A)
| Throws (err : Err).
Arguments Ok {A} a.
Arguments Throws {A} err.

(** [WebSocket.readyState] *)
Inductive ReadyState := CONNECTING | OPEN | CLOSING | CLOSED.

Definition readyState_code (r : ReadyState) : Z :=
  match r with
  | CONNECTING => 0
  | OPEN => 1
  | CLOSING => 2
  | CLOSED => 3
  end%Z.

Section Model.

Context {T Msg : Type}.

Record MessageEvent := { data : Msg }.

(** [WebSocketSubjectConfig].  The three lifecycle observers are external
    callbacks: the record says whether each is configured, and a call of its
    [next] is recorded in the trace. *)
Record WebSocketSubjectConfig := {
  url : string;
  protocol : option string;
  serializer : T -> Try Msg;
  deserializer : MessageEvent -> Try T;
  openObserver : bool;
  closeObserver : bool;
  closingObserver : bool;
  WebSocketCtor : string -> option string -> Try unit;
  binaryType : option string
}.

(** [protocol ? new WebSocketCtor(url, protocol) : new WebSocketCtor(url)]
    (line 268): the protocol the constructor is called with.  The test
    is on truthiness: without a protocol, or with the empty string, the
    constructor receives the url alone. *)
Definition protocol_argument (config : WebSocketSubjectConfig) : option string :=
  match protocol config with
  | Some EmptyString => None
  | Some p => Some p
  | None => None
  end.

Inductive Notification :=
| NNext (x : T)
| NError (err : Err)
| NComplete.

(** Externally visible effects, in the order they happen. *)
Inductive Effect :=
| ENew (sock : nat) (u : string) (p : option string)
| ESend (sock : nat) (m : Msg)
| EClose (sock : nat) (code : option Z) (reason : option string)
| EOpenObserver (evt : Event)
| ECloseObserver (e : CloseEvent)
| EClosingObserver
| ENotify (consumer : nat) (n : Notification)
| EOffer (x : T).

(** ** Objects *)

(** A [WebSocket] together with what its four callbacks captured in
    [_connectSocket]: [const observer = this._output]. *)
Record WebSocket := {
  readyState : ReadyState;
  ws_observer : nat;
  ws_binaryType : option string
}.

(** Modelled from the spec: the [Subject] class of [../../Subject] is not
    part of the sources.  It is the multicast hub of the specification
    ("every inbound decoded message is delivered, in receipt order,
    synchronously, to every currently-attached consumer"): an ordered list
    of registered subscribers, a stopped flag, and the error it was stopped
    with, replayed to late subscribers. *)
Record Subject := {
  observers : list nat;
  isStopped : bool;
  thrownError : option Err
}.

Definition new_Subject : Subject :=
  {| observers := []; isStopped := false; thrownError := None |}.

(** Modelled from the spec: the [Subscriber] built in [socket.onopen] from
    the three closures.  The class ([../../Subscriber]) is not part of the
    sources; what is kept of it is that a subscriber accepts notifications
    until its first [error] or [complete].  The record holds what the
    closures captured ([socket], [observer]) and that flag. *)
Record Sink := {
  sink_socket : nat;
  sink_observer : nat;
  sink_stopped : bool
}.

(** What a consumer-side subscriber does with a notification: an
    application observer receives it (recorded in the trace), the observer
    object that [multiplex] passes to [self.subscribe] filters it and
    forwards it to the channel's own subscriber [outer]. *)
Inductive Handler :=
| HConsumer
| HFilter (outer : nat) (messageFilter : T -> Try bool).

(** Teardown logic registered on a subscriber, run once when it
    unsubscribes:
    - [FRemove o]:   registered by the hub [o], removes the subscriber
                     from [o.observers];
    - [FRefCount]:   the closure added in [_subscribe];
    - [FMultiplex]:  the function returned inside [multiplex]. *)
Inductive Finalizer :=
| FRemove (o : nat)
| FRefCount
| FMultiplex (unsubMsg : unit -> Try T) (inner : nat).

(** Modelled from the spec: consumer-side [Subscriber]/[Subscription]
    ([../../Subscriber], [../../Subscription], not part of the sources).
    A subscriber drops notifications once stopped; [error] and [complete]
    stop it, are handed to the handler and then unsubscribe it (the
    specification: a channel deactivates on "consumer detach, upstream
    completion, or upstream error"); unsubscribing runs the registered
    finalizers once, in registration order. *)
Record Subscriber := {
  handler : Handler;
  stopped : bool;
  closed : bool;
  finalizers : list Finalizer
}.

Definition new_Subscriber (h : Handler) : Subscriber :=
  {| handler := h; stopped := false; closed := false; finalizers := [] |}.

(** Modelled from the spec: the [ReplaySubject] of [../../ReplaySubject]
    (not part of the sources) used as the pre-open [destination]: the
    "ordered queue that records every value a caller asks to send before
    the connection reaches the Open state".  Besides the buffered raw
    values it remembers an [error] or [complete] it received. *)
Inductive ReplayStatus :=
| Live
| Errored (err : Err)
| Completed.

(** [this.destination]: the [ReplaySubject] itself (no alias of it exists
    in a root subject before it is subscribed in [onopen]) or a reference
    to the subscriber created in [onopen]. *)
Inductive Destination :=
| Replay (buffer : list T) (status : ReplayStatus)
| ToSink (k : nat).

Record State := {
  _config : WebSocketSubjectConfig;
  _socket : option nat;
  _output : nat;
  destination : Destination;
  sockets : list WebSocket;
  subjects : list Subject;
  sinks : list Sink;
  subscribers : list Subscriber;
  trace : list Effect
}.

(** ** Field updates *)

Definition set_socket (v : option nat) (s : State) : State :=
  {| _config := _config s; _socket := v; _output := _output s;
     destination := destination s; sockets := sockets s;
     subjects := subjects s; sinks := sinks s;
     subscribers := subscribers s; trace := trace s |}.

Definition set_output (v : nat) (s : State) : State :=
  {| _config := _config s; _socket := _socket s; _output := v;
     destination := destination s; sockets := sockets s;
     subjects := subjects s; sinks := sinks s;
     subscribers := subscribers s; trace := trace s |}.

Definition set_destination (v : Destination) (s : State) : State :=
  {| _config := _config s; _socket := _socket s; _output := _output s;
     destination := v; sockets := sockets s;
     subjects := subjects s; sinks := sinks s;
     subscribers := subscribers s; trace := trace s |}.

Definition set_sockets (v : list WebSocket) (s : State) : State :=
  {| _config := _config s; _socket := _socket s; _output := _output s;
     destination := destination s; sockets := v;
     subjects := subjects s; sinks := sinks s;
     subscribers := subscribers s; trace := trace s |}.

Definition set_subjects (v : list Subject) (s : State) : State :=
  {| _config := _config s; _socket := _socket s; _output := _output s;
     destination := destination s; sockets := sockets s;
     subjects := v; sinks := sinks s;
     subscribers := subscribers s; trace := trace s |}.

Definition set_sinks (v : list Sink) (s : State) : State :=
  {| _config := _config s; _socket := _socket s; _output := _output s;
     destination := destination s; sockets := sockets s;
     subjects := subjects s; sinks := v;
     subscribers := subscribers s; trace := trace s |}.

Definition set_subscribers (v : list Subscriber) (s : State) : State :=
  {| _config := _config s; _socket := _socket s; _output := _output s;
     destination := destination s; sockets := sockets s;
     subjects := subjects s; sinks := sinks s;
     subscribers := v; trace := trace s |}.

Definition set_config (v : WebSocketSubjectConfig) (s : State) : State :=
  {| _config := v; _socket := _socket s; _output := _output s;
     destination := destination s; sockets := sockets s;
     subjects := subjects s; sinks := sinks s;
     subscribers := subscribers s; trace := trace s |}.

Definition set_trace (v : list Effect) (s : State) : State :=
  {| _config := _config s; _socket := _socket s; _output := _output s;
     destination := destination s; sockets := sockets s;
     subjects := subjects s; sinks := sinks s;
     subscribers := subscribers s; trace := v |}.

(** ** Sequencing

    A call maps the state to the state it leaves behind.  The result is
    [None] when the call dereferences an object that is not in the heap or
    when the nesting budget of [exec] below is exhausted. *)
Definition Step := State -> option State.

Definition skip : Step := fun s => Some s.

Definition and_then (f g : Step) : Step :=
  fun s => match f s with
           | Some s' => g s'
           | None => None
           end.

Fixpoint for_each {A : Type} (f : A -> Step) (l : list A) : Step :=
  match l with
  | [] => skip
  | a :: l' => and_then (f a) (for_each f l')
  end.

Definition emit (e : Effect) : Step :=
  fun s => Some (set_trace (trace s ++ [e]) s).

Definition when (b : bool) (f : Step) : Step := if b then f else skip.


(** ** Heap access *)

Definition update_socket (sid : nat) (f : WebSocket -> WebSocket) : Step :=
  fun s => match sockets s !! sid with
           | Some sock => Some (set_sockets (<[sid := f sock]> (sockets s)) s)
           | None => None
           end.

Definition update_subject (o : nat) (f : Subject -> Subject) : Step :=
  fun s => match subjects s !! o with
           | Some hub => Some (set_subjects (<[o := f hub]> (subjects s)) s)
           | None => None
           end.

Definition update_sink (k : nat) (f : Sink -> Sink) : Step :=
  fun s => match sinks s !! k with
           | Some sink => Some (set_sinks (<[k := f sink]> (sinks s)) s)
           | None => None
           end.

Definition update_subscriber (c : nat) (f : Subscriber -> Subscriber) : Step :=
  fun s => match subscribers s !! c with
           | Some sub => Some (set_subscribers (<[c := f sub]> (subscribers s)) s)
           | None => None
           end.

Definition with_readyState (r : ReadyState) (sock : WebSocket) : WebSocket :=
  {| readyState := r; ws_observer := ws_observer sock;
     ws_binaryType := ws_binaryType sock |}.

Definition with_observers (l : list nat) (hub : Subject) : Subject :=
  {| observers := l; isStopped := isStopped hub; thrownError := thrownError hub |}.

Definition stop_subject (err : option Err) (hub : Subject) : Subject :=
  {| observers := observers hub; isStopped := true; thrownError := err |}.

Definition stop_sink (sink : Sink) : Sink :=
  {| sink_socket := sink_socket sink; sink_observer := sink_observer sink;
     sink_stopped := true |}.

Definition stop_subscriber (sub : Subscriber) : Subscriber :=
  {| handler := handler sub; stopped := true; closed := closed sub;
     finalizers := finalizers sub |}.

Definition close_subscriber (sub : Subscriber) : Subscriber :=
  {| handler := handler sub; stopped := true; closed := true;
     finalizers := [] |}.

Definition add_finalizer (f : Finalizer) (sub : Subscriber) : Subscriber :=
  {| handler := handler sub; stopped := stopped sub; closed := closed sub;
     finalizers := finalizers sub ++ [f] |}.

(** ** The transport

    Modelled from the spec: the transport is an external collaborator with
    "a [send], a [close], and a connection-state enum".  [socket.send] and
    [socket.close] are recorded in the trace; as in the WebSocket interface,
    [close] moves a socket that is connecting or open to [CLOSING] and
    leaves a closing or closed one alone. *)

Definition is_open (sock : WebSocket) : bool :=
  Z.eqb (readyState_code (readyState sock)) 1.

Definition is_open_or_connecting (sock : WebSocket) : bool :=
  Z.eqb (readyState_code (readyState sock)) 1
  || Z.eqb (readyState_code (readyState sock)) 0.

Definition after_close (sock : WebSocket) : WebSocket :=
  if is_open_or_connecting sock then with_readyState CLOSING sock else sock.

Definition socket_send (sid : nat) (m : Msg) : Step :=
  emit (ESend sid m).

Definition socket_close (sid : nat) (code : option Z) (reason : option string) : Step :=
  and_then (emit (EClose sid code reason)) (update_socket sid after_close).

(** The environment side of the transport: the socket changes its
    [readyState] before it fires the matching callback. *)
Definition set_readyState (sid : nat) (r : ReadyState) : Step :=
  update_socket sid (with_readyState r).

(** ** [_resetState] (lines 202-208) *)

Definition _resetState : Step :=
  fun s =>
    Some (set_subjects (subjects s ++ [new_Subject])
         (set_output (length (subjects s))
         (set_destination (Replay [] Live)
         (set_socket None s)))).

(** ** The finalizer added in [_subscribe] (lines 377-385) *)

Definition refCount_teardown : Step :=
  fun s =>
    match subjects s !! _output s with
    | None => None
    | Some hub =>
        if Nat.eqb (length (observers hub)) 0 then
          and_then
            (match _socket s with
             | Some sid =>
                 fun s1 => match sockets s1 !! sid with
                           | Some sock =>
                               when (is_open_or_connecting sock)
                                    (socket_close sid None None) s1
                           | None => None
                           end
             | None => skip
             end)
            _resetState s
        else Some s
    end.

(** ** Nested calls

    The calls below can re-enter one another (a finalizer offers a value,
    offering a value can fail and error the hub, the hub notifies
    subscribers, a subscriber runs finalizers).  They are written against
    a parameter [rec] that performs a nested call; [exec] ties the knot. *)

Inductive Call :=
| CNext (x : T)                      (* this.next(x) *)
| CSub (c : nat) (n : Notification)  (* subscriber.next / error / complete *)
| CUnsub (c : nat)                   (* subscription.unsubscribe() *)
| CHub (o : nat) (n : Notification). (* observer.next / error / complete *)

Section Bodies.

Variable rec : Call -> Step.

(** Removal from [observers]. *)
Definition remove_observer (c : nat) (hub : Subject) : Subject :=
  with_observers (List.filter (fun c' => negb (Nat.eqb c' c)) (observers hub)) hub.

Definition run_finalizer (c : nat) (f : Finalizer) : Step :=
  match f with
  | FRemove o => update_subject o (remove_observer c)
  | FRefCount => refCount_teardown
  | FMultiplex unsubMsg inner =>
      (* lines 251-258 *)
      and_then
        (match unsubMsg tt with
         | Ok u => rec (CNext u)
         | Throws err => rec (CSub c (NError err))
         end)
        (rec (CUnsub inner))
  end.

(** [Subscription.unsubscribe] *)
Definition sub_unsubscribe (c : nat) : Step :=
  fun s =>
    match subscribers s !! c with
    | None => None
    | Some sub =>
        if closed sub then Some s
        else and_then (update_subscriber c close_subscriber)
                      (for_each (run_finalizer c) (finalizers sub)) s
    end.

(** [Subscription.add]: a finalizer added to a closed subscription runs at
    once. *)
Definition sub_add (c : nat) (f : Finalizer) : Step :=
  fun s =>
    match subscribers s !! c with
    | None => None
    | Some sub =>
        if closed sub then run_finalizer c f s
        else update_subscriber c (add_finalizer f) s
    end.

(** The handler of a subscriber: for [HFilter] this is the observer object
    of lines 237-249. *)
Definition deliver (c : nat) (h : Handler) (n : Notification) : Step :=
  match h with
  | HConsumer => emit (ENotify c n)
  | HFilter outer messageFilter =>
      match n with
      | NNext x =>
          match messageFilter x with
          | Ok true => rec (CSub outer (NNext x))
          | Ok false => skip
          | Throws err => rec (CSub outer (NError err))
          end
      | NError err => rec (CSub outer (NError err))
      | NComplete => rec (CSub outer NComplete)
      end
  end.

(** [Subscriber.next], [Subscriber.error], [Subscriber.complete] *)
Definition sub_notify (c : nat) (n : Notification) : Step :=
  fun s =>
    match subscribers s !! c with
    | None => None
    | Some sub =>
        if stopped sub then Some s
        else match n with
             | NNext _ => deliver c (handler sub) n s
             | _ =>
                 and_then (update_subscriber c stop_subscriber)
                   (and_then (deliver c (handler sub) n)
                             (sub_unsubscribe c)) s
             end
    end.

(** [Subject.next], [Subject.error], [Subject.complete]: the notification
    goes to the subscribers registered when the call starts, in
    registration order. *)
Definition hub_notify (o : nat) (n : Notification) : Step :=
  fun s =>
    match subjects s !! o with
    | None => None
    | Some hub =>
        if isStopped hub then Some s
        else match n with
             | NNext _ => for_each (fun c => sub_notify c n) (observers hub) s
             | NError err =>
                 and_then (update_subject o (stop_subject (Some err)))
                   (and_then (for_each (fun c => sub_notify c n) (observers hub))
                             (update_subject o (with_observers []))) s
             | NComplete =>
                 and_then (update_subject o (stop_subject None))
                   (and_then (for_each (fun c => sub_notify c n) (observers hub))
                             (update_subject o (with_observers []))) s
             end
    end.

(** The [error] closure of the subscriber created in [onopen]
    (lines 310-321), behind [Subscriber.error]. *)
Definition sink_error (k : nat) (err : Err) : Step :=
  fun s =>
    match sinks s !! k with
    | None => None
    | Some sink =>
        if sink_stopped sink then Some s
        else
          and_then (update_sink k stop_sink)
            (and_then (fun s1 => when (closingObserver (_config s1))
                                      (emit EClosingObserver) s1)
              (and_then
                 (match close_args err with
                  | Some (code, reason) =>
                      socket_close (sink_socket sink) (Some code) reason
                  | None =>
                      rec (CHub (sink_observer sink)
                             (NError (TypeError WEBSOCKETSUBJECT_INVALID_ERROR_OBJECT)))
                  end)
                 _resetState)) s
    end.

(** The [complete] closure (lines 322-329), behind [Subscriber.complete]. *)
Definition sink_complete (k : nat) : Step :=
  fun s =>
    match sinks s !! k with
    | None => None
    | Some sink =>
        if sink_stopped sink then Some s
        else
          and_then (update_sink k stop_sink)
            (and_then (fun s1 => when (closingObserver (_config s1))
                                      (emit EClosingObserver) s1)
              (and_then (socket_close (sink_socket sink) None None)
                        _resetState)) s
    end.

(** [this.destination.error(e)] *)
Definition dest_error (err : Err) : Step :=
  fun s =>
    match destination s with
    | Replay buf Live => Some (set_destination (Replay buf (Errored err)) s)
    | Replay _ _ => Some s
    | ToSink k => sink_error k err s
    end.

(** [this.destination.complete()] *)
Definition dest_complete : Step :=
  fun s =>
    match destination s with
    | Replay buf Live => Some (set_destination (Replay buf Completed) s)
    | Replay _ _ => Some s
    | ToSink k => sink_complete k s
    end.

(** The [next] closure of the subscriber created in [onopen]
    (lines 300-309), behind [Subscriber.next]. *)
Definition sink_next (k : nat) (x : T) : Step :=
  fun s =>
    match sinks s !! k with
    | None => None
    | Some sink =>
        if sink_stopped sink then Some s
        else
          match sockets s !! sink_socket sink with
          | None => None
          | Some sock =>
              if is_open sock then
                match serializer (_config s) x with
                | Ok m => socket_send (sink_socket sink) m s
                | Throws e => dest_error e s
                end
              else Some s
          end
    end.

(** [this.destination.next(x)] *)
Definition dest_next (x : T) : Step :=
  fun s =>
    match destination s with
    | Replay buf Live => Some (set_destination (Replay (buf ++ [x]) Live) s)
    | Replay _ _ => Some s
    | ToSink k => sink_next k x s
    end.

(** [WebSocketSubject.next], inherited from [AnonymousSubject]: the value
    goes to the current destination.  The offer itself is recorded. *)
Definition ws_next (x : T) : Step :=
  and_then (emit (EOffer x)) (dest_next x).

Definition call (c : Call) : Step :=
  match c with
  | CNext x => ws_next x
  | CSub c n => sub_notify c n
  | CUnsub c => sub_unsubscribe c
  | CHub o n => hub_notify o n
  end.

End Bodies.

(** [exec d] performs a call with at most [d] levels of nested calls. *)
Fixpoint exec (d : nat) (c : Call) : Step :=
  match d with
  | O => fun _ => None
  | S d' => call (exec d') c
  end.


(** ** The subject's own methods and the socket callbacks *)

Section Methods.

Variable rec : Call -> Step.

(** The constructor (lines 167-192) for a url or config argument: the
    configuration is in place, [_output] is a fresh hub, [destination] a
    fresh [ReplaySubject].  The record always carries a [WebSocketCtor]:
    a configuration without one, in a host without a global [WebSocket],
    makes the constructor throw and yields no subject. *)
Definition WebSocketSubject (config : WebSocketSubjectConfig) : State :=
  {| _config := config; _socket := None; _output := 0;
     destination := Replay [] Live; sockets := []; subjects := [new_Subject];
     sinks := []; subscribers := []; trace := [] |}.

(** [this.next(x)], [this.error(err)], [this.complete()] as inherited from
    [AnonymousSubject]. *)
Definition next (x : T) : Step := ws_next rec x.
Definition error (err : Err) : Step := dest_error rec err.
Definition complete : Step := dest_complete.

(** [_connectSocket], lines 262-283: construction of the socket.  The
    callbacks installed by the rest of the method are [onopen], [onerror],
    [onclose] and [onmessage] below; the socket record keeps the [observer]
    they captured. *)
Definition _connectSocket : Step :=
  fun s =>
    let observer := _output s in
    match WebSocketCtor (_config s) (url (_config s)) (protocol_argument (_config s)) with
    | Throws e => hub_notify rec observer (NError e) s
    | Ok _ =>
        let sid := length (sockets s) in
        emit (ENew sid (url (_config s)) (protocol_argument (_config s)))
          (set_socket (Some sid)
            (set_sockets (sockets s ++ [{| readyState := CONNECTING;
                                            ws_observer := observer;
                                            ws_binaryType := binaryType (_config s) |}])
               s))
    end.

(** [this._output.subscribe(subscriber)]: a stopped hub hands its final
    notification to the subscriber instead of registering it. *)
Definition hub_subscribe (o c : nat) : Step :=
  fun s =>
    match subjects s !! o with
    | None => None
    | Some hub =>
        match thrownError hub with
        | Some e => sub_notify rec c (NError e) s
        | None =>
            if isStopped hub then sub_notify rec c NComplete s
            else and_then
                   (update_subject o (fun h => with_observers (observers h ++ [c]) h))
                   (sub_add rec c (FRemove o)) s
        end
    end.

(** [_subscribe], lines 368-387, for the subscriber object [c]. *)
Definition _subscribe (c : nat) : Step :=
  and_then (fun s => match _socket s with
                     | None => _connectSocket s
                     | Some _ => Some s
                     end)
    (and_then (fun s => hub_subscribe (_output s) c s)
              (sub_add rec c FRefCount)).

(** [subject.subscribe(consumer)]: a subscriber is created for the
    application observer and passed to [_subscribe].  Its identity is the
    next free index. *)
Definition fresh_subscriber (s : State) : nat := length (subscribers s).

Definition allocate (h : Handler) : Step :=
  fun s => Some (set_subscribers (subscribers s ++ [new_Subscriber h]) s).

Definition subscribe : Step :=
  fun s => and_then (allocate HConsumer) (_subscribe (fresh_subscriber s)) s.

(** [subscription.unsubscribe()] called by the application on the
    subscription that [subscribe] returned for the subscriber [c]. *)
Definition subscription_unsubscribe (c : nat) : Step := sub_unsubscribe rec c.

(** [multiplex(subMsg, unsubMsg, messageFilter).subscribe(consumer)],
    lines 228-260: the subscriber [o] of the channel's consumer is created,
    the function given to [new Observable] runs, and the teardown it
    returns is added to [o]. *)
Definition multiplex_subscribe (subMsg unsubMsg : unit -> Try T)
    (messageFilter : T -> Try bool) : Step :=
  fun s =>
    let o := fresh_subscriber s in
    and_then (allocate HConsumer)
      (and_then
         (match subMsg tt with
          | Ok v => ws_next rec v
          | Throws err => sub_notify rec o (NError err)
          end)
         (fun s1 =>
            let i := fresh_subscriber s1 in
            and_then (allocate (HFilter o messageFilter))
              (and_then (_subscribe i)
                        (sub_add rec o (FMultiplex unsubMsg i))) s1)) s.

(** [socket.onopen], lines 285-335.  [queue.subscribe(this.destination)]
    replays the buffered values to the new subscriber, which drops them
    once it is stopped, and then the [error] or [complete] the queue had
    received. *)
Definition onopen (sid : nat) (evt : Event) : Step :=
  fun s =>
    match sockets s !! sid with
    | None => None
    | Some sock =>
        match _socket s with
        | None => and_then (socket_close sid None None) _resetState s
        | Some _ =>
            let queue := destination s in
            let k := length (sinks s) in
            and_then (when (openObserver (_config s)) (emit (EOpenObserver evt)))
              (and_then
                 (fun s1 =>
                    Some (set_destination (ToSink k)
                            (set_sinks (sinks s1 ++ [{| sink_socket := sid;
                                                        sink_observer := ws_observer sock;
                                                        sink_stopped := false |}]) s1)))
                 (match queue with
                  | Replay buf status =>
                      and_then (for_each (sink_next rec k) buf)
                        (match status with
                         | Live => skip
                         | Errored err => sink_error rec k err
                         | Completed => sink_complete k
                         end)
                  | ToSink _ => skip
                  end)) s
        end
    end.

(** [socket.onerror], lines 337-340 *)
Definition onerror (sid : nat) (evt : Event) : Step :=
  fun s =>
    match sockets s !! sid with
    | None => None
    | Some sock =>
        and_then _resetState
                 (hub_notify rec (ws_observer sock) (NError (TransportError evt))) s
    end.

(** [socket.onclose], lines 342-355 *)
Definition onclose (sid : nat) (e : CloseEvent) : Step :=
  fun s =>
    match sockets s !! sid with
    | None => None
    | Some sock =>
        and_then (fun s1 => match _socket s1 with
                            | Some cur => when (Nat.eqb cur sid) _resetState s1
                            | None => Some s1
                            end)
          (and_then (fun s1 => when (closeObserver (_config s1))
                                    (emit (ECloseObserver e)) s1)
             (if wasClean e
              then hub_notify rec (ws_observer sock) NComplete
              else hub_notify rec (ws_observer sock) (NError (UncleanClose e)))) s
    end.

(** [socket.onmessage], lines 357-364 *)
Definition onmessage (sid : nat) (e : MessageEvent) : Step :=
  fun s =>
    match sockets s !! sid with
    | None => None
    | Some sock =>
        match deserializer (_config s) e with
        | Ok v => hub_notify rec (ws_observer sock) (NNext v) s
        | Throws err => hub_notify rec (ws_observer sock) (NError err) s
        end
    end.

(** [unsubscribe()] of the subject itself, lines 389-396.  What
    [super.unsubscribe()] changes are fields of the subject's own
    [Subject] part ([closed], [isStopped], its own observer list), which
    the state does not hold: the consumers of a root subject are
    registered with [_output].  What a later [subscribe] does on a
    subject closed in this way is therefore outside the model. *)
Definition unsubscribe : Step :=
  fun s =>
    and_then
      (match _socket s with
       | Some sid =>
           fun s1 => match sockets s1 !! sid with
                     | Some sock =>
                         when (is_open_or_connecting sock)
                              (socket_close sid None None) s1
                     | None => None
                     end
       | None => skip
       end)
      _resetState s.

(** ** The subject in use

    What the application and the transport can do to the subject, one
    after the other: the application calls [next], [error], [complete],
    subscribes (plainly or to a multiplex channel), unsubscribes a
    consumer or the subject itself; the socket changes its [readyState]
    and fires its callbacks. *)
Inductive Action :=
| ANext (x : T)
| AError (err : Err)
| AComplete
| ASubscribe
| AMultiplex (subMsg unsubMsg : unit -> Try T) (messageFilter : T -> Try bool)
| AUnsubscribe (c : nat)
| AUnsubscribeSubject
| AReadyState (sid : nat) (r : ReadyState)
| AOpen (sid : nat) (evt : Event)
| AErrorEvent (sid : nat) (evt : Event)
| ACloseEvent (sid : nat) (e : CloseEvent)
| AMessage (sid : nat) (e : MessageEvent).

Definition perform (a : Action) : Step :=
  match a with
  | ANext x => next x
  | AError err => error err
  | AComplete => complete
  | ASubscribe => subscribe
  | AMultiplex subMsg unsubMsg messageFilter =>
      multiplex_subscribe subMsg unsubMsg messageFilter
  | AUnsubscribe c => subscription_unsubscribe c
  | AUnsubscribeSubject => unsubscribe
  | AReadyState sid r => set_readyState sid r
  | AOpen sid evt => onopen sid evt
  | AErrorEvent sid evt => onerror sid evt
  | ACloseEvent sid e => onclose sid e
  | AMessage sid e => onmessage sid e
  end.

End Methods.

End Model.

Arguments set_config {T Msg} v s /.
Arguments set_socket {T Msg} v s /.
Arguments set_output {T Msg} v s /.
Arguments set_destination {T Msg} v s /.
Arguments set_sockets {T Msg} v s /.
Arguments set_subjects {T Msg} v s /.
Arguments set_sinks {T Msg} v s /.
Arguments set_subscribers {T Msg} v s /.
Arguments set_trace {T Msg} v s /.
Arguments skip {T Msg} s /.
Arguments and_then {T Msg} f g s /.
Arguments emit {T Msg} e s /.
Arguments when {T Msg} !b f s /.
Arguments exec {T Msg} d c s : simpl never.
Arguments protocol_argument {T Msg} config : simpl never.
Arguments run_finalizer {T Msg} rec c f s : simpl never.

Unset Implicit Arguments.

(** * Vocabulary of the statements *)

Section Vocabulary.

Context {T Msg : Type}.

Local Abbreviation State := (@State T Msg).
Local Abbreviation Effect := (@Effect T Msg).
Local Abbreviation Notification := (@Notification T).
Local Abbreviation Subscriber := (@Subscriber T).

(** ** Projections of a trace *)

(** What application observers received, and who. *)
Fixpoint notifications (tr : list Effect) : list (nat * Notification) :=
  match tr with
  | [] => []
  | ENotify c n :: tr' => (c, n) :: notifications tr'
  | _ :: tr' => notifications tr'
  end.

(** What one application observer received. *)
Fixpoint received (c : nat) (tr : list Effect) : list Notification :=
  match tr with
  | [] => []
  | ENotify c' n :: tr' =>
      if Nat.eqb c' c then n :: received c tr' else received c tr'
  | _ :: tr' => received c tr'
  end.

(** The values offered to [next]. *)
Fixpoint offers (tr : list Effect) : list T :=
  match tr with
  | [] => []
  | EOffer x :: tr' => x :: offers tr'
  | _ :: tr' => offers tr'
  end.

(** What was written to the sockets: the calls of [socket.send]. *)
Fixpoint sends (tr : list Effect) : list (nat * Msg) :=
  match tr with
  | [] => []
  | ESend sid m :: tr' => (sid, m) :: sends tr'
  | _ :: tr' => sends tr'
  end.

(** The calls of [socket.close]. *)
Fixpoint closes (tr : list Effect) : list (nat * option Z * option string) :=
  match tr with
  | [] => []
  | EClose sid code reason :: tr' => (sid, code, reason) :: closes tr'
  | _ :: tr' => closes tr'
  end.

(** The effects that subscribers leaving a hub can have: observers are
    notified, unsubscribe messages are offered and possibly sent, and the
    refcount finalizer calls [close()] without arguments.  No socket is
    created, no lifecycle observer is called, [close] is never called
    with a code. *)
Definition teardown_effect (e : Effect) : Prop :=
  match e with
  | ENotify _ _ => True
  | EOffer _ => True
  | ESend _ _ => True
  | EClose _ None None => True
  | _ => False
  end.

(** ** Shape of a state *)

(** The references held by the subject point into the heaps. *)
Definition output_ok (s : State) : Prop := is_Some (subjects s !! _output s).

Definition socket_ok (s : State) : Prop :=
  forall sid, _socket s = Some sid -> is_Some (sockets s !! sid).

Definition hub_ok (s : State) (o : nat) : Prop := is_Some (subjects s !! o).

(** The destination is the pre-open buffer. *)
Definition buffering (s : State) : Prop :=
  match destination s with
  | Replay _ _ => True
  | ToSink _ => False
  end.

(** Offering [u] now cannot fail: it is buffered, or dropped by a stopped
    subscriber or a socket that is not open, or the serializer accepts
    it. *)
Definition sendable (s : State) (u : T) : Prop :=
  match destination s with
  | Replay _ _ => True
  | ToSink k =>
      exists sink,
        sinks s !! k = Some sink /\
        (sink_stopped sink = true \/
         exists sock,
           sockets s !! sink_socket sink = Some sock /\
           (is_open sock = false \/ exists m, serializer (_config s) u = Ok m))
  end.

(** [next] reaches the socket [sid]: the destination is the subscriber
    created in [onopen] for [sid] (lines 299-330), it has not been
    stopped, and [sid] is open. *)
Definition writes_to (s : State) (sid : nat) : Prop :=
  exists k sink sock,
    destination s = ToSink k /\
    sinks s !! k = Some sink /\
    sink_stopped sink = false /\
    sink_socket sink = sid /\
    sockets s !! sid = Some sock /\
    is_open sock = true.


(** The unsubscribe messages of the channels that are still subscribed
    can all be offered without failure. *)
Definition calm (s : State) : Prop :=
  forall (outer i : nat) (sub : Subscriber) (unsubMsg : unit -> Try T) (u : T),
    subscribers s !! outer = Some sub ->
    closed sub = false ->
    finalizers sub = [FMultiplex unsubMsg i] ->
    unsubMsg tt = Ok u ->
    sendable s u.

(** A subscriber as [_subscribe] leaves it: registered with the hub [o],
    carrying the hub's removal and the refcount finalizer. *)
Definition registered (o : nat) (h : Handler) : Subscriber :=
  {| handler := h; stopped := false; closed := false;
     finalizers := [FRemove o; FRefCount] |}.

(** The subscriber of a channel's consumer as [multiplex] leaves it. *)
Definition channel_consumer (unsubMsg : unit -> Try T) (i : nat) : Subscriber :=
  {| handler := HConsumer; stopped := false; closed := false;
     finalizers := [FMultiplex unsubMsg i] |}.

(** [attached s o c consumer]: the subscriber [c] is registered with the
    hub [o] and hands what it receives to the application observer
    [consumer]: itself, for a plain subscription, or the consumer of the
    multiplex channel whose filtered view [c] is. *)
Inductive attached (s : State) (o c : nat) : nat -> Prop :=
| attached_plain :
    subscribers s !! c = Some (registered o HConsumer) ->
    attached s o c c
| attached_channel (outer : nat) (f : T -> Try bool) (unsubMsg : unit -> Try T) :
    subscribers s !! c = Some (registered o (HFilter outer f)) ->
    subscribers s !! outer = Some (channel_consumer unsubMsg c) ->
    attached s o c outer.


Definition terminal (n : Notification) : Prop :=
  match n with NNext _ => False | _ => True end.

(** The values a channel offers when it is torn down. *)
Definition farewell (unsubMsg : unit -> Try T) : list T :=
  match unsubMsg tt with
  | Ok u => [u]
  | Throws _ => []
  end.

Definition invalid_error_object : Err :=
  TypeError WEBSOCKETSUBJECT_INVALID_ERROR_OBJECT.

(** The subscriber [c] has been unsubscribed. *)
Definition closed_at (s : State) (c : nat) : Prop :=
  exists sub, subscribers s !! c = Some sub /\ closed sub = true.

(** The state after [if (!this._socket) this._connectSocket()] when the
    socket can be constructed. *)
Definition connected (s : State) : State :=
  match _socket s with
  | Some _ => s
  | None =>
      set_trace (trace s ++ [ENew (length (sockets s)) (url (_config s))
                               (protocol_argument (_config s))])
        (set_socket (Some (length (sockets s)))
           (set_sockets (sockets s ++ [{| readyState := CONNECTING;
                                          ws_observer := _output s;
                                          ws_binaryType := binaryType (_config s) |}])
              s))
  end.

(** ** Relations between the state before and after a call *)

(** What every teardown preserves. *)
Record settled (s s' : State) : Prop := {
  st_config : _config s' = _config s;
  st_output : output_ok s';
  st_socket : socket_ok s';
  st_hubs : forall o, hub_ok s o -> hub_ok s' o;
  st_idle : _socket s = None -> _socket s' = None;
  st_buffering : buffering s -> buffering s';
  st_sendable : forall u, sendable s u -> sendable s' u
}.

(** The subscribers that are open afterwards were there, unchanged,
    before. *)
Definition still_open (s s' : State) : Prop :=
  forall j sub, subscribers s' !! j = Some sub -> closed sub = false ->
                subscribers s !! j = Some sub.

(** The subscriber [o] no longer accepts notifications. *)
Definition muted (s : State) (o : nat) : Prop :=
  exists sub, subscribers s !! o = Some sub /\ stopped sub = true.

(** From [s] to [s'] a subscriber [o] that was stopped is still stopped
    and its application observer has received nothing. *)
Definition quiet (o : nat) (s s' : State) : Prop :=
  muted s o ->
  muted s' o /\
  exists added, trace s' = trace s ++ added /\ received o added = [].

(** [selects s o v c out]: what the subscriber [c] of the hub [o] hands
    on when it receives the value [v]: an application observer receives
    it; the view of a multiplex channel passes it to the channel's
    consumer when the predicate holds. *)
Inductive selects (s : State) (o : nat) (v : T) (c : nat) : list Effect -> Prop :=
| selects_plain :
    subscribers s !! c = Some (registered o HConsumer) ->
    selects s o v c [ENotify c (NNext v)]
| selects_channel (outer : nat) (f : T -> Try bool) (unsubMsg : unit -> Try T)
                  (b : bool) :
    subscribers s !! c = Some (registered o (HFilter outer f)) ->
    subscribers s !! outer = Some (channel_consumer unsubMsg c) ->
    f v = Ok b ->
    selects s o v c (if b then [ENotify outer (NNext v)] else []).

(** The [close] call that a buffer which has received [complete] or an
    [error] carrying a code holds back until the socket opens. *)
Definition deferred_close (status : ReplayStatus) : option (option Z * option string) :=
  match status with
  | Live => None
  | Completed => Some (None, None)
  | Errored err =>
      match close_args err with
      | Some (code, reason) => Some (Some code, reason)
      | None => None
      end
  end.

(** Without a current socket the destination is the buffer. *)
Definition idle_buffers (s : State) : Prop := _socket s = None -> buffering s.

Definition keeps_idle_buffers (s s' : State) : Prop :=
  idle_buffers s -> idle_buffers s'.

(** The calls of the application that do not subscribe. *)
Definition local_call (a : @Action T Msg) : bool :=
  match a with
  | ANext _ | AError _ | AComplete | AUnsubscribe _ => true
  | _ => false
  end.

(** No socket is current and the destination is the buffer: what the
    constructor and [_resetState] leave. *)
Definition idle (s : State) : Prop := _socket s = None /\ buffering s.

(** The effects that involve no socket and no lifecycle observer. *)
Definition offline_effect (e : Effect) : Prop :=
  match e with
  | ENotify _ _ => True
  | EOffer _ => True
  | _ => False
  end.

(** From the idle state [s] the call led to the idle state [s'] and
    touched no socket. *)
Definition offline (s s' : State) : Prop :=
  idle s ->
  idle s' /\
  exists added, trace s' = trace s ++ added /\ Forall offline_effect added.

End Vocabulary.

(** * Example states *)

(** A configuration whose serializer rejects 98 with a close code and 99
    without one. *)
Definition demo_config : @WebSocketSubjectConfig nat nat :=
  {| url := "ws://localhost:8081"; protocol := None;
     serializer := fun v =>
                     if Nat.eqb v 99 then Throws (UserError None None)
                     else if Nat.eqb v 98
                          then Throws (UserError (Some 4000%Z) (Some "encode"%string))
                          else Ok (v + 100);
     deserializer := fun e => Ok (data e);
     openObserver := true; closeObserver := true; closingObserver := true;
     WebSocketCtor := fun _ _ => Ok tt; binaryType := None |}.

Definition run_all (d : nat) (l : list ((@Call nat -> @Step nat nat) -> @Step nat nat))
  : @Step nat nat :=
  for_each (fun f => f (exec d)) l.

Definition after (l : list ((@Call nat -> @Step nat nat) -> @Step nat nat))
  : @State nat nat :=
  match run_all 8 l (WebSocketSubject demo_config) with
  | Some s => s
  | None => WebSocketSubject demo_config
  end.

(** One consumer, socket open. *)
Definition demo_open : @State nat nat := Eval vm_compute in
  after [subscribe; (fun _ => set_readyState 0 OPEN); (fun r => onopen r 0 7)].

(** One consumer that subscribed and unsubscribed before the socket
    opened: the socket was closed while CONNECTING and the state reset. *)
Definition demo_detached : @State nat nat := Eval vm_compute in
  after [subscribe; (fun r => subscription_unsubscribe r 0)].

(** One consumer, destination replaced on open, socket now CLOSING. *)
Definition demo_closing : @State nat nat := Eval vm_compute in
  after [subscribe; (fun _ => set_readyState 0 OPEN); (fun r => onopen r 0 7);
         (fun _ => set_readyState 0 CLOSING)].

(** Two consumers, socket open. *)
Definition demo_two : @State nat nat := Eval vm_compute in
  after [subscribe; subscribe; (fun _ => set_readyState 0 OPEN);
         (fun r => onopen r 0 7)].

(** Two multiplex channels.  X selects the values below 10 and its
    predicate throws on 13; Y selects the values from 10 on. *)
Definition demo_sub_x : unit -> Try nat := fun _ => Ok 1.
Definition demo_unsub_x : unit -> Try nat := fun _ => Ok 2.
Definition demo_filter_x : nat -> Try bool :=
  fun v => if Nat.eqb v 13 then Throws (UserError None None) else Ok (Nat.ltb v 10).
Definition demo_sub_y : unit -> Try nat := fun _ => Ok 3.
Definition demo_unsub_y : unit -> Try nat := fun _ => Ok 4.
Definition demo_filter_y : nat -> Try bool := fun v => Ok (Nat.leb 10 v).

Definition demo_channels : @State nat nat := Eval vm_compute in
  after [(fun r => multiplex_subscribe r demo_sub_x demo_unsub_x demo_filter_x);
         (fun r => multiplex_subscribe r demo_sub_y demo_unsub_y demo_filter_y);
         (fun _ => set_readyState 0 OPEN); (fun r => onopen r 0 7)].

(** The channel X subscribed on [demo_open]. *)
Definition demo_open_channel : @State nat nat := Eval vm_compute in
  after [subscribe; (fun _ => set_readyState 0 OPEN); (fun r => onopen r 0 7);
         (fun r => multiplex_subscribe r demo_sub_x demo_unsub_x demo_filter_x)].

(** One consumer, socket still connecting, one value buffered. *)
Definition demo_connecting : @State nat nat := Eval vm_compute in
  after [subscribe; (fun r => next r 1)].

(** [complete()] was called while the socket was connecting; the socket
    has just become OPEN and its open event is about to fire. *)
Definition demo_completed_early : @State nat nat := Eval vm_compute in
  after [subscribe; (fun r => next r 1); (fun _ => complete);
         (fun _ => set_readyState 0 OPEN)].

(** A configuration whose deserializer rejects the message 0, and two
    consumers on an open socket under it. *)
Definition demo_strict : @WebSocketSubjectConfig nat nat :=
  {| url := "ws://localhost:8081"; protocol := None;
     serializer := fun v => Ok v;
     deserializer := fun e => if Nat.eqb (data e) 0
                              then Throws (UserError None (Some "bad frame"%string))
                              else Ok (data e);
     openObserver := false; closeObserver := false; closingObserver := false;
     WebSocketCtor := fun _ _ => Ok tt; binaryType := None |}.

Definition demo_strict_two : @State nat nat := Eval vm_compute in
  match run_all 8 [subscribe; subscribe; (fun _ => set_readyState 0 OPEN);
                   (fun r => onopen r 0 7)] (WebSocketSubject demo_strict) with
  | Some s => s
  | None => WebSocketSubject demo_strict
  end.

(** A configuration whose socket constructor throws. *)
Definition demo_no_transport : @WebSocketSubjectConfig nat nat :=
  {| url := "ws://localhost:8081"; protocol := None;
     serializer := fun v => Ok v;
     deserializer := fun e => Ok (data e);
     openObserver := false; closeObserver := false; closingObserver := false;
     WebSocketCtor := fun _ _ => Throws (TypeError "no transport"%string);
     binaryType := None |}.

(** The channels X and Y again, X now with an unsubscribe message the
    serializer of [demo_config] rejects. *)
Definition demo_unsub_rejected : unit -> Try nat := fun _ => Ok 99.

Definition demo_channels_rejected : @State nat nat := Eval vm_compute in
  after [(fun r => multiplex_subscribe r demo_sub_x demo_unsub_rejected demo_filter_x);
         (fun r => multiplex_subscribe r demo_sub_y demo_unsub_y demo_filter_y);
         (fun _ => set_readyState 0 OPEN); (fun r => onopen r 0 7)].

(** Close events. *)
Definition demo_clean_close : CloseEvent :=
  {| wasClean := true; closeCode := 1000; closeReason := "normal" |}.
Definition demo_unclean_close : CloseEvent :=
  {| wasClean := false; closeCode := 1006; closeReason := "abnormal" |}.

(** A subscribe-message producer that throws. *)
Definition demo_sub_throws : unit -> Try nat :=
  fun _ => Throws (UserError None (Some "no channel"%string)).

(** * Properties *)

Lemma exec_S {T Msg : Type} (d : nat) (c : @Call T) (s : @State T Msg) :
  exec (S d) c s = call (exec d) c s.
Proof. reflexivity. Qed.

(** ** Heap lookups after allocation and update *)

Lemma lookup_alloc {A : Type} (l : list A) (x : A) :
  (l ++ [x]) !! length l = Some x.
Proof. rewrite lookup_app_r by lia. now rewrite Nat.sub_diag. Qed.

Lemma lookup_alloc_old {A : Type} (l : list A) (x y : A) (i : nat) :
  l !! i = Some y -> (l ++ [x]) !! i = Some y.
Proof. intros H. now apply lookup_app_l_Some. Qed.

Lemma lookup_update {A : Type} (l : list A) (x y : A) (i : nat) :
  l !! i = Some y -> <[i := x]> l !! i = Some x.
Proof. intros H. apply list_lookup_insert_eq. eapply lookup_lt_Some; eauto. Qed.

Lemma lookup_update_other {A : Type} (l : list A) (x : A) (i j : nat) :
  i <> j -> <[i := x]> l !! j = l !! j.
Proof. intros H. now apply list_lookup_insert_ne. Qed.

Lemma insert_alloc {A : Type} (l : list A) (x y : A) :
  <[length l := y]> (l ++ [x]) = l ++ [y].
Proof.
  replace (length l) with (length l + 0) by lia.
  rewrite insert_app_r. reflexivity.
Qed.

(** ** Symbolic execution

    [heap] normalises lookups in heaps that were extended or updated;
    [run] unfolds the calls of the model one at a time. *)

Ltac note_bounds :=
  repeat match goal with
         | H : ?l !! ?i = Some _ |- _ =>
             lazymatch goal with
             | _ : i < length l |- _ => fail
             | _ => pose proof (lookup_lt_Some l i _ H)
             end
         end.

Ltac len := rewrite ?length_insert, ?length_app; simpl; lia.

Ltac heap :=
  note_bounds;
  repeat first
    [ rewrite lookup_alloc
    | rewrite insert_alloc
    | rewrite list_insert_insert_eq
    | rewrite list_lookup_insert_eq by len
    | rewrite list_lookup_insert_ne by (congruence || lia)
    | rewrite lookup_app_l by len
    | rewrite insert_app_l by len
    | match goal with
      | H : ?l !! ?i = Some _ |- context [?l !! ?i] => rewrite H
      end
    | progress simpl ].

Ltac run :=
  repeat first
    [ rewrite exec_S; unfold call
    | unfold sub_notify at 1
    | unfold sub_unsubscribe at 1
    | unfold update_subscriber at 1
    | unfold update_subject at 1
    | unfold run_finalizer at 1
    | progress heap ].


Section Properties.

Context {T Msg : Type}.

Local Abbreviation State := (@State T Msg).
Local Abbreviation Step := (@Step T Msg).
Local Abbreviation Call := (@Call T).
Local Abbreviation Effect := (@Effect T Msg).
Local Abbreviation Notification := (@Notification T).
Local Abbreviation Subscriber := (@Subscriber T).






Lemma notifications_app (a b : list Effect) :
  notifications (a ++ b) = notifications a ++ notifications b.
Proof.
  induction a as [|e a IH]; [reflexivity|].
  destruct e; simpl; rewrite IH; reflexivity.
Qed.

Lemma offers_app (a b : list Effect) :
  offers (a ++ b) = offers a ++ offers b.
Proof.
  induction a as [|e a IH]; [reflexivity|].
  destruct e; simpl; rewrite IH; reflexivity.
Qed.

Lemma settled_refl (s : State) : output_ok s -> socket_ok s -> settled s s.
Proof. intros. constructor; auto. Qed.

Lemma settled_trans (s s1 s2 : State) :
  settled s s1 -> settled s1 s2 -> settled s s2.
Proof.
  intros [] []. constructor; auto; congruence.
Qed.

Lemma hub_ok_update (l : list Subject) (o o' : nat) (h : Subject) :
  is_Some (l !! o') -> is_Some (<[o := h]> l !! o').
Proof.
  intros [x Hx]. destruct (decide (o = o')) as [->|Hne].
  - exists h. eapply lookup_update; eauto.
  - rewrite lookup_update_other by assumption. eauto.
Qed.

(** The refcount finalizer always returns; it adds at most a plain
    [close()] to the trace and leaves subscribers alone. *)
Lemma refCount_teardown_spec (s : State) :
  output_ok s -> socket_ok s ->
  exists s' cl,
    refCount_teardown s = Some s' /\
    trace s' = trace s ++ cl /\
    Forall teardown_effect cl /\
    notifications cl = [] /\
    offers cl = [] /\
    subscribers s' = subscribers s /\
    settled s s'.
Proof.
  intros [hub Hhub] Hsock.
  unfold refCount_teardown. rewrite Hhub.
  destruct (length (observers hub) =? 0).
  2:{ exists s, []. rewrite app_nil_r.
      repeat (split; [reflexivity || constructor|]).
      apply settled_refl; [exists hub|]; auto. }
  assert (Hreset : forall (s0 : State) cl,
             _config s0 = _config s ->
             subscribers s0 = subscribers s ->
             (forall o, hub_ok s o -> hub_ok s0 o) ->
             trace s0 = trace s ++ cl -> Forall teardown_effect cl ->
             notifications cl = [] -> offers cl = [] ->
             exists s' cl,
               _resetState s0 = Some s' /\
               trace s' = trace s ++ cl /\
               Forall teardown_effect cl /\
               notifications cl = [] /\
               offers cl = [] /\
               subscribers s' = subscribers s /\
               settled s s').
  { intros s0 cl H1 H3 H4 H5 H6 H7 H8. eexists. exists cl.
    split; [reflexivity|]. simpl.
    repeat (split; [assumption|]). constructor; simpl; auto.
    - unfold output_ok. simpl. rewrite lookup_alloc. eauto.
    - intros ? [=].
    - intros o Ho. destruct (H4 o Ho) as [h Hh]. unfold hub_ok. simpl.
      erewrite lookup_alloc_old; eauto.
    - intros _. exact I.
    - intros u _. exact I. }
  destruct (_socket s) as [sid|] eqn:Hsk; simpl.
  - destruct (Hsock sid Hsk) as [sock Hs]. rewrite Hs.
    destruct (is_open_or_connecting sock); simpl.
    + unfold socket_close, update_socket. simpl. rewrite Hs.
      apply (Hreset _ [EClose sid None None]); simpl; auto.
      repeat constructor.
    + apply (Hreset s []); simpl; auto. now rewrite app_nil_r.
  - apply (Hreset s []); simpl; auto. now rewrite app_nil_r.
Qed.

Lemma refCount_after (s s1 : State) (pre : list Effect) :
  _config s1 = _config s -> _socket s1 = _socket s ->
  sockets s1 = sockets s -> _output s1 = _output s ->
  (forall o, hub_ok s o -> hub_ok s1 o) ->
  (buffering s -> buffering s1) ->
  (forall u, sendable s u -> sendable s1 u) ->
  output_ok s -> socket_ok s ->
  trace s1 = trace s ++ pre ->
  exists s' cl,
    refCount_teardown s1 = Some s' /\
    trace s' = trace s ++ pre ++ cl /\
    Forall teardown_effect cl /\
    notifications cl = [] /\
    offers cl = [] /\
    subscribers s' = subscribers s1 /\
    settled s s'.
Proof.
  intros Hcfg Hsk Hsocks Hout Hhubs Hbuf Hsend Hoo Hso Htr.
  destruct (refCount_teardown_spec s1)
    as (s' & cl & Hrc & Ht & Hf & Hn & Hof & Hsub & Hst).
  - unfold output_ok. rewrite Hout. apply Hhubs, Hoo.
  - intros sid Hs. rewrite Hsocks. apply Hso. congruence.
  - exists s', cl. split; [assumption|].
    split; [rewrite Ht, Htr; now rewrite app_assoc|].
    repeat (split; [assumption|]).
    destruct Hst. constructor; try assumption; try congruence; auto.
    intros Hi. apply st_idle0. congruence.
Qed.

(** Offering a value that the destination can take, and what the offer
    writes to the socket. *)
Lemma offer_wire (d : nat) (u : T) (s : State) :
  sendable s u ->
  exists dst sent,
    exec (S d) (CNext u) s
    = Some (set_destination dst (set_trace (trace s ++ EOffer u :: sent) s)) /\
    Forall teardown_effect sent /\
    notifications sent = [] /\ offers sent = [] /\ closes sent = [] /\
    (buffering s -> buffering (set_destination dst s)) /\
    (forall u', sendable s u' -> sendable (set_destination dst s) u') /\
    (forall sid m, writes_to s sid -> serializer (_config s) u = Ok m ->
                   sent = [ESend sid m]) /\
    ((forall sid, ~ writes_to s sid) -> sent = []) /\
    (forall buf, destination s = Replay buf Live -> dst = Replay (buf ++ [u]) Live).
Proof.
  intros Hs. unfold sendable in Hs.
  rewrite exec_S. unfold call, ws_next, dest_next. simpl.
  destruct (destination s) as [buf st|k] eqn:Hd.
  - assert (Hw : forall sid m, writes_to s sid -> serializer (_config s) u = Ok m ->
                               @nil Effect = [ESend sid m]).
    { intros sid m (k & sink & sock & Hk & _) _. congruence. }
    destruct st.
    + eexists. exists []. split; [reflexivity|].
      repeat apply conj; try exact Hw; try (intros; exact I); try reflexivity;
        try constructor.
      intros buf' [= <-]. reflexivity.
    + exists (Replay buf (Errored err)), []. split; [reflexivity|].
      repeat apply conj; try exact Hw; try (intros; exact I); try reflexivity;
        try constructor.
      intros buf' [=].
    + exists (Replay buf Completed), []. split; [reflexivity|].
      repeat apply conj; try exact Hw; try (intros; exact I); try reflexivity;
        try constructor.
      intros buf' [=].
  - destruct Hs as (sink & Hk & Hcases).
    assert (Hsame : forall u', sendable s u' -> sendable (set_destination (ToSink k) s) u').
    { intros u' H. unfold sendable in *. simpl. rewrite Hd in H. exact H. }
    assert (Hnb : ~ buffering s).
    { unfold buffering. now rewrite Hd. }
    unfold sink_next. simpl. rewrite Hk.
    destruct (sink_stopped sink) eqn:Hst.
    { exists (ToSink k), []. split; [reflexivity|].
      repeat apply conj; try exact Hsame; try reflexivity; try constructor.
      - intros Hb. destruct (Hnb Hb).
      - intros sid m (k' & sink' & sock' & Hk' & Hs' & Hlive & _) _.
        congruence.
      - intros buf [=]. }
    destruct Hcases as [|(sock & Hsock & Hcases)]; [discriminate|].
    rewrite Hsock.
    destruct (is_open sock) eqn:Hop.
    + destruct Hcases as [|[m Hm]]; [discriminate|]. rewrite Hm.
      exists (ToSink k), [ESend (sink_socket sink) m].
      split; [unfold socket_send; simpl; now rewrite <- app_assoc|].
      repeat apply conj; try exact Hsame; try reflexivity.
      * repeat constructor.
      * intros Hb. destruct (Hnb Hb).
      * intros sid m' (k' & sink' & sock' & Hk' & Hs' & _ & Hsid & _) Hm'.
        congruence.
      * intros Hno. destruct (Hno (sink_socket sink)).
        exists k, sink, sock. repeat split; assumption.
      * intros buf [=].
    + exists (ToSink k), []. split; [reflexivity|].
      repeat apply conj; try exact Hsame; try reflexivity; try constructor.
      * intros Hb. destruct (Hnb Hb).
      * intros sid m (k' & sink' & sock' & Hk' & Hs' & _ & Hsid & Hsock' & Hopen) _.
        congruence.
      * intros buf [=].
Qed.


Lemma sends_app (a b : list Effect) : sends (a ++ b) = sends a ++ sends b.
Proof.
  induction a as [|e a IH]; [reflexivity|].
  destruct e; simpl; rewrite ?IH; reflexivity.
Qed.

(** The finalizer of lines 377-385 writes nothing to a socket. *)
Lemma refCount_teardown_sends (s s' : State) :
  refCount_teardown s = Some s' -> sends (trace s') = sends (trace s).
Proof.
  unfold refCount_teardown.
  destruct (subjects s !! _output s) as [hub|]; [|discriminate].
  destruct (Nat.eqb (length (observers hub)) 0); [|now intros [= <-]].
  unfold and_then.
  destruct (_socket s) as [sid|].
  - destruct (sockets s !! sid) as [sock|]; [|discriminate].
    unfold when. destruct (is_open_or_connecting sock).
    + unfold socket_close, and_then, emit, update_socket. simpl.
      destruct (sockets s !! sid); [|discriminate].
      intros [= <-]. simpl. rewrite sends_app. simpl. now rewrite app_nil_r.
    + intros [= <-]. reflexivity.
  - intros [= <-]. reflexivity.
Qed.


Lemma calm_settled (s s' : State) :
  calm s -> settled s s' -> still_open s s' -> calm s'.
Proof.
  intros Hc Hst Hopen outer i sub unsubMsg u Hl Hcl Hf Hu.
  apply Hst. eapply Hc; eauto.
Qed.

(** The teardown returned inside [multiplex] (lines 251-258), for a
    channel whose filtered view [c] is still subscribed. *)
Lemma multiplex_teardown_wire (d : nat) (s : State) (o c outer : nat)
      (h : Handler) (st : bool) (subo : Subscriber) (unsubMsg : unit -> Try T) :
  subscribers s !! c
  = Some {| handler := h; stopped := st; closed := false;
            finalizers := [FRemove o; FRefCount] |} ->
  subscribers s !! outer = Some subo -> stopped subo = true ->
  outer <> c ->
  (forall u, unsubMsg tt = Ok u -> sendable s u) ->
  hub_ok s o -> output_ok s -> socket_ok s ->
  exists s' added,
    run_finalizer (exec (S d)) outer (FMultiplex unsubMsg c) s = Some s' /\
    trace s' = trace s ++ added /\
    Forall teardown_effect added /\
    notifications added = [] /\
    offers added = farewell unsubMsg /\
    subscribers s'
    = <[c := {| handler := h; stopped := true; closed := true; finalizers := [] |}]>
        (subscribers s) /\
    settled s s' /\
    (forall u sid m,
        unsubMsg tt = Ok u -> writes_to s sid -> serializer (_config s) u = Ok m ->
        sends (trace s') = sends (trace s) ++ [(sid, m)]) /\
    ((forall sid, ~ writes_to s sid) -> sends (trace s') = sends (trace s)).
Proof.
  intros Hc Ho Hstop Hne Hsend [hub Hhub] Hout Hsock.
  unfold run_finalizer, farewell.
  destruct (unsubMsg tt) as [u|err] eqn:Hu; simpl.
  - destruct (offer_wire d u s (Hsend u eq_refl))
      as (dst & sent & Hoffer & Hf & Hn & Hof & _ & Hbuf & Hsnd & Hw & Hb & _).
    rewrite Hoffer. clear Hoffer. run.
    match goal with
    | |- context [refCount_teardown ?s1] =>
        pose proof (refCount_after s s1 (EOffer u :: sent)) as Hx; simpl in Hx;
        destruct Hx as (s' & cl & Hrc & Ht & Hf' & Hnn & Hoo & Hsub & Hst);
        try reflexivity; try assumption;
        [intros o' Ho'; apply hub_ok_update, Ho'|]; simpl; rewrite Hrc
    end.
    pose proof (refCount_teardown_sends _ _ Hrc) as Hss. simpl in Hss.
    rewrite sends_app in Hss. simpl in Hss.
    exists s'. eexists. split; [reflexivity|]. split; [exact Ht|].
    split; [constructor; [exact I|]; apply Forall_app; auto|].
    split; [simpl; rewrite notifications_app, Hn, Hnn; reflexivity|].
    split; [simpl; rewrite offers_app, Hof, Hoo; reflexivity|].
    split; [assumption|]. split; [assumption|]. split.
    + intros u' sid m [= <-] Hto Hm. rewrite Hss, (Hw sid m Hto Hm). reflexivity.
    + intros Hbf. rewrite Hss, (Hb Hbf). simpl. now rewrite app_nil_r.
  - run. rewrite Hstop. run.
    match goal with
    | |- context [refCount_teardown ?s1] =>
        pose proof (refCount_after s s1 []) as Hx; simpl in Hx;
        destruct Hx as (s' & cl & Hrc & Ht & Hf' & Hnn & Hoo & Hsub & Hst);
        try reflexivity; try assumption; try (now rewrite app_nil_r);
        try (intros; assumption);
        [intros o' Ho'; apply hub_ok_update, Ho'|]; simpl; rewrite Hrc
    end.
    pose proof (refCount_teardown_sends _ _ Hrc) as Hss. simpl in Hss.
    exists s', cl. split; [reflexivity|]. split; [exact Ht|].
    repeat (split; [assumption|]).
    split; [intros; discriminate|]. intros _. exact Hss.
Qed.

Lemma multiplex_teardown_spec (d : nat) (s : State) (o c outer : nat)
      (h : Handler) (st : bool) (subo : Subscriber) (unsubMsg : unit -> Try T) :
  subscribers s !! c
  = Some {| handler := h; stopped := st; closed := false;
            finalizers := [FRemove o; FRefCount] |} ->
  subscribers s !! outer = Some subo -> stopped subo = true ->
  outer <> c ->
  (forall u, unsubMsg tt = Ok u -> sendable s u) ->
  hub_ok s o -> output_ok s -> socket_ok s ->
  exists s' added,
    run_finalizer (exec (S d)) outer (FMultiplex unsubMsg c) s = Some s' /\
    trace s' = trace s ++ added /\
    Forall teardown_effect added /\
    notifications added = [] /\
    offers added = farewell unsubMsg /\
    subscribers s'
    = <[c := {| handler := h; stopped := true; closed := true; finalizers := [] |}]>
        (subscribers s) /\
    settled s s'.
Proof.
  intros Hc Ho Hstop Hne Hsend Hhub Hout Hsock.
  destruct (multiplex_teardown_wire d s o c outer h st subo unsubMsg
              Hc Ho Hstop Hne Hsend Hhub Hout Hsock)
    as (s' & added & H1 & H2 & H3 & H4 & H5 & H6 & H7 & _).
  exists s', added. repeat (split; [assumption|]). assumption.
Qed.

Lemma still_open_update (s s' : State) (l : list Subscriber) (c : nat) (sub : Subscriber) :
  subscribers s' = <[c := sub]> l ->
  closed sub = true ->
  (forall j x, j <> c -> l !! j = Some x -> closed x = false -> subscribers s !! j = Some x) ->
  still_open s s'.
Proof.
  intros Hsub Hcl Hl j x Hj Hx. rewrite Hsub in Hj.
  destruct (decide (c = j)) as [->|Hne].
  - apply list_lookup_insert_Some in Hj as [(_ & <- & _)|(? & _)]; congruence.
  - rewrite list_lookup_insert_ne in Hj by assumption. eapply Hl; eauto.
Qed.

(** An error or completion reaching an application observer registered
    with the hub. *)
Lemma notify_plain_step (d : nat) (s : State) (o c : nat) (n : Notification) :
  terminal n ->
  hub_ok s o -> output_ok s -> socket_ok s ->
  subscribers s !! c = Some (registered o HConsumer) ->
  exists s' added,
    sub_notify (exec d) c n s = Some s' /\
    trace s' = trace s ++ added /\
    Forall teardown_effect added /\
    notifications added = [(c, n)] /\
    offers added = [] /\
    (forall j, j <> c -> subscribers s' !! j = subscribers s !! j) /\
    still_open s s' /\
    settled s s'.
Proof.
  intros Hn [hub Hhub] Hout Hsock Hc.
  unfold sub_notify. rewrite Hc. simpl.
  destruct n as [x|err|]; [destruct Hn| |].
  all: run.
  all: match goal with
       | |- context [refCount_teardown ?s1] =>
           match eval simpl in (trace s1) with
           | trace ?s0 ++ ?pre =>
               let Hx := fresh "Hx" in
               pose proof (refCount_after s0 s1 pre) as Hx; simpl in Hx;
               destruct Hx as (s' & cl & Hrc & Ht & Hf & Hnn & Hoo & Hsub & Hst);
               try reflexivity; try assumption; try (intros; assumption);
               [intros o' Ho'; apply hub_ok_update, Ho'|];
               simpl; rewrite Hrc
           end
       end.
  all: exists s'; eexists; split; [reflexivity|]; split; [exact Ht|].
  all: split; [constructor; [exact I|assumption]|].
  all: split; [simpl; now rewrite Hnn|].
  all: split; [simpl; now rewrite Hoo|].
  all: split; [|split; [|assumption]].
  all: try (intros j Hj; rewrite Hsub; simpl; now rewrite lookup_update_other by congruence).
  all: eapply still_open_update; [exact Hsub|reflexivity|]; intros; assumption.
Qed.

(** An error or completion reaching the filtered view of a multiplex
    channel: the channel's consumer is notified, the unsubscribe message
    is offered, the view leaves the hub. *)
Lemma notify_channel_wire (d : nat) (s : State) (o c outer : nat)
      (f : T -> Try bool) (unsubMsg : unit -> Try T) (n : Notification) :
  terminal n ->
  hub_ok s o -> output_ok s -> socket_ok s ->
  subscribers s !! c = Some (registered o (HFilter outer f)) ->
  subscribers s !! outer = Some (channel_consumer unsubMsg c) ->
  (forall u, unsubMsg tt = Ok u -> sendable s u) ->
  exists s' added,
    sub_notify (exec (S (S d))) c n s = Some s' /\
    trace s' = trace s ++ ENotify outer n :: added /\
    Forall teardown_effect added /\
    notifications added = [] /\
    offers added = farewell unsubMsg /\
    (forall j, j <> c -> j <> outer -> subscribers s' !! j = subscribers s !! j) /\
    closed_at s' outer /\
    still_open s s' /\
    settled s s' /\
    (forall u sid m,
        unsubMsg tt = Ok u -> writes_to s sid -> serializer (_config s) u = Ok m ->
        sends (trace s') = sends (trace s) ++ [(sid, m)]) /\
    ((forall sid, ~ writes_to s sid) -> sends (trace s') = sends (trace s)).
Proof.
  intros Hn Hhub Hout Hsock Hc Houter Hsend.
  assert (Hne : outer <> c).
  { intros ->. rewrite Hc in Houter. discriminate. }
  assert (Hne' : c <> outer) by congruence.
  unfold sub_notify at 1. rewrite Hc. simpl.
  destruct n as [x|err|]; [destruct Hn| |].
  all: unfold update_subscriber at 1; heap.
  all: rewrite exec_S; unfold call, sub_notify at 1; heap.
  all: unfold update_subscriber at 1; heap.
  all: unfold sub_unsubscribe at 1; heap.
  all: unfold update_subscriber at 1; heap.
  all: match goal with
       | |- context [run_finalizer (exec (S ?d0)) ?ou (FMultiplex ?um ?cc) ?s1] =>
           let Hx := fresh "Hx" in
           pose proof (multiplex_teardown_wire d0 s1 o cc ou (HFilter ou f) true
                         (close_subscriber (stop_subscriber (channel_consumer um cc))) um)
             as Hx;
           simpl in Hx;
           destruct Hx as (s' & added & Hrun & Ht & Hf & Hnn & Hoo & Hsub & Hst & Hw & Hb);
           [heap; reflexivity | heap; reflexivity | reflexivity | assumption
           | exact Hsend | assumption | assumption | assumption |];
           rewrite Hrun
       end.
  all: exists s', added.
  all: split; [unfold sub_unsubscribe; rewrite Hsub; heap; reflexivity|].
  all: split; [rewrite Ht; now rewrite <- app_assoc|].
  all: repeat (split; [assumption|]).
  all: split; [intros j Hj Hj'; rewrite Hsub; now rewrite !lookup_update_other by congruence|].
  all: split; [eexists; rewrite Hsub; split; [heap; reflexivity|reflexivity]|].
  all: split;
       [eapply still_open_update; [exact Hsub|reflexivity|];
        intros j x Hj Hl Hcl;
        destruct (decide (outer = j)) as [->|Hoj];
        [rewrite list_lookup_insert_eq in Hl by len; injection Hl as <-; discriminate|];
        rewrite !list_lookup_insert_ne in Hl by congruence; assumption|].
  all: split; [destruct Hst; constructor; simpl in *; assumption|].
  all: split;
       [intros u sid m Hu Hto Hm; rewrite (Hw u sid m Hu Hto Hm), sends_app;
        simpl; now rewrite app_nil_r
       |intros Hbf; rewrite (Hb Hbf), sends_app; simpl; now rewrite app_nil_r].
Qed.

Lemma notify_channel_step (d : nat) (s : State) (o c outer : nat)
      (f : T -> Try bool) (unsubMsg : unit -> Try T) (n : Notification) :
  terminal n ->
  hub_ok s o -> output_ok s -> socket_ok s ->
  subscribers s !! c = Some (registered o (HFilter outer f)) ->
  subscribers s !! outer = Some (channel_consumer unsubMsg c) ->
  (forall u, unsubMsg tt = Ok u -> sendable s u) ->
  exists s' added,
    sub_notify (exec (S (S d))) c n s = Some s' /\
    trace s' = trace s ++ ENotify outer n :: added /\
    Forall teardown_effect added /\
    notifications added = [] /\
    offers added = farewell unsubMsg /\
    (forall j, j <> c -> j <> outer -> subscribers s' !! j = subscribers s !! j) /\
    closed_at s' outer /\
    still_open s s' /\
    settled s s'.
Proof.
  intros Hn Hhub Hout Hsock Hc Houter Hsend.
  destruct (notify_channel_wire d s o c outer f unsubMsg n
              Hn Hhub Hout Hsock Hc Houter Hsend)
    as (s' & added & H1 & H2 & H3 & H4 & H5 & H6 & H7 & H8 & H9 & _).
  exists s', added. repeat (split; [assumption|]). assumption.
Qed.

Lemma notify_terminal_step (d : nat) (s : State) (o c consumer : nat) (n : Notification) :
  terminal n ->
  hub_ok s o -> output_ok s -> socket_ok s -> calm s ->
  attached s o c consumer ->
  exists s' added,
    sub_notify (exec (S (S d))) c n s = Some s' /\
    trace s' = trace s ++ added /\
    Forall teardown_effect added /\
    notifications added = [(consumer, n)] /\
    (forall j, j <> c -> j <> consumer -> subscribers s' !! j = subscribers s !! j) /\
    still_open s s' /\
    settled s s'.
Proof.
  intros Hn Ho Hout Hsock Hcalm Hatt.
  destruct Hatt as [Hc | outer f unsubMsg Hc Houter].
  - destruct (notify_plain_step (S (S d)) s o c n Hn Ho Hout Hsock Hc)
      as (s' & added & Hrun & Ht & Hf & Hnn & _ & Hfr & Hso & Hst).
    exists s', added. repeat (split; [assumption|]).
    split; [intros; now apply Hfr|]. split; assumption.
  - destruct (notify_channel_step d s o c outer f unsubMsg n Hn Ho Hout Hsock Hc Houter)
      as (s' & added & Hrun & Ht & Hf & Hnn & _ & Hfr & _ & Hso & Hst).
    { intros u Hu. eapply Hcalm; eauto. }
    exists s', (ENotify outer n :: added). repeat (split; [assumption|]).
    split; [constructor; [exact I|assumption]|].
    split; [simpl; now rewrite Hnn|].
    split; [assumption|]. split; assumption.
Qed.

Lemma attached_apart (s : State) (o c c' consumer consumer' : nat) :
  attached s o c consumer -> attached s o c' consumer' -> c <> c' ->
  c' <> consumer /\ consumer' <> c /\ consumer' <> consumer.
Proof.
  intros H1 H2 Hne. destruct H1, H2; repeat split; intros ?; subst;
    repeat match goal with
           | H : ?x = Some _, H' : ?x = Some _ |- _ =>
               rewrite H in H'; inversion H'; subst; clear H'
           end; congruence.
Qed.

Lemma attached_frame (s s' : State) (o c consumer : nat) :
  subscribers s' !! c = subscribers s !! c ->
  subscribers s' !! consumer = subscribers s !! consumer ->
  attached s o c consumer -> attached s' o c consumer.
Proof.
  intros Hc Hcons Hatt. inversion Hatt as [H|f u H Ho]; subst.
  - apply attached_plain. congruence.
  - eapply attached_channel; [rewrite Hc|rewrite Hcons]; eassumption.
Qed.

Lemma attached_rest (s s1 : State) (o c consumer : nat) (obs consumers : list nat) :
  attached s o c consumer ->
  c ∉ obs ->
  (forall j, j <> c -> j <> consumer -> subscribers s1 !! j = subscribers s !! j) ->
  Forall2 (attached s o) obs consumers ->
  Forall2 (attached s1 o) obs consumers.
Proof.
  intros Hc Hnotin Hframe Hall.
  induction Hall as [|c' consumer' obs' consumers' Hc' Hall IH]; constructor.
  - assert (Hne : c <> c') by (intros ->; apply Hnotin; left).
    destruct (attached_apart s o c c' consumer consumer' Hc Hc' Hne) as (H1 & H2 & H3).
    apply (attached_frame s); auto.
  - apply IH. intros Hin. apply Hnotin. now right.
Qed.

Lemma still_open_trans (s s1 s2 : State) :
  still_open s s1 -> still_open s1 s2 -> still_open s s2.
Proof. intros H1 H2 j x Hj Hx. apply H1; auto. Qed.

Lemma notify_terminal_all (d : nat) (o : nat) (n : Notification) (obs : list nat) :
  terminal n ->
  forall (consumers : list nat) (s : State),
    hub_ok s o -> output_ok s -> socket_ok s -> calm s ->
    NoDup obs -> Forall2 (attached s o) obs consumers ->
    exists s' added,
      for_each (fun c => sub_notify (exec (S (S d))) c n) obs s = Some s' /\
      trace s' = trace s ++ added /\
      Forall teardown_effect added /\
      notifications added = map (fun c => (c, n)) consumers /\
      still_open s s' /\
      settled s s'.
Proof.
  intros Hn.
  induction obs as [|c obs IH]; intros consumers s Ho Hout Hsock Hcalm Hnd Hatt.
  - inversion Hatt; subst. exists s, []. simpl. rewrite app_nil_r.
    repeat (split; [reflexivity || constructor|]).
    split; [intros j x Hj _; exact Hj|]. now apply settled_refl.
  - inversion Hatt as [|? consumer ? consumers' Hc Hrest]; subst.
    inversion Hnd as [|? ? Hnotin Hnd']; subst.
    destruct (notify_terminal_step d s o c consumer n Hn Ho Hout Hsock Hcalm Hc)
      as (s1 & a1 & Hrun1 & Ht1 & Hf1 & Hn1 & Hframe & Hso1 & Hst1).
    destruct (IH consumers' s1)
      as (s2 & a2 & Hrun2 & Ht2 & Hf2 & Hn2 & Hso2 & Hst2).
    + apply Hst1, Ho.
    + apply Hst1.
    + apply Hst1.
    + eapply calm_settled; eauto.
    + assumption.
    + eapply attached_rest; eauto.
    + exists s2, (a1 ++ a2). simpl. rewrite Hrun1.
      split; [exact Hrun2|].
      split; [rewrite Ht2, Ht1; now rewrite app_assoc|].
      split; [now apply Forall_app|].
      split; [rewrite notifications_app, Hn1, Hn2; reflexivity|].
      split; [eapply still_open_trans; eassumption|].
      eapply settled_trans; eassumption.
Qed.

Lemma settled_set_subjects (s : State) (o : nat) (h : Subject) :
  output_ok s -> socket_ok s ->
  settled s (set_subjects (<[o := h]> (subjects s)) s).
Proof.
  intros Hout Hsock. constructor; simpl; auto.
  - unfold output_ok. simpl. now apply hub_ok_update.
  - intros o' Ho'. unfold hub_ok. simpl. now apply hub_ok_update.
Qed.

(** [Subject.error] and [Subject.complete] on a hub whose registered
    subscribers are application observers and channel views: every one of
    the consumers behind them is notified, in registration order. *)
Lemma hub_notify_terminal (d : nat) (s : State) (o : nat) (hub : Subject)
      (n : Notification) (consumers : list nat) :
  terminal n ->
  subjects s !! o = Some hub ->
  (isStopped hub = true -> observers hub = []) ->
  NoDup (observers hub) ->
  Forall2 (attached s o) (observers hub) consumers ->
  output_ok s -> socket_ok s -> calm s ->
  exists s' added,
    hub_notify (exec (S (S d))) o n s = Some s' /\
    trace s' = trace s ++ added /\
    Forall teardown_effect added /\
    notifications added = map (fun c => (c, n)) consumers /\
    still_open s s' /\
    settled s s'.
Proof.
  intros Hn Hhub Hstopped Hnd Hatt Hout Hsock Hcalm.
  unfold hub_notify. rewrite Hhub.
  destruct (isStopped hub) eqn:Hst.
  { rewrite (Hstopped eq_refl) in Hatt. inversion Hatt; subst.
    exists s, []. rewrite app_nil_r.
    repeat (split; [reflexivity || constructor|]).
    split; [intros j x Hj _; exact Hj|]. now apply settled_refl. }
  assert (Hloop : forall g : Subject -> Subject,
    exists s' added,
      and_then (update_subject o g)
        (and_then (for_each (fun c => sub_notify (exec (S (S d))) c n) (observers hub))
                  (update_subject o (with_observers []))) s = Some s' /\
      trace s' = trace s ++ added /\
      Forall teardown_effect added /\
      notifications added = map (fun c => (c, n)) consumers /\
      still_open s s' /\
      settled s s').
  { intros g. simpl. unfold update_subject at 1. rewrite Hhub.
    pose (s0 := set_subjects (<[o := g hub]> (subjects s)) s).
    destruct (notify_terminal_all d o n (observers hub) Hn consumers s0)
      as (s1 & added & Hrun & Ht & Hf & Hnn & Hso & Hs1); try assumption.
    - unfold hub_ok. simpl. apply hub_ok_update. eauto.
    - unfold output_ok. simpl. now apply hub_ok_update.
    - eapply Forall2_impl; [exact Hatt|]. intros c x Hcx.
      eapply attached_frame; [| |exact Hcx]; reflexivity.
    - assert (Hh0 : hub_ok s0 o).
      { unfold hub_ok. simpl. apply hub_ok_update. eauto. }
      destruct (st_hubs _ _ Hs1 o Hh0) as [h1 Hh1].
      eexists. exists added.
      split; [fold s0; rewrite Hrun; unfold update_subject; rewrite Hh1; reflexivity|].
      simpl. repeat (split; [assumption|]).
      eapply settled_trans; [apply (settled_set_subjects s o (g hub)); assumption|].
      eapply settled_trans; [exact Hs1|].
      apply settled_set_subjects; apply Hs1. }
  destruct n as [x|err|]; [destruct Hn| |].
  - apply (Hloop (stop_subject (Some err))).
  - apply (Hloop (stop_subject None)).
Qed.


Lemma attached_same_subscribers (s s' : State) (o : nat) (obs consumers : list nat) :
  subscribers s' = subscribers s ->
  Forall2 (attached s o) obs consumers ->
  Forall2 (attached s' o) obs consumers.
Proof.
  intros Heq Hatt. eapply Forall2_impl; [exact Hatt|]. intros c x Hcx.
  eapply attached_frame; [| |exact Hcx]; now rewrite Heq.
Qed.

(** The error path of the subscriber created in [onopen]. *)
Lemma sink_error_spec (d : nat) (s : State) (k : nat) (sink : Sink) (sock : WebSocket)
      (hub : Subject) (err : Err) (consumers : list nat) :
  destination s = ToSink k ->
  sinks s !! k = Some sink ->
  sink_stopped sink = false ->
  sockets s !! sink_socket sink = Some sock ->
  subjects s !! sink_observer sink = Some hub ->
  (isStopped hub = true -> observers hub = []) ->
  NoDup (observers hub) ->
  Forall2 (attached s (sink_observer sink)) (observers hub) consumers ->
  output_ok s -> socket_ok s ->
  exists s' added,
    sink_error (exec (S (S (S d)))) k err s = Some s' /\
    trace s' = trace s
               ++ (if closingObserver (_config s) then [EClosingObserver] else [])
               ++ added /\
    match close_args err with
    | Some (code, reason) =>
        added = [EClose (sink_socket sink) (Some code) reason]
    | None =>
        Forall teardown_effect added /\
        notifications added
        = map (fun c => (c, NError invalid_error_object)) consumers
    end /\
    _socket s' = None /\
    destination s' = Replay [] Live /\
    subjects s' !! _output s' = Some new_Subject.
Proof.
  intros Hdest Hk Hlive Hsock Hhub Hstopped Hnd Hatt Hout Hso.
  unfold sink_error. rewrite Hk, Hlive. simpl.
  unfold update_sink. rewrite Hk.
  destruct (close_args err) as [[code reason]|] eqn:Hargs.
  - destruct (closingObserver (_config s)) eqn:Hco; simpl; rewrite Hco; simpl.
    all: unfold socket_close, update_socket; simpl; rewrite Hsock; simpl.
    all: eexists; eexists; split; [reflexivity|]; simpl.
    all: split; [rewrite <- ?app_assoc; reflexivity|].
    all: split; [reflexivity|].
    all: repeat split; apply lookup_alloc.
  - pose (hook := if closingObserver (_config s) then [@EClosingObserver T Msg] else []).
    pose (s1 := set_trace (trace s ++ hook)
                  (set_sinks (<[k := stop_sink sink]> (sinks s)) s)).
    destruct (hub_notify_terminal d s1 (sink_observer sink) hub
                (NError invalid_error_object) consumers)
      as (s2 & added & Hrun & Ht & Hf & Hnn & _ & Hst); try assumption.
    + exact I.
    + now apply (attached_same_subscribers s).
    + intros outer i sub unsubMsg u _ _ _ _. unfold sendable. simpl.
      rewrite Hdest. exists (stop_sink sink). split; [|now left].
      eapply lookup_update; eauto.
    + exists (set_subjects (subjects s2 ++ [new_Subject])
                (set_output (length (subjects s2))
                   (set_destination (Replay [] Live) (set_socket None s2)))).
      exists added.
      split.
      { destruct (closingObserver (_config s)) eqn:Hco; simpl; rewrite Hco; simpl.
        all: subst s1 hook; simpl in Hrun; rewrite ?app_nil_r in Hrun.
        all: rewrite exec_S; unfold call.
        all: unfold invalid_error_object in Hrun; rewrite Hrun; reflexivity. }
      simpl. split; [rewrite Ht; subst s1; simpl; now rewrite <- app_assoc|].
      split; [split; assumption|].
      repeat split. apply lookup_alloc.
Qed.


(** ** The outgoing buffer *)

Lemma offer_buffered (rec : Call -> Step) (vs : list T) :
  forall (s : State) (buf : list T),
    destination s = Replay buf Live ->
    for_each (next rec) vs s
    = Some (set_destination (Replay (buf ++ vs) Live)
              (set_trace (trace s ++ map EOffer vs) s)).
Proof.
  induction vs as [|v vs IH]; intros s buf Hd.
  - destruct s; simpl in *; subst. now rewrite !app_nil_r.
  - simpl. unfold next, ws_next, dest_next.
    simpl. rewrite Hd.
    rewrite (IH _ (buf ++ [v])) by reflexivity.
    simpl. now rewrite <- !app_assoc.
Qed.

Lemma flush_sends (rec : Call -> Step) (k sid : nat) (sink : Sink) (sock : WebSocket)
      (cfg : WebSocketSubjectConfig) (vs : list T) (ms : list Msg) :
  sink_stopped sink = false ->
  sink_socket sink = sid ->
  readyState sock = OPEN ->
  Forall2 (fun v m => serializer cfg v = Ok m) vs ms ->
  forall (s : State),
    _config s = cfg ->
    sinks s !! k = Some sink ->
    sockets s !! sid = Some sock ->
    for_each (sink_next rec k) vs s
    = Some (set_trace (trace s ++ map (ESend sid) ms) s).
Proof.
  intros Hlive Hsid Hopen HF.
  induction HF as [|v m vs ms Hv HF IH]; intros s Hcfg Hk Hsock.
  - destruct s; simpl. now rewrite app_nil_r.
  - simpl. unfold sink_next at 1.
    rewrite Hk, Hlive, Hsid, Hsock. unfold is_open. rewrite Hopen. simpl.
    rewrite Hcfg, Hv. unfold socket_send. simpl.
    rewrite IH; simpl; try assumption.
    rewrite ?Hcfg, <- app_assoc. reflexivity.
Qed.

(** C1: values offered while the subject is Idle ([vs1]) or Connecting
    ([vs2]) are appended raw to the buffer and nothing is sent; when the
    socket opens, the buffered values are serialized with the serializer
    of the configuration in force at that moment and sent on the socket,
    each once, in the order they were offered; a value offered after
    that is sent at once and the destination is no longer a buffer. *)
Theorem C1_buffered_values_flushed_in_order_on_open :
  forall (d : nat) (s : State) (hub : Subject) (buf vs1 vs2 : list T)
         (config' : WebSocketSubjectConfig) (ms : list Msg)
         (evt : Event) (v : T) (m : Msg),
    _socket s = None ->
    destination s = Replay buf Live ->
    subjects s !! _output s = Some hub ->
    isStopped hub = false ->
    thrownError hub = None ->
    WebSocketCtor (_config s) (url (_config s)) (protocol_argument (_config s)) = Ok tt ->
    Forall2 (fun x m => serializer config' x = Ok m) (buf ++ vs1 ++ vs2) ms ->
    serializer config' v = Ok m ->
    let sid := length (sockets s) in
    let k := length (sinks s) in
    exists s1 s2 s3 s4 s5,
      (* offered while Idle *)
      for_each (next (exec d)) vs1 s = Some s1 /\
      destination s1 = Replay (buf ++ vs1) Live /\
      trace s1 = trace s ++ map EOffer vs1 /\
      (* the first consumer subscribes: Connecting *)
      subscribe (exec d) s1 = Some s2 /\
      _socket s2 = Some sid /\
      destination s2 = Replay (buf ++ vs1) Live /\
      trace s2 = trace s1 ++ [ENew sid (url (_config s)) (protocol_argument (_config s))] /\
      (* offered while Connecting *)
      for_each (next (exec d)) vs2 s2 = Some s3 /\
      destination s3 = Replay (buf ++ vs1 ++ vs2) Live /\
      trace s3 = trace s2 ++ map EOffer vs2 /\
      (* the socket opens *)
      and_then (set_readyState sid OPEN) (onopen (exec d) sid evt)
        (set_config config' s3) = Some s4 /\
      trace s4 = trace s3
                 ++ (if openObserver config' then [EOpenObserver evt] else [])
                 ++ map (ESend sid) ms /\
      destination s4 = ToSink k /\
      (* offered while Open *)
      next (exec d) v s4 = Some s5 /\
      trace s5 = trace s4 ++ [EOffer v; ESend sid m] /\
      destination s5 = ToSink k.
Proof.
  intros d s hub buf vs1 vs2 config' ms evt v m Hidle Hdest Hhub Hlive Herr
         Hctor Hser Hv sid k.
  destruct s as [cfg sk out dst socks subjs snks subs tr].
  simpl in *. subst sk dst sid k.
  destruct (openObserver config') eqn:Hoo.
  all: eexists; eexists; eexists; eexists; eexists.
  all: split; [apply offer_buffered; reflexivity|].
  all: simpl; (split; [reflexivity|]); (split; [reflexivity|]).
  all: split;
    [unfold subscribe, _subscribe, allocate, _connectSocket, hub_subscribe,
       update_subject, sub_add, update_subscriber, fresh_subscriber;
     simpl; rewrite Hctor; heap; rewrite Herr, Hlive; heap; reflexivity|].
  all: simpl; (split; [reflexivity|]); (split; [reflexivity|]); (split; [reflexivity|]).
  all: split; [apply offer_buffered; reflexivity|].
  all: simpl; (split; [now rewrite <- app_assoc|]); (split; [reflexivity|]).
  all: assert (HF := fun tr0 ob =>
    flush_sends (exec d) (length snks) (length socks)
      {| sink_socket := length socks; sink_observer := out; sink_stopped := false |}
      {| readyState := OPEN; ws_observer := out; ws_binaryType := binaryType cfg |}
      config' (buf ++ vs1 ++ vs2) ms eq_refl eq_refl eq_refl Hser
      (Build_State config' (Some (length socks)) out (ToSink (length snks))
         (socks ++ [{| readyState := OPEN; ws_observer := out;
                       ws_binaryType := binaryType cfg |}])
         (<[out := with_observers (observers hub ++ [length subs]) hub]> subjs)
         (snks ++ [{| sink_socket := length socks; sink_observer := out;
                      sink_stopped := false |}])
         ob tr0)); simpl in HF.
  all: split;
    [unfold set_readyState, update_socket, onopen; heap; rewrite Hoo; heap;
     rewrite <- app_assoc; rewrite HF;
     [reflexivity | reflexivity | apply lookup_alloc | apply lookup_alloc]|].
  all: simpl; (split; [rewrite <- ?app_assoc; reflexivity|]); (split; [reflexivity|]).
  all: split;
    [unfold next, ws_next, dest_next, sink_next; heap; rewrite Hv; reflexivity|].
  all: simpl; (split; [|reflexivity]); rewrite <- !app_assoc; reflexivity.
Qed.

(** C9: an open event that finds [this._socket] cleared closes the socket
    that fired it and resets the state, and performs nothing of the open
    sequence: the only effect is that [close()], so the open observer is
    not called and nothing is sent; no subscriber is created for the
    destination, which is the empty buffer left by the reset. *)
Theorem C9_open_after_teardown_only_closes_and_resets :
  forall (rec : Call -> Step) (s : State) (sid : nat) (sock : WebSocket)
         (evt : Event),
    _socket s = None ->
    sockets s !! sid = Some sock ->
    exists s',
      onopen rec sid evt s = Some s' /\
      trace s' = trace s ++ [EClose sid None None] /\
      sockets s' = <[sid := after_close sock]> (sockets s) /\
      _socket s' = None /\
      destination s' = Replay [] Live /\
      sinks s' = sinks s /\
      _output s' = length (subjects s) /\
      subjects s' = subjects s ++ [new_Subject] /\
      subscribers s' = subscribers s.
Proof.
  intros rec s sid sock evt Hnone Hsock.
  unfold onopen. rewrite Hsock, Hnone.
  unfold socket_close, update_socket, _resetState. simpl.
  rewrite Hsock. simpl.
  eexists. split; [reflexivity|]. simpl. repeat split; reflexivity.
Qed.

(** C10: a value handed to the subscriber created in [onopen] while the
    socket's readyState is not OPEN is dropped: the call returns and the
    state it leaves is the state it found (nothing is sent, nothing is
    buffered, nobody is notified); through [next] the only difference is
    the record of the offer itself. *)
Theorem C10_value_dropped_when_socket_not_open :
  forall (rec : Call -> Step) (s : State) (k : nat) (sink : Sink)
         (sock : WebSocket) (x : T),
    destination s = ToSink k ->
    sinks s !! k = Some sink ->
    sockets s !! sink_socket sink = Some sock ->
    readyState sock <> OPEN ->
    sink_next rec k x s = Some s /\
    next rec x s = Some (set_trace (trace s ++ [EOffer x]) s) /\
    forall d, exec (S d) (CNext x) s = Some (set_trace (trace s ++ [EOffer x]) s).
Proof.
  intros rec s k sink sock x Hdest Hsink Hsock Hrs.
  assert (Hopen : is_open sock = false).
  { unfold is_open. destruct (readyState sock); simpl; congruence. }
  destruct s as [cfg sk out dst socks subjs snks subs tr].
  simpl in *. subst dst.
  assert (Hsn : forall (r : Call -> Step) tr',
             sink_next r k x
               (Build_State cfg sk out (ToSink k) socks subjs snks subs tr')
             = Some (Build_State cfg sk out (ToSink k) socks subjs snks subs tr')).
  { intros r tr'. unfold sink_next. simpl. rewrite Hsink.
    destruct (sink_stopped sink); [reflexivity|].
    rewrite Hsock, Hopen. reflexivity. }
  split; [apply Hsn|]. split.
  - unfold next, ws_next, dest_next. simpl. apply Hsn.
  - intros d. rewrite exec_S. unfold call, ws_next, dest_next. simpl. apply Hsn.
Qed.


(** ** Transport close *)

(** C2: on a close event of a socket, the state is reset when that socket
    is still [this._socket]; the close observer, when configured, is
    called with the event; then every consumer of the hub the socket was
    connected for receives [complete] when the event is clean and the
    event as an error otherwise.  (When the socket is no longer current
    the statement supposes that the unsubscribe messages of the channels
    can be offered without failure.) *)
Theorem C2_close_event_resets_and_notifies_consumers :
  forall (d : nat) (s : State) (sid : nat) (sock : WebSocket) (hub : Subject)
         (e : CloseEvent) (consumers : list nat),
    sockets s !! sid = Some sock ->
    subjects s !! ws_observer sock = Some hub ->
    (isStopped hub = true -> observers hub = []) ->
    NoDup (observers hub) ->
    Forall2 (attached s (ws_observer sock)) (observers hub) consumers ->
    output_ok s -> socket_ok s ->
    (_socket s = Some sid \/ calm s) ->
    exists s' rest,
      onclose (exec (S (S d))) sid e s = Some s' /\
      trace s' = trace s
                 ++ (if closeObserver (_config s) then [ECloseObserver e] else [])
                 ++ rest /\
      notifications rest
      = map (fun c => (c, if wasClean e then NComplete else NError (UncleanClose e)))
            consumers /\
      Forall teardown_effect rest /\
      (_socket s = Some sid -> _socket s' = None /\ buffering s').
Proof.
  intros d s sid sock hub e consumers Hsock Hhub Hstopped Hnd Hatt Hout Hso Hcur.
  pose (n := if wasClean e then @NComplete T else NError (UncleanClose e)).
  assert (Hn : terminal n) by (unfold n; destruct (wasClean e); exact I).
  pose (hook := if closeObserver (_config s) then [@ECloseObserver T Msg e] else []).
  (* the state in which the hub is notified *)
  assert (Hmid : exists s1,
             and_then (fun s1 => match _socket s1 with
                                 | Some cur => when (Nat.eqb cur sid) _resetState s1
                                 | None => Some s1
                                 end)
               (fun s1 => when (closeObserver (_config s1))
                               (emit (ECloseObserver e)) s1) s = Some s1 /\
             trace s1 = trace s ++ hook /\
             subscribers s1 = subscribers s /\
             subjects s1 !! ws_observer sock = Some hub /\
             output_ok s1 /\ socket_ok s1 /\ calm s1 /\
             (_socket s = Some sid -> _socket s1 = None /\ buffering s1)).
  { simpl. unfold hook.
    destruct (_socket s) as [cur|] eqn:Hsk.
    - destruct (Nat.eqb cur sid) eqn:Heq; simpl.
      + destruct (closeObserver (_config s)); simpl; eexists.
        all: split; [reflexivity|]; simpl; rewrite ?app_nil_r.
        all: repeat match goal with |- _ /\ _ => split end.
        all: try reflexivity; try exact I.
        all: try (now apply lookup_alloc_old).
        all: try (unfold output_ok; simpl; rewrite lookup_alloc; now eauto).
        all: try (intros ? [=]).
        all: try (intros ? ? ? ? ? _ _ _ _; exact I).
        all: intros _; split; [reflexivity|exact I].
      + assert (Hcalm : calm s).
        { destruct Hcur as [[= ->]|H]; [|exact H].
          rewrite Nat.eqb_refl in Heq. discriminate. }
        assert (Hne : Some cur <> Some sid).
        { intros [= ->]. rewrite Nat.eqb_refl in Heq. discriminate. }
        destruct (closeObserver (_config s)); simpl; eexists.
        all: split; [reflexivity|]; simpl; rewrite ?app_nil_r.
        all: repeat match goal with |- _ /\ _ => split end.
        all: try reflexivity; try assumption.
        all: try (unfold socket_ok; simpl; intros ? ?; apply Hso; congruence).
        all: intros; congruence.
    - assert (Hcalm : calm s) by (destruct Hcur as [[=]|H]; exact H).
      destruct (closeObserver (_config s)); simpl; eexists.
      all: split; [reflexivity|]; simpl; rewrite ?app_nil_r.
      all: repeat match goal with |- _ /\ _ => split end.
      all: try reflexivity; try assumption.
      all: try (unfold socket_ok; simpl; intros ? ?; apply Hso; congruence).
      all: intros; congruence. }
  destruct Hmid as (s1 & Hrun1 & Ht1 & Hsub1 & Hhub1 & Hout1 & Hso1 & Hcalm1 & Hidle1).
  destruct (hub_notify_terminal d s1 (ws_observer sock) hub n consumers)
    as (s2 & rest & Hrun2 & Ht2 & Hf2 & Hn2 & _ & Hst2); try assumption.
  { now apply (attached_same_subscribers s). }
  exists s2, rest.
  split.
  { unfold onclose. rewrite Hsock.
    simpl in Hrun1 |- *.
    destruct (match _socket s with
              | Some cur => when (Nat.eqb cur sid) _resetState s
              | None => Some s
              end) as [s0|]; [|discriminate].
    rewrite Hrun1. unfold n in Hrun2. destruct (wasClean e); exact Hrun2. }
  split; [rewrite Ht2, Ht1; now rewrite <- app_assoc|].
  split; [exact Hn2|]. split; [exact Hf2|].
  intros Hc. destruct (Hidle1 Hc) as [Hi Hb]. split.
  - now apply Hst2.
  - now apply Hst2.
Qed.

(** ** The error path of the open destination *)

(** C7: an error reaching the destination while it is the subscriber
    created in [onopen]: the closing observer, when configured, is
    called first; when [err && err.code] is truthy the socket is closed
    with that code and the error's reason; otherwise [close] is called
    with no code by anyone and the invalid-error-object [TypeError] is
    delivered to every consumer of the hub.  The state is reset in both
    cases. *)
Theorem C7_local_error_closes_with_code_or_reports_invalid_object :
  forall (d : nat) (s : State) (k : nat) (sink : Sink) (sock : WebSocket)
         (hub : Subject) (err : Err) (consumers : list nat),
    destination s = ToSink k ->
    sinks s !! k = Some sink ->
    sink_stopped sink = false ->
    sockets s !! sink_socket sink = Some sock ->
    subjects s !! sink_observer sink = Some hub ->
    (isStopped hub = true -> observers hub = []) ->
    NoDup (observers hub) ->
    Forall2 (attached s (sink_observer sink)) (observers hub) consumers ->
    output_ok s -> socket_ok s ->
    exists s' rest,
      error (exec (S (S (S d)))) err s = Some s' /\
      trace s' = trace s
                 ++ (if closingObserver (_config s) then [EClosingObserver] else [])
                 ++ rest /\
      match close_args err with
      | Some (code, reason) =>
          rest = [EClose (sink_socket sink) (Some code) reason]
      | None =>
          notifications rest
          = map (fun c => (c, NError invalid_error_object)) consumers /\
          (forall sid code reason, ~ List.In (EClose sid (Some code) reason) rest)
      end /\
      _socket s' = None /\
      destination s' = Replay [] Live.
Proof.
  intros d s k sink sock hub err consumers Hdest Hk Hlive Hsock Hhub Hstopped
         Hnd Hatt Hout Hso.
  destruct (sink_error_spec d s k sink sock hub err consumers)
    as (s' & rest & Hrun & Ht & Hcase & Hidle & Hbuf & _); try assumption.
  exists s', rest.
  split; [unfold error, dest_error; rewrite Hdest; exact Hrun|].
  split; [exact Ht|]. split; [|split; assumption].
  destruct (close_args err) as [[code reason]|]; [exact Hcase|].
  destruct Hcase as [Hf Hn]. split; [exact Hn|].
  intros sid code reason Hin.
  apply (proj1 (List.Forall_forall _ _) Hf) in Hin. exact Hin.
Qed.

(** C6 as the code has it: a value offered while the destination is the
    open subscriber and the socket is OPEN, on which the serializer
    throws: [next] returns (nothing is thrown to the caller) and the
    thrown value has gone down the destination's error path, which does
    end the connection: closing observer, then [close(code, reason)] when
    the thrown value has a truthy code and otherwise the
    invalid-error-object [TypeError] to the hub's consumers, then the
    reset of the state. *)
Theorem C6_encode_failure_takes_the_error_path :
  forall (d : nat) (s : State) (k : nat) (sink : Sink) (sock : WebSocket)
         (hub : Subject) (x : T) (err : Err) (consumers : list nat),
    destination s = ToSink k ->
    sinks s !! k = Some sink ->
    sink_stopped sink = false ->
    sockets s !! sink_socket sink = Some sock ->
    readyState sock = OPEN ->
    serializer (_config s) x = Throws err ->
    subjects s !! sink_observer sink = Some hub ->
    (isStopped hub = true -> observers hub = []) ->
    NoDup (observers hub) ->
    Forall2 (attached s (sink_observer sink)) (observers hub) consumers ->
    output_ok s -> socket_ok s ->
    exists s' rest,
      next (exec (S (S (S d)))) x s = Some s' /\
      trace s' = trace s
                 ++ [EOffer x]
                 ++ (if closingObserver (_config s) then [EClosingObserver] else [])
                 ++ rest /\
      match close_args err with
      | Some (code, reason) =>
          rest = [EClose (sink_socket sink) (Some code) reason]
      | None =>
          notifications rest
          = map (fun c => (c, NError invalid_error_object)) consumers /\
          Forall teardown_effect rest
      end /\
      _socket s' = None /\
      destination s' = Replay [] Live.
Proof.
  intros d s k sink sock hub x err consumers Hdest Hk Hlive Hsock Hopen Hser
         Hhub Hstopped Hnd Hatt Hout Hso.
  destruct s as [cfg sk out dst socks subjs snks subs tr].
  simpl in *. subst dst.
  pose (s1 := Build_State cfg sk out (ToSink k) socks subjs snks subs (tr ++ [EOffer x])).
  destruct (sink_error_spec d s1 k sink sock hub err consumers)
    as (s' & rest & Hrun & Ht & Hcase & Hidle & Hbuf & _);
    try assumption; try reflexivity.
  { eapply attached_same_subscribers; [|exact Hatt]. reflexivity. }
  exists s', rest.
  split.
  { unfold next, ws_next, dest_next. simpl in *.
    unfold sink_next. simpl. rewrite Hk, Hlive, Hsock.
    unfold is_open. rewrite Hopen. simpl. rewrite Hser.
    unfold dest_error. simpl. exact Hrun. }
  split; [rewrite Ht; simpl; now rewrite <- app_assoc|].
  split; [|split; assumption].
  destruct (close_args err) as [[code reason]|]; [exact Hcase|].
  destruct Hcase as [Hf Hn]. split; assumption.
Qed.


(** ** Reference counting *)

(** C3: two subscribers [a] then [b] registered with the current hub, a
    current socket.  Unsubscribing [a] alone has no effect on the socket:
    nothing is closed, the socket stays current.  Unsubscribing [b], the
    last one, then calls [close()] on the socket exactly when its
    readyState is CONNECTING or OPEN, and in every case resets the
    state. *)
Theorem C3_last_unsubscribe_closes_and_resets :
  forall (rec : Call -> Step) (s : State) (hub : Subject) (a b : nat)
         (suba subb : Subscriber) (sid : nat) (sock : WebSocket),
    subjects s !! _output s = Some hub ->
    observers hub = [a; b] ->
    a <> b ->
    subscribers s !! a = Some suba ->
    closed suba = false ->
    finalizers suba = [FRemove (_output s); FRefCount] ->
    subscribers s !! b = Some subb ->
    closed subb = false ->
    finalizers subb = [FRemove (_output s); FRefCount] ->
    _socket s = Some sid ->
    sockets s !! sid = Some sock ->
    exists s1 s2,
      subscription_unsubscribe rec a s = Some s1 /\
      trace s1 = trace s /\
      _socket s1 = Some sid /\
      sockets s1 = sockets s /\
      destination s1 = destination s /\
      _output s1 = _output s /\
      subjects s1 !! _output s = Some (with_observers [b] hub) /\
      subscription_unsubscribe rec b s1 = Some s2 /\
      (readyState sock = CONNECTING \/ readyState sock = OPEN ->
       trace s2 = trace s ++ [EClose sid None None] /\
       sockets s2 = <[sid := with_readyState CLOSING sock]> (sockets s)) /\
      (readyState sock = CLOSING \/ readyState sock = CLOSED ->
       trace s2 = trace s /\ sockets s2 = sockets s) /\
      _socket s2 = None /\
      destination s2 = Replay [] Live /\
      subjects s2 !! _output s2 = Some new_Subject.
Proof.
  intros rec s hub a b suba subb sid sock Hhub Hobs Hne Ha Hca Hfa Hb Hcb Hfb
         Hsk Hsock.
  destruct s as [cfg sk out dst socks subjs snks subs tr].
  simpl in *. subst sk.
  destruct suba as [ha sta cla fa]. destruct subb as [hb stb clb fb].
  simpl in *. subst cla fa clb fb.
  destruct hub as [obs hst herr]. simpl in *. subst obs.
  assert (Hrm : forall c l, remove_observer c (Build_Subject l hst herr)
                            = Build_Subject (List.filter (fun c' => negb (Nat.eqb c' c)) l) hst herr)
    by reflexivity.
  assert (Hab : Nat.eqb a b = false) by (apply Nat.eqb_neq; assumption).
  assert (Hba : Nat.eqb b a = false) by (apply Nat.eqb_neq; congruence).
  destruct (is_open_or_connecting sock) eqn:Hoc.
  all: eexists; eexists.
  all: split;
         [unfold subscription_unsubscribe, sub_unsubscribe; heap;
          unfold update_subscriber; heap;
          unfold run_finalizer, update_subject; heap;
          unfold remove_observer, with_observers; simpl;
          rewrite Nat.eqb_refl, Hba; simpl;
          unfold refCount_teardown; heap; reflexivity|].
  all: simpl; repeat (split; [reflexivity|]).
  all: split; [heap; reflexivity|].
  all: split;
         [unfold subscription_unsubscribe, sub_unsubscribe; heap;
          unfold update_subscriber; heap;
          unfold run_finalizer, update_subject; heap;
          unfold remove_observer, with_observers; simpl;
          rewrite Nat.eqb_refl; simpl;
          unfold refCount_teardown; heap; rewrite ?Hoc; simpl;
          unfold socket_close, update_socket; heap; rewrite ?Hoc; reflexivity|].
  all: simpl.
  all: unfold is_open_or_connecting, after_close, is_open_or_connecting in *.
  all: split; [intros [Hr|Hr]; rewrite Hr in *; simpl in *;
               try discriminate; split; reflexivity|].
  all: split; [intros [Hr|Hr]; rewrite Hr in *; simpl in *;
               try discriminate; split; rewrite ?app_nil_r; reflexivity|].
  all: repeat split; heap; reflexivity.
Qed.


(** ** Multiplex *)

(** [_subscribe] for a fresh subscriber and a live hub. *)
Lemma _subscribe_spec (rec : Call -> Step) (s : State) (c : nat) (h : Handler)
      (hub : Subject) :
  subscribers s !! c = Some (new_Subscriber h) ->
  subjects s !! _output s = Some hub ->
  isStopped hub = false ->
  thrownError hub = None ->
  (_socket s = None ->
   WebSocketCtor (_config s) (url (_config s)) (protocol_argument (_config s)) = Ok tt) ->
  _subscribe rec c s
  = Some (set_subscribers (<[c := registered (_output s) h]> (subscribers s))
            (set_subjects
               (<[_output s := with_observers (observers hub ++ [c]) hub]> (subjects s))
               (connected s))).
Proof.
  intros Hc Hhub Hlive Herr Hctor.
  unfold _subscribe, connected.
  destruct (_socket s) as [sid|] eqn:Hsk; simpl.
  - rewrite Hsk. unfold hub_subscribe. rewrite Hhub, Herr, Hlive. simpl.
    unfold update_subject. rewrite Hhub. simpl.
    unfold sub_add. simpl. rewrite Hc. simpl.
    unfold update_subscriber. simpl. rewrite Hc. heap.
    rewrite ?Hsk. reflexivity.
  - rewrite Hsk. unfold _connectSocket. rewrite (Hctor eq_refl). simpl.
    unfold hub_subscribe. simpl. rewrite Hhub, Herr, Hlive. simpl.
    unfold update_subject. simpl. rewrite Hhub. simpl.
    unfold sub_add. simpl. rewrite Hc. simpl.
    unfold update_subscriber. simpl. rewrite Hc. heap.
    reflexivity.
Qed.

(** The consumer of a channel unsubscribes. *)
Lemma unsubscribe_channel_wire (d : nat) (s : State) (o c outer : nat)
      (f : T -> Try bool) (unsubMsg : unit -> Try T) :
  subscribers s !! c = Some (registered o (HFilter outer f)) ->
  subscribers s !! outer = Some (channel_consumer unsubMsg c) ->
  (forall u, unsubMsg tt = Ok u -> sendable s u) ->
  hub_ok s o -> output_ok s -> socket_ok s ->
  exists s' added,
    subscription_unsubscribe (exec (S d)) outer s = Some s' /\
    trace s' = trace s ++ added /\
    Forall teardown_effect added /\
    notifications added = [] /\
    offers added = farewell unsubMsg /\
    closed_at s' outer /\
    settled s s' /\
    (forall u sid m,
        unsubMsg tt = Ok u -> writes_to s sid -> serializer (_config s) u = Ok m ->
        sends (trace s') = sends (trace s) ++ [(sid, m)]) /\
    ((forall sid, ~ writes_to s sid) -> sends (trace s') = sends (trace s)).
Proof.
  intros Hc Houter Hsend Hhub Hout Hsock.
  assert (Hne : outer <> c).
  { intros ->. rewrite Hc in Houter. discriminate. }
  unfold subscription_unsubscribe, sub_unsubscribe. rewrite Houter. simpl.
  unfold update_subscriber. rewrite Houter. simpl.
  match goal with
  | |- context [run_finalizer (exec (S ?d0)) ?ou (FMultiplex ?um ?cc) ?s1] =>
      pose proof (multiplex_teardown_wire d0 s1 o cc ou (HFilter ou f) false
                    (close_subscriber (channel_consumer um cc)) um) as Hx;
      simpl in Hx;
      destruct Hx as (s' & added & Hrun & Ht & Hf & Hnn & Hoo & Hsub & Hst & Hw & Hb);
      [heap; reflexivity | heap; reflexivity | reflexivity | assumption
      | exact Hsend | assumption | assumption | assumption |];
      rewrite Hrun
  end.
  exists s', added. split; [reflexivity|].
  repeat (split; [assumption|]).
  split; [eexists; rewrite Hsub; split; [heap; reflexivity|reflexivity]|].
  split; [destruct Hst; constructor; simpl in *; assumption|].
  split; [exact Hw|exact Hb].
Qed.

Lemma unsubscribe_channel_spec (d : nat) (s : State) (o c outer : nat)
      (f : T -> Try bool) (unsubMsg : unit -> Try T) :
  subscribers s !! c = Some (registered o (HFilter outer f)) ->
  subscribers s !! outer = Some (channel_consumer unsubMsg c) ->
  (forall u, unsubMsg tt = Ok u -> sendable s u) ->
  hub_ok s o -> output_ok s -> socket_ok s ->
  exists s' added,
    subscription_unsubscribe (exec (S d)) outer s = Some s' /\
    trace s' = trace s ++ added /\
    Forall teardown_effect added /\
    notifications added = [] /\
    offers added = farewell unsubMsg /\
    closed_at s' outer /\
    settled s s'.
Proof.
  intros Hc Houter Hsend Hhub Hout Hsock.
  destruct (unsubscribe_channel_wire d s o c outer f unsubMsg
              Hc Houter Hsend Hhub Hout Hsock)
    as (s' & added & H1 & H2 & H3 & H4 & H5 & H6 & H7 & _).
  exists s', added. repeat (split; [assumption|]). assumption.
Qed.


Lemma received_app (c : nat) (a b : list Effect) :
  received c (a ++ b) = received c a ++ received c b.
Proof.
  induction a as [|e a IH]; [reflexivity|].
  destruct e; simpl; rewrite ?IH; try reflexivity.
  destruct (Nat.eqb consumer c); simpl; now rewrite ?IH.
Qed.




(** A value reaching the filtered view of a channel whose predicate
    answers: the consumer receives it when the answer is true, and
    nothing else changes. *)
Lemma view_next_answers (d : nat) (s : State) (o i outer : nat)
      (f : T -> Try bool) (unsubMsg : unit -> Try T) (v : T) (b : bool) :
  subscribers s !! i = Some (registered o (HFilter outer f)) ->
  subscribers s !! outer = Some (channel_consumer unsubMsg i) ->
  f v = Ok b ->
  sub_notify (exec (S d)) i (NNext v) s
  = Some (if b then set_trace (trace s ++ [ENotify outer (NNext v)]) s else s).
Proof.
  intros Hi Ho Hf.
  unfold sub_notify at 1. rewrite Hi. simpl. rewrite Hf.
  destruct b; [|reflexivity].
  rewrite exec_S. unfold call, sub_notify. rewrite Ho. reflexivity.
Qed.


Lemma set_trace_nil (s : State) : set_trace (trace s ++ []) s = s.
Proof. destruct s. simpl. now rewrite app_nil_r. Qed.


(** Connecting leaves what can be offered as it was. *)
Lemma sendable_connected (s : State) (u : T) :
  sendable s u -> sendable (connected s) u.
Proof.
  unfold connected. destruct (_socket s); [tauto|].
  unfold sendable. simpl.
  destruct (destination s) as [buf st|k]; [tauto|].
  intros (sink & Hk & [Hst | (sock & Hsock & Hok)]); exists sink; split; auto.
  right. exists sock. split; [|exact Hok].
  apply lookup_app_l_Some. exact Hsock.
Qed.

Lemma socket_ok_connected (s : State) : socket_ok s -> socket_ok (connected s).
Proof.
  unfold connected. destruct (_socket s) eqn:Hsk; [tauto|].
  intros _ sid. simpl. intros [= <-]. rewrite lookup_alloc. eauto.
Qed.

(** C5: when the subscribe-message producer throws, the consumer of the
    channel receives that error and nothing after it: its subscriber is
    stopped and closed, so every later notification is dropped.  The
    filtered view is subscribed all the same, which creates a socket
    when there is none, and the teardown, added to a subscriber that is
    already closed, runs in the same call: the unsubscribe message is
    offered and the view is unsubscribed again. *)
Theorem C5_failed_subscribe_message_errors_the_consumer :
  forall (d : nat) (s : State) (hub : Subject)
         (subMsg unsubMsg : unit -> Try T) (messageFilter : T -> Try bool)
         (err : Err),
    subMsg tt = Throws err ->
    subjects s !! _output s = Some hub ->
    isStopped hub = false ->
    thrownError hub = None ->
    socket_ok s ->
    (_socket s = None ->
     WebSocketCtor (_config s) (url (_config s)) (protocol_argument (_config s)) = Ok tt) ->
    (forall u, unsubMsg tt = Ok u -> sendable s u) ->
    let o := length (subscribers s) in
    let i := S o in
    exists s1 added,
      multiplex_subscribe (exec (S d)) subMsg unsubMsg messageFilter s = Some s1 /\
      trace s1 = trace s ++ ENotify o (NError err) :: added /\
      notifications added = [] /\
      offers added = farewell unsubMsg /\
      (_socket s = None ->
       exists rest,
         added = ENew (length (sockets s)) (url (_config s)) (protocol_argument (_config s))
                   :: rest) /\
      closed_at s1 o /\
      closed_at s1 i /\
      (forall (rec : Call -> Step) (n : Notification),
          sub_notify rec o n s1 = Some s1 /\ sub_notify rec i n s1 = Some s1).
Proof.
  intros d s hub subMsg unsubMsg messageFilter err HS Hhub Hlive Herr Hsock
         Hctor Hsend o i.
  set (dead := close_subscriber (stop_subscriber (@new_Subscriber T HConsumer))).
  set (subs1 := <[o := dead]> (subscribers s ++ [new_Subscriber HConsumer])
                  ++ [new_Subscriber (HFilter o messageFilter)]).
  set (s2 := set_subscribers subs1
               (set_trace (trace s ++ [ENotify o (NError err)]) s)).
  assert (Hlen : length (<[o := dead]> (subscribers s ++ [new_Subscriber HConsumer]))
                 = i).
  { rewrite length_insert, length_app. simpl. unfold i, o. lia. }
  assert (Hi2 : subscribers s2 !! i = Some (new_Subscriber (HFilter o messageFilter))).
  { unfold s2, subs1. simpl. rewrite <- Hlen. apply lookup_alloc. }
  pose proof (_subscribe_spec (exec (S d)) s2 i (HFilter o messageFilter) hub
                Hi2 Hhub Hlive Herr Hctor) as Hsub.
  set (s3 := set_subscribers (<[i := registered (_output s2) (HFilter o messageFilter)]>
                                (subscribers s2))
               (set_subjects
                  (<[_output s2 := with_observers (observers hub ++ [i]) hub]>
                     (subjects s2))
                  (connected s2))) in Hsub.
  assert (Ho3 : subscribers s3 !! o = Some dead).
  { unfold s3, s2, subs1. simpl.
    rewrite list_lookup_insert_ne by (unfold i; lia).
    rewrite lookup_app_l by (rewrite Hlen; unfold i; lia).
    apply list_lookup_insert_eq. rewrite length_app. simpl. unfold o. lia. }
  assert (Hi3 : subscribers s3 !! i = Some (registered (_output s) (HFilter o messageFilter))).
  { unfold s3. simpl. apply list_lookup_insert_eq.
    unfold subs1. rewrite length_app, Hlen. simpl. lia. }
  destruct (multiplex_teardown_spec d s3 (_output s) i o (HFilter o messageFilter)
              false dead unsubMsg Hi3 Ho3 eq_refl)
    as (s4 & added & Hrun & Ht & _ & Hnn & Hoff & Hsubs4 & Hst).
  { unfold i. lia. }
  { intros u Hu. generalize (sendable_connected s2 u (Hsend u Hu)).
    unfold s3, sendable, connected. simpl. destruct (_socket s); simpl; auto. }
  { unfold hub_ok, s3. simpl. rewrite list_lookup_insert_eq; eauto.
    destruct (_socket s); simpl; eapply lookup_lt_Some; eauto. }
  { unfold output_ok, s3. simpl.
    replace (_output (connected s2)) with (_output s)
      by (unfold connected, s2; simpl; destruct (_socket s); reflexivity).
    replace (subjects (connected s2)) with (subjects s)
      by (unfold connected, s2; simpl; destruct (_socket s); reflexivity).
    rewrite list_lookup_insert_eq; eauto. eapply lookup_lt_Some; eauto. }
  { generalize (socket_ok_connected s2 Hsock). unfold socket_ok, s3. simpl. auto. }
  assert (Hrun1 : multiplex_subscribe (exec (S d)) subMsg unsubMsg messageFilter s
                  = Some s4).
  { clear Hst Hsubs4 Ht. subst s3 s2 subs1 i o. simpl in *.
    unfold multiplex_subscribe, allocate, fresh_subscriber. simpl. rewrite HS.
    unfold sub_notify at 1. simpl. rewrite lookup_alloc. simpl.
    unfold update_subscriber at 1. simpl. rewrite lookup_alloc. simpl.
    unfold sub_unsubscribe at 1. simpl.
    rewrite list_lookup_insert_eq by len.
    simpl. unfold update_subscriber at 1. simpl.
    rewrite list_lookup_insert_eq by len.
    simpl. rewrite list_insert_insert_eq.
    fold dead. rewrite Hlen.
    rewrite Hsub. unfold sub_add. simpl. rewrite Ho3. simpl. exact Hrun. }
  assert (Ho4 : subscribers s4 !! o = Some dead).
  { rewrite Hsubs4. rewrite list_lookup_insert_ne by (unfold i; lia). exact Ho3. }
  assert (Hi4 : subscribers s4 !! i
                = Some {| handler := HFilter o messageFilter; stopped := true;
                          closed := true; finalizers := [] |}).
  { rewrite Hsubs4. apply list_lookup_insert_eq. eapply lookup_lt_Some; eauto. }
  exists s4.
  exists (match _socket s with
          | Some _ => []
          | None => [ENew (length (sockets s)) (url (_config s)) (protocol_argument (_config s))]
          end ++ added).
  split; [exact Hrun1|].
  split.
  { rewrite Ht. unfold s3, s2, connected. simpl.
    destruct (_socket s); simpl; rewrite <- ?app_assoc; reflexivity. }
  split.
  { rewrite notifications_app, Hnn. destruct (_socket s); reflexivity. }
  split.
  { rewrite offers_app, Hoff. destruct (_socket s); reflexivity. }
  split.
  { intros ->. eexists. reflexivity. }
  split; [exists dead; split; [exact Ho4|reflexivity]|].
  split; [eexists; split; [exact Hi4|reflexivity]|].
  intros rec n. unfold sub_notify. rewrite Ho4, Hi4. split; reflexivity.
Qed.

(** * Further properties *)

Ltac split_run :=
  repeat match goal with
  | H : and_then _ _ _ = Some _ |- _ => unfold and_then in H
  | H : when _ _ _ = Some _ |- _ => unfold when in H
  | H : skip _ = Some _ |- _ => unfold skip in H
  | H : match ?x with _ => _ end = Some _ |- _ => destruct x eqn:?; try discriminate H
  | H : (if ?x then _ else _) _ = Some _ |- _ => destruct x eqn:?
  | H : (match ?x with _ => _ end) _ = Some _ |- _ => destruct x eqn:?; try discriminate H
  | H : Some _ = Some _ |- _ => apply (inj Some) in H; subst
  | H : None = Some _ |- _ => discriminate H
  end.

(** ** A stopped subscriber stays silent *)

Lemma quiet_refl (o : nat) (s : State) : quiet o s s.
Proof.
  intros Hm. split; [exact Hm|]. exists []. now rewrite app_nil_r.
Qed.

Lemma quiet_trans (o : nat) (s s1 s2 : State) :
  quiet o s s1 -> quiet o s1 s2 -> quiet o s s2.
Proof.
  intros H1 H2 Hm.
  destruct (H1 Hm) as (Hm1 & a1 & Ht1 & Hr1).
  destruct (H2 Hm1) as (Hm2 & a2 & Ht2 & Hr2).
  split; [exact Hm2|]. exists (a1 ++ a2).
  split; [rewrite Ht2, Ht1; now rewrite <- app_assoc|].
  rewrite received_app, Hr1, Hr2. reflexivity.
Qed.

Lemma quiet_same (o : nat) (s s' : State) :
  subscribers s' = subscribers s -> trace s' = trace s -> quiet o s s'.
Proof.
  intros Hs Ht (sub & Hl & Hst).
  split; [exists sub; rewrite Hs; auto|].
  exists []. now rewrite app_nil_r.
Qed.

Lemma quiet_emit (o : nat) (e : Effect) (s s' : State) :
  received o [e] = [] -> emit e s = Some s' -> quiet o s s'.
Proof.
  intros He Hrun (sub & Hl & Hst). unfold emit in Hrun. split_run.
  split; [exists sub; auto|]. exists [e]. auto.
Qed.

Lemma quiet_update_socket (o sid : nat) f (s s' : State) :
  update_socket sid f s = Some s' -> quiet o s s'.
Proof.
  unfold update_socket. intros H. split_run. apply quiet_same; reflexivity.
Qed.

Lemma quiet_update_subject (o h : nat) f (s s' : State) :
  update_subject h f s = Some s' -> quiet o s s'.
Proof.
  unfold update_subject. intros H. split_run. apply quiet_same; reflexivity.
Qed.

Lemma quiet_update_sink (o k : nat) f (s s' : State) :
  update_sink k f s = Some s' -> quiet o s s'.
Proof.
  unfold update_sink. intros H. split_run. apply quiet_same; reflexivity.
Qed.

Lemma quiet_update_subscriber (o c : nat) (f : Subscriber -> Subscriber)
      (s s' : State) :
  (forall sub, stopped sub = true -> stopped (f sub) = true) ->
  update_subscriber c f s = Some s' -> quiet o s s'.
Proof.
  unfold update_subscriber. intros Hf H. split_run.
  intros (sub & Hl & Hst). split; [|exists []; simpl; now rewrite app_nil_r].
  unfold muted. simpl. destruct (Nat.eq_dec c o) as [->|Hne].
  - rewrite Hl in *. split_run. eexists.
    rewrite list_lookup_insert_eq by (eapply lookup_lt_Some; eauto). eauto.
  - exists sub. rewrite list_lookup_insert_ne by exact Hne. auto.
Qed.

Lemma quiet_allocate (o : nat) h (s s' : State) :
  allocate h s = Some s' -> quiet o s s'.
Proof.
  unfold allocate. intros H. split_run.
  intros (sub & Hl & Hst). split; [|exists []; simpl; now rewrite app_nil_r].
  exists sub. simpl. split; [|exact Hst]. apply lookup_app_l_Some. exact Hl.
Qed.

Lemma quiet_resetState (o : nat) (s s' : State) :
  _resetState s = Some s' -> quiet o s s'.
Proof.
  unfold _resetState. intros H. split_run. apply quiet_same; reflexivity.
Qed.

Lemma quiet_socket_close (o sid : nat) code reason (s s' : State) :
  socket_close sid code reason s = Some s' -> quiet o s s'.
Proof.
  unfold socket_close. intros H. split_run.
  eapply quiet_trans; [eapply quiet_emit; eauto; reflexivity|].
  eapply quiet_update_socket; eauto.
Qed.
Create HintDb quiet.

#[local] Hint Extern 1 (quiet _ _ _) =>
  eapply quiet_emit; [|eassumption]; reflexivity : quiet.

#[local] Hint Resolve quiet_refl quiet_update_socket quiet_update_subject
  quiet_update_sink quiet_allocate quiet_resetState quiet_socket_close : quiet.

Ltac quiet_chain :=
  lazymatch goal with
  | |- quiet _ ?s ?s => apply quiet_refl
  | |- quiet _ ?s ?s' =>
      first [ solve [eauto with quiet]
            | match goal with
              | H : _ s = Some ?s1 |- _ =>
                  apply (quiet_trans _ s s1 s');
                  [solve [eauto with quiet] | clear H; quiet_chain]
              end ]
  end.

Lemma quiet_set_readyState (o sid : nat) r (s s' : State) :
  set_readyState sid r s = Some s' -> quiet o s s'.
Proof. apply quiet_update_socket. Qed.

Lemma quiet_for_each {A : Type} (o : nat) (f : A -> Step) (l : list A) :
  (forall a s s', f a s = Some s' -> quiet o s s') ->
  forall s s', for_each f l s = Some s' -> quiet o s s'.
Proof.
  intros Hf. induction l as [|a l IH]; intros s s' H; simpl in H.
  - split_run. apply quiet_refl.
  - split_run. eapply quiet_trans; eauto.
Qed.

Lemma quiet_and_then (o : nat) (f g : Step) (s s' : State) :
  and_then f g s = Some s' ->
  (forall s1, f s = Some s1 -> quiet o s s1) ->
  (forall s1 s2, g s1 = Some s2 -> quiet o s1 s2) ->
  quiet o s s'.
Proof.
  intros H Hf Hg. split_run. eapply quiet_trans; eauto.
Qed.

Lemma quiet_refCount_teardown (o : nat) (s s' : State) :
  refCount_teardown s = Some s' -> quiet o s s'.
Proof.
  unfold refCount_teardown. intros H. split_run; quiet_chain.
Qed.

#[local] Hint Resolve quiet_set_readyState quiet_refCount_teardown : quiet.

Section Quiet.

Variable o : nat.
Variable rec : Call -> Step.
Hypothesis Hrec : forall c s s', rec c s = Some s' -> quiet o s s'.

Lemma quiet_run_finalizer c f (s s' : State) :
  run_finalizer rec c f s = Some s' -> quiet o s s'.
Proof.
  unfold run_finalizer. intros H.
  destruct f; split_run; quiet_chain.
Qed.
Lemma quiet_sub_unsubscribe c (s s' : State) :
  sub_unsubscribe rec c s = Some s' -> quiet o s s'.
Proof.
  unfold sub_unsubscribe. intros H. split_run; [apply quiet_refl|].
  eapply quiet_trans.
  - eapply quiet_update_subscriber; [|eassumption]. reflexivity.
  - eapply quiet_for_each; [|eassumption].
    intros f sa sb. apply quiet_run_finalizer.
Qed.

Lemma quiet_sub_add c f (s s' : State) :
  sub_add rec c f s = Some s' -> quiet o s s'.
Proof.
  unfold sub_add. intros H. split_run.
  - eapply quiet_run_finalizer; eassumption.
  - eapply quiet_update_subscriber; [|eassumption]. intros sub Hs. exact Hs.
Qed.

Lemma quiet_deliver c h n (s s' : State) :
  c <> o -> deliver rec c h n s = Some s' -> quiet o s s'.
Proof.
  intros Hne H. destruct h as [|outer f]; simpl in H.
  - eapply quiet_emit; [|eassumption]. simpl.
    destruct (Nat.eqb_spec c o); [contradiction|reflexivity].
  - destruct n; split_run; quiet_chain.
Qed.

Lemma quiet_sub_notify c n (s s' : State) :
  sub_notify rec c n s = Some s' -> quiet o s s'.
Proof.
  unfold sub_notify. intros H.
  destruct (subscribers s !! c) as [sub|] eqn:Hc; [|discriminate].
  destruct (stopped sub) eqn:Hst; [split_run; apply quiet_refl|].
  intros Hm.
  assert (Hne : c <> o).
  { intros ->. destruct Hm as (sub' & Hl & Hs). congruence. }
  revert Hm. change (quiet o s s').
  destruct n; [eapply quiet_deliver; eassumption| |].
  all: split_run.
  all: eapply quiet_trans;
    [eapply quiet_update_subscriber; [|eassumption]; reflexivity|].
  all: eapply quiet_trans; [eapply quiet_deliver; eassumption|].
  all: eapply quiet_sub_unsubscribe; eassumption.
Qed.

Lemma quiet_hub_notify h n (s s' : State) :
  hub_notify rec h n s = Some s' -> quiet o s s'.
Proof.
  unfold hub_notify. intros H.
  assert (Hall : forall l s1 s2,
             for_each (fun c => sub_notify rec c n) l s1 = Some s2 -> quiet o s1 s2).
  { intros l. apply quiet_for_each. intros c sa sb. apply quiet_sub_notify. }
  destruct (subjects s !! h) as [hub|]; [|discriminate].
  destruct (isStopped hub); [split_run; apply quiet_refl|].
  destruct n; split_run; eauto.
  all: eapply quiet_trans; [eapply quiet_update_subject; eassumption|].
  all: eapply quiet_trans; [eapply Hall; eassumption|].
  all: eapply quiet_update_subject; eassumption.
Qed.
#[local] Hint Resolve quiet_sub_unsubscribe quiet_sub_add quiet_sub_notify
  quiet_hub_notify quiet_update_sink : quiet.

Lemma quiet_sink_error k err (s s' : State) :
  sink_error rec k err s = Some s' -> quiet o s s'.
Proof.
  unfold sink_error. intros H. split_run; quiet_chain.
Qed.

Lemma quiet_sink_complete k (s s' : State) :
  sink_complete k s = Some s' -> quiet o s s'.
Proof.
  unfold sink_complete. intros H. split_run; quiet_chain.
Qed.

#[local] Hint Resolve quiet_sink_error quiet_sink_complete : quiet.

Lemma quiet_dest_error err (s s' : State) :
  dest_error rec err s = Some s' -> quiet o s s'.
Proof.
  unfold dest_error. intros H. split_run; try quiet_chain.
  all: apply quiet_same; reflexivity.
Qed.

Lemma quiet_dest_complete (s s' : State) :
  dest_complete s = Some s' -> quiet o s s'.
Proof.
  unfold dest_complete. intros H. split_run; try quiet_chain.
  all: apply quiet_same; reflexivity.
Qed.

#[local] Hint Resolve quiet_dest_error quiet_dest_complete : quiet.

Lemma quiet_sink_next k x (s s' : State) :
  sink_next rec k x s = Some s' -> quiet o s s'.
Proof.
  unfold sink_next, socket_send. intros H. split_run; quiet_chain.
Qed.

#[local] Hint Resolve quiet_sink_next : quiet.

Lemma quiet_dest_next x (s s' : State) :
  dest_next rec x s = Some s' -> quiet o s s'.
Proof.
  unfold dest_next. intros H. split_run; try quiet_chain.
  all: apply quiet_same; reflexivity.
Qed.

#[local] Hint Resolve quiet_dest_next : quiet.

Lemma quiet_ws_next x (s s' : State) :
  ws_next rec x s = Some s' -> quiet o s s'.
Proof.
  unfold ws_next. intros H. split_run; quiet_chain.
Qed.

Lemma quiet_call c (s s' : State) :
  call rec c s = Some s' -> quiet o s s'.
Proof.
  destruct c; simpl; eauto using quiet_ws_next with quiet.
Qed.

Lemma quiet_connectSocket (s s' : State) :
  _connectSocket rec s = Some s' -> quiet o s s'.
Proof.
  unfold _connectSocket. intros H. split_run; [|quiet_chain].
  unfold emit in H. split_run.
  intros (sub & Hl & Hst). split; [exists sub; auto|].
  eexists. split; [reflexivity|reflexivity].
Qed.

Lemma quiet_hub_subscribe h c (s s' : State) :
  hub_subscribe rec h c s = Some s' -> quiet o s s'.
Proof.
  unfold hub_subscribe. intros H. split_run; quiet_chain.
Qed.

#[local] Hint Resolve quiet_connectSocket quiet_hub_subscribe : quiet.

Lemma quiet_subscribe_to (c : nat) (s s' : State) :
  _subscribe rec c s = Some s' -> quiet o s s'.
Proof.
  unfold _subscribe. intros H. split_run; quiet_chain.
Qed.

#[local] Hint Resolve quiet_subscribe_to : quiet.

Lemma quiet_subscribe (s s' : State) :
  subscribe rec s = Some s' -> quiet o s s'.
Proof.
  unfold subscribe. intros H. split_run; quiet_chain.
Qed.

Lemma quiet_multiplex_subscribe subMsg unsubMsg messageFilter (s s' : State) :
  multiplex_subscribe rec subMsg unsubMsg messageFilter s = Some s' ->
  quiet o s s'.
Proof.
  unfold multiplex_subscribe. intros H. cbv zeta in H.
  eapply quiet_and_then; [exact H| |]; clear H.
  { intros s1. apply quiet_allocate. }
  intros s1 s2 H.
  eapply quiet_and_then; [exact H| |]; clear H.
  { intros s3 H. destruct (subMsg tt); eauto using quiet_ws_next with quiet. }
  intros s3 s4 H. cbv beta zeta in H. split_run; quiet_chain.
Qed.

Lemma quiet_onopen sid evt (s s' : State) :
  onopen rec sid evt s = Some s' -> quiet o s s'.
Proof.
  unfold onopen. intros H.
  assert (Hall : forall k l s1 s2,
             for_each (sink_next rec k) l s1 = Some s2 -> quiet o s1 s2).
  { intros k l. apply quiet_for_each. intros x sa sb. apply quiet_sink_next. }
  destruct (sockets s !! sid) as [sock|]; [|discriminate].
  destruct (_socket s) as [cur|]; [|split_run; quiet_chain].
  eapply quiet_and_then; [exact H| |]; clear H.
  { intros s1 H. split_run; quiet_chain. }
  intros s1 s2 H.
  eapply quiet_and_then; [exact H| |]; clear H.
  { intros s3 H. cbv beta in H. split_run. apply quiet_same; reflexivity. }
  intros s3 s4 H.
  destruct (destination s) as [buf status|k]; [|split_run; apply quiet_refl].
  eapply quiet_and_then; [exact H| |]; clear H.
  { intros s5. apply Hall. }
  intros s5 s6 H. destruct status; split_run; quiet_chain.
Qed.

Lemma quiet_onerror sid evt (s s' : State) :
  onerror rec sid evt s = Some s' -> quiet o s s'.
Proof.
  unfold onerror. intros H. split_run; quiet_chain.
Qed.

Lemma quiet_onclose sid e (s s' : State) :
  onclose rec sid e s = Some s' -> quiet o s s'.
Proof.
  unfold onclose. intros H.
  destruct (sockets s !! sid) as [sock|]; [|discriminate].
  eapply quiet_and_then; [exact H| |]; clear H.
  { intros s1 H. cbv beta in H. split_run; quiet_chain. }
  intros s1 s2 H.
  eapply quiet_and_then; [exact H| |]; clear H.
  { intros s3 H. cbv beta in H. split_run; quiet_chain. }
  intros s3 s4 H. destruct (wasClean e); quiet_chain.
Qed.

Lemma quiet_onmessage sid e (s s' : State) :
  onmessage rec sid e s = Some s' -> quiet o s s'.
Proof.
  unfold onmessage. intros H. split_run; quiet_chain.
Qed.

Lemma quiet_unsubscribe (s s' : State) :
  unsubscribe s = Some s' -> quiet o s s'.
Proof.
  unfold unsubscribe. intros H. split_run; quiet_chain.
Qed.

Lemma quiet_perform (a : Action) (s s' : State) :
  perform rec a s = Some s' -> quiet o s s'.
Proof.
  destruct a; simpl; intros H.
  - eapply quiet_ws_next; eauto.
  - eapply quiet_dest_error; eauto.
  - eapply quiet_dest_complete; eauto.
  - eapply quiet_subscribe; eauto.
  - eapply quiet_multiplex_subscribe; eauto.
  - eapply quiet_sub_unsubscribe; eauto.
  - eapply quiet_unsubscribe; eauto.
  - eapply quiet_set_readyState; eauto.
  - eapply quiet_onopen; eauto.
  - eapply quiet_onerror; eauto.
  - eapply quiet_onclose; eauto.
  - eapply quiet_onmessage; eauto.
Qed.

End Quiet.

(** Whatever the nesting budget, a call that returns leaves every stopped
    subscriber silent. *)
Lemma quiet_exec (o d : nat) :
  forall (c : Call) (s s' : State), exec d c s = Some s' -> quiet o s s'.
Proof.
  induction d as [|d IH]; intros c s s' H; [discriminate|].
  rewrite exec_S in H. eapply quiet_call; eauto.
Qed.

(** X12: once a subscriber is stopped, no sequence of calls and socket events
    makes its application observer receive anything. *)
Theorem stopped_subscriber_receives_nothing (o d : nat) (l : list Action)
      (s s' : State) :
  muted s o ->
  for_each (perform (exec d)) l s = Some s' ->
  muted s' o /\ received o (trace s') = received o (trace s).
Proof.
  intros Hm H.
  assert (Hq : quiet o s s').
  { revert H. apply quiet_for_each. intros a sa sb.
    apply quiet_perform. apply quiet_exec. }
  destruct (Hq Hm) as (Hm' & added & Ht & Hr).
  split; [exact Hm'|]. rewrite Ht, received_app, Hr. apply app_nil_r.
Qed.

(** ** Without a socket *)

Lemma offline_refl (s : State) : offline s s.
Proof.
  intros Hi. split; [exact Hi|]. exists []. split; [now rewrite app_nil_r|constructor].
Qed.

Lemma offline_trans (s s1 s2 : State) :
  offline s s1 -> offline s1 s2 -> offline s s2.
Proof.
  intros H1 H2 Hi.
  destruct (H1 Hi) as (Hi1 & a1 & Ht1 & Hf1).
  destruct (H2 Hi1) as (Hi2 & a2 & Ht2 & Hf2).
  split; [exact Hi2|]. exists (a1 ++ a2).
  split; [rewrite Ht2, Ht1; now rewrite <- app_assoc|].
  apply Forall_app. auto.
Qed.

Lemma offline_keep (s s' : State) :
  _socket s' = _socket s -> destination s' = destination s ->
  trace s' = trace s -> offline s s'.
Proof.
  intros Hs Hd Ht [Hi Hb].
  split; [split; [congruence|unfold buffering in *; now rewrite Hd]|].
  exists []. split; [now rewrite app_nil_r|constructor].
Qed.

Lemma offline_emit (e : Effect) (s s' : State) :
  offline_effect e -> emit e s = Some s' -> offline s s'.
Proof.
  intros He H Hi. unfold emit in H. split_run.
  split; [exact Hi|]. exists [e]. split; [reflexivity|]. constructor; auto.
Qed.

Lemma offline_update_subject (h : nat) f (s s' : State) :
  update_subject h f s = Some s' -> offline s s'.
Proof.
  unfold update_subject. intros H. split_run. apply offline_keep; reflexivity.
Qed.

Lemma offline_update_subscriber (c : nat) f (s s' : State) :
  update_subscriber c f s = Some s' -> offline s s'.
Proof.
  unfold update_subscriber. intros H. split_run. apply offline_keep; reflexivity.
Qed.

Lemma offline_resetState (s s' : State) :
  _resetState s = Some s' -> offline s s'.
Proof.
  unfold _resetState. intros H. split_run. intros _.
  split; [split; [reflexivity|exact I]|].
  exists []. split; [simpl; now rewrite app_nil_r|constructor].
Qed.

Lemma offline_refCount_teardown (s s' : State) :
  refCount_teardown s = Some s' -> offline s s'.
Proof.
  unfold refCount_teardown. intros H Hi. revert H.
  destruct Hi as [Hs Hb]. rewrite Hs. intros H.
  split_run; [eapply offline_resetState|apply offline_refl]; eauto; split; auto.
Qed.

Lemma offline_for_each {A : Type} (f : A -> Step) (l : list A) :
  (forall a s s', f a s = Some s' -> offline s s') ->
  forall s s', for_each f l s = Some s' -> offline s s'.
Proof.
  intros Hf. induction l as [|a l IH]; intros s s' H; simpl in H.
  - split_run. apply offline_refl.
  - split_run. eapply offline_trans; eauto.
Qed.

Lemma offline_dest_complete (s s' : State) :
  dest_complete s = Some s' -> offline s s'.
Proof.
  unfold dest_complete. intros H [Hs Hb]. revert H. unfold buffering in Hb.
  destruct (destination s) as [buf st|k] eqn:Hd; [|contradiction].
  intros H.
  assert (Hk : _socket s' = None /\ buffering s' /\ trace s' = trace s).
  { destruct st; split_run; unfold buffering; simpl; rewrite ?Hd; auto. }
  destruct Hk as (H1 & H2 & H3).
  split; [split; assumption|]. exists []. rewrite H3, app_nil_r. auto.
Qed.

Create HintDb offline.

#[local] Hint Resolve offline_refl offline_update_subject offline_update_subscriber
  offline_resetState offline_refCount_teardown offline_dest_complete : offline.

#[local] Hint Extern 1 (offline _ _) =>
  eapply offline_emit; [|eassumption]; exact I : offline.

Ltac offline_chain :=
  lazymatch goal with
  | |- offline ?s ?s => apply offline_refl
  | |- offline ?s ?s' =>
      first [ solve [eauto with offline]
            | match goal with
              | H : _ s = Some ?s1 |- _ =>
                  apply (offline_trans s s1 s');
                  [solve [eauto with offline] | clear H; offline_chain]
              end ]
  end.

Section Offline.

Variable rec : Call -> Step.
Hypothesis Hrec : forall c s s', rec c s = Some s' -> offline s s'.

Lemma offline_dest_error err (s s' : State) :
  dest_error rec err s = Some s' -> offline s s'.
Proof.
  unfold dest_error. intros H [Hs Hb]. revert H. unfold buffering in Hb.
  destruct (destination s) as [buf st|k] eqn:Hd; [|contradiction].
  intros H.
  assert (Hk : _socket s' = None /\ buffering s' /\ trace s' = trace s).
  { destruct st; split_run; unfold buffering; simpl; rewrite ?Hd; auto. }
  destruct Hk as (H1 & H2 & H3).
  split; [split; assumption|]. exists []. rewrite H3, app_nil_r. auto.
Qed.

Lemma offline_dest_next x (s s' : State) :
  dest_next rec x s = Some s' -> offline s s'.
Proof.
  unfold dest_next. intros H [Hs Hb]. revert H. unfold buffering in Hb.
  destruct (destination s) as [buf st|k] eqn:Hd; [|contradiction].
  intros H.
  assert (Hk : _socket s' = None /\ buffering s' /\ trace s' = trace s).
  { destruct st; split_run; unfold buffering; simpl; rewrite ?Hd; auto. }
  destruct Hk as (H1 & H2 & H3).
  split; [split; assumption|]. exists []. rewrite H3, app_nil_r. auto.
Qed.

#[local] Hint Resolve offline_dest_error offline_dest_next : offline.

Lemma offline_ws_next x (s s' : State) :
  ws_next rec x s = Some s' -> offline s s'.
Proof.
  unfold ws_next. intros H. split_run; offline_chain.
Qed.

Lemma offline_run_finalizer c f (s s' : State) :
  run_finalizer rec c f s = Some s' -> offline s s'.
Proof.
  unfold run_finalizer. intros H. destruct f; split_run; offline_chain.
Qed.

Lemma offline_sub_unsubscribe c (s s' : State) :
  sub_unsubscribe rec c s = Some s' -> offline s s'.
Proof.
  unfold sub_unsubscribe. intros H. split_run; [apply offline_refl|].
  eapply offline_trans; [eapply offline_update_subscriber; eassumption|].
  eapply offline_for_each; [|eassumption].
  intros f sa sb. apply offline_run_finalizer.
Qed.

Lemma offline_deliver c h n (s s' : State) :
  deliver rec c h n s = Some s' -> offline s s'.
Proof.
  intros H. destruct h as [|outer f]; simpl in H.
  - apply (offline_emit (ENotify c n)); [exact I|exact H].
  - destruct n; split_run; offline_chain.
Qed.

#[local] Hint Resolve offline_sub_unsubscribe offline_deliver : offline.

Lemma offline_sub_notify c n (s s' : State) :
  sub_notify rec c n s = Some s' -> offline s s'.
Proof.
  unfold sub_notify. intros H. destruct n; split_run; offline_chain.
Qed.

Lemma offline_hub_notify h n (s s' : State) :
  hub_notify rec h n s = Some s' -> offline s s'.
Proof.
  unfold hub_notify. intros H.
  assert (Hall : forall l s1 s2,
             for_each (fun c => sub_notify rec c n) l s1 = Some s2 -> offline s1 s2).
  { intros l. apply offline_for_each. intros c sa sb. apply offline_sub_notify. }
  destruct (subjects s !! h) as [hub|]; [|discriminate].
  destruct (isStopped hub); [split_run; apply offline_refl|].
  destruct n; split_run; eauto.
  all: eapply offline_trans; [eapply offline_update_subject; eassumption|].
  all: eapply offline_trans; [eapply Hall; eassumption|].
  all: eapply offline_update_subject; eassumption.
Qed.

Lemma offline_call c (s s' : State) :
  call rec c s = Some s' -> offline s s'.
Proof.
  destruct c; simpl;
    eauto using offline_ws_next, offline_sub_notify, offline_hub_notify with offline.
Qed.

End Offline.

Lemma offline_exec (d : nat) :
  forall (c : Call) (s s' : State), exec d c s = Some s' -> offline s s'.
Proof.
  induction d as [|d IH]; intros c s s' H; [discriminate|].
  rewrite exec_S in H. eapply offline_call; eauto.
Qed.
Lemma offline_closes (l : list Effect) :
  Forall offline_effect l -> closes l = [] /\ Forall teardown_effect l.
Proof.
  induction 1 as [|e l He _ [IH1 IH2]]; [split; [reflexivity|constructor]|].
  destruct e; try destruct He; simpl; (split; [exact IH1|constructor; [exact I|exact IH2]]).
Qed.

(** X1: [socket.onerror] (lines 337-340): the state is reset first, then every
    consumer of the hub the socket was connected for receives the event
    as an error.  Nothing is sent and [close] is not called: the handler
    leaves the socket to the transport. *)
Theorem onerror_resets_and_errors_every_consumer :
  forall (d : nat) (s : State) (sid : nat) (sock : WebSocket) (hub : Subject)
         (evt : Event) (consumers : list nat),
    sockets s !! sid = Some sock ->
    subjects s !! ws_observer sock = Some hub ->
    (isStopped hub = true -> observers hub = []) ->
    NoDup (observers hub) ->
    Forall2 (attached s (ws_observer sock)) (observers hub) consumers ->
    exists s' rest,
      onerror (exec (S (S d))) sid evt s = Some s' /\
      trace s' = trace s ++ rest /\
      notifications rest
      = map (fun c => (c, NError (TransportError evt))) consumers /\
      Forall offline_effect rest /\
      closes rest = [] /\
      idle s'.
Proof.
  intros d s sid sock hub evt consumers Hsock Hhub Hstopped Hnd Hatt.
  unfold onerror. rewrite Hsock. simpl.
  set (s0 := set_subjects (subjects s ++ [new_Subject])
               (set_output (length (subjects s))
                  (set_destination (Replay [] Live) (set_socket None s)))).
  assert (Hidle : idle s0) by (split; [reflexivity|exact I]).
  destruct (hub_notify_terminal d s0 (ws_observer sock) hub
              (NError (TransportError evt)) consumers)
    as (s' & rest & Hrun & Ht & _ & Hnn & _ & Hst); try assumption.
  - exact I.
  - unfold s0. simpl. apply lookup_app_l_Some. exact Hhub.
  - eapply attached_same_subscribers; [|exact Hatt]. reflexivity.
  - unfold output_ok, s0. simpl. rewrite lookup_alloc. eauto.
  - intros sid' [=].
  - intros outer i sub unsubMsg u _ _ _ _. unfold sendable, s0. simpl. exact I.
  - destruct (offline_hub_notify (exec (S (S d))) (offline_exec (S (S d)))
                (ws_observer sock) (NError (TransportError evt)) s0 s' Hrun Hidle)
      as (Hidle' & rest' & Ht' & Hoff).
    assert (rest' = rest) as ->.
    { rewrite Ht in Ht'. now apply app_inv_head in Ht'. }
    exists s', rest. split; [exact Hrun|]. split; [exact Ht|].
    split; [exact Hnn|]. split; [exact Hoff|].
    split; [apply offline_closes; exact Hoff|]. exact Hidle'.
Qed.

(** ** A hub of application observers is stopped *)

Lemma filter_drop_head (c : nat) (rest : list nat) :
  c ∉ rest ->
  List.filter (fun c' => negb (Nat.eqb c' c)) (c :: rest) = rest.
Proof.
  intros Hc. simpl. rewrite Nat.eqb_refl. simpl.
  induction rest as [|a rest IH]; [reflexivity|].
  simpl. destruct (Nat.eqb_spec a c) as [->|Hne].
  - exfalso. apply Hc. left.
  - simpl. f_equal. apply IH. intros Hin. apply Hc. now right.
Qed.

(** An error or completion handed in turn to the application observers
    [obs], which are the observers left on the current hub: each receives
    it and unsubscribes; the last one to leave finds the hub empty, calls
    [close()] on a socket that is connecting or open, and resets the
    state. *)
Lemma drain_plain (rec : Call -> Step) (n : Notification) (sid : nat)
      (sock : WebSocket) (obs : list nat) :
  terminal n ->
  obs <> [] -> NoDup obs ->
  forall (s : State) (hub : Subject),
    _socket s = Some sid ->
    sockets s !! sid = Some sock ->
    subjects s !! _output s = Some hub ->
    observers hub = obs ->
    Forall (fun c => subscribers s !! c = Some (registered (_output s) HConsumer)) obs ->
    exists s',
      for_each (fun c => sub_notify rec c n) obs s = Some s' /\
      trace s' = trace s ++ map (fun c => ENotify c n) obs
                 ++ (if is_open_or_connecting sock
                     then [EClose sid None None] else []) /\
      idle s' /\
      _config s' = _config s /\
      sockets s' = <[sid := after_close sock]> (sockets s) /\
      subjects s' = <[_output s := with_observers [] hub]> (subjects s) ++ [new_Subject] /\
      (forall j, j ∉ obs -> subscribers s' !! j = subscribers s !! j) /\
      Forall (closed_at s') obs.
Proof.
  intros Hn Hne Hnd. induction obs as [|c rest IH]; [contradiction|].
  intros s hub Hsk Hsock Hhub Hobs Hreg.
  inversion Hnd as [|? ? Hnotin Hnd']; subst.
  inversion Hreg as [|? ? Hc Hreg']; subst.
  destruct s as [cfg sk out dst socks subjs snks subs tr]. simpl in *. subst sk.
  destruct hub as [hobs hst herr]. simpl in *. subst hobs.
  assert (Hrun : sub_notify rec c n
                   (Build_State cfg (Some sid) out dst socks subjs snks subs tr)
                 = refCount_teardown
                     (Build_State cfg (Some sid) out dst socks
                        (<[out := Build_Subject rest hst herr]> subjs) snks
                        (<[c := close_subscriber (registered out HConsumer)]> subs)
                        (tr ++ [ENotify c n]))).
  { unfold sub_notify. simpl. rewrite Hc. simpl.
    destruct n as [x|err|]; [destruct Hn| |].
    all: unfold update_subscriber at 1; simpl; rewrite Hc; simpl.
    all: unfold sub_unsubscribe; simpl.
    all: rewrite list_lookup_insert_eq by (eapply lookup_lt_Some; eauto); simpl.
    all: unfold update_subscriber at 1; simpl.
    all: rewrite list_lookup_insert_eq by (eapply lookup_lt_Some; eauto); simpl.
    all: rewrite list_insert_insert_eq.
    all: unfold run_finalizer at 1, update_subject; simpl; rewrite Hhub; simpl.
    all: unfold remove_observer, with_observers; simpl observers;
         rewrite (filter_drop_head c rest Hnotin); simpl.
    all: unfold run_finalizer; destruct (refCount_teardown _); reflexivity. }
  simpl for_each. unfold and_then. rewrite Hrun. clear Hrun.
  assert (Hlen : c < length subs) by (eapply lookup_lt_Some; eauto).
  assert (Hout : out < length subjs) by (eapply lookup_lt_Some; eauto).
  destruct rest as [|c' rest'].
  - (* the last observer *)
    unfold refCount_teardown. simpl.
    rewrite list_lookup_insert_eq by exact Hout. simpl.
    rewrite Hsock. unfold socket_close, update_socket, _resetState, after_close.
    destruct (is_open_or_connecting sock) eqn:Hoc; simpl.
    + rewrite Hsock. simpl. eexists. split; [reflexivity|]. simpl.
      rewrite <- app_assoc. split; [reflexivity|].
      split; [split; [reflexivity|exact I]|]. split; [reflexivity|].
      split; [rewrite ?Hoc; reflexivity|]. rewrite length_insert. split; [reflexivity|].
      split.
      * intros j Hj. apply list_lookup_insert_ne. intros ->. apply Hj. left.
      * constructor; [|constructor]. eexists. simpl.
        rewrite list_lookup_insert_eq by exact Hlen. split; reflexivity.
    + eexists. split; [reflexivity|]. simpl.
      split; [reflexivity|].
      split; [split; [reflexivity|exact I]|]. split; [reflexivity|].
      split; [symmetry; apply list_insert_id; exact Hsock|].
      rewrite length_insert. split; [reflexivity|].
      split.
      * intros j Hj. apply list_lookup_insert_ne. intros ->. apply Hj. left.
      * constructor; [|constructor]. eexists. simpl.
        rewrite list_lookup_insert_eq by exact Hlen. split; reflexivity.
  - (* others are left on the hub *)
    unfold refCount_teardown at 1. simpl.
    rewrite list_lookup_insert_eq by exact Hout. simpl.
    destruct (IH ltac:(discriminate) Hnd'
                (Build_State cfg (Some sid) out dst socks
                   (<[out := Build_Subject (c' :: rest') hst herr]> subjs) snks
                   (<[c := close_subscriber (registered out HConsumer)]> subs)
                   (tr ++ [ENotify c n]))
                (Build_Subject (c' :: rest') hst herr))
      as (s' & Hrun & Ht & Hidle & Hcfg & Hsocks & Hsubj & Hframe & Hclosed);
      simpl; try reflexivity; try assumption.
    + apply list_lookup_insert_eq. exact Hout.
    + apply Forall_forall. intros j Hj.
      rewrite list_lookup_insert_ne by (intros ->; contradiction).
      exact (proj1 (Forall_forall _ _) Hreg' j Hj).
    + simpl in *. exists s'. split; [exact Hrun|].
      split; [rewrite Ht, <- app_assoc; reflexivity|].
      split; [exact Hidle|]. split; [exact Hcfg|]. split; [exact Hsocks|].
      split; [rewrite Hsubj, list_insert_insert_eq; reflexivity|].
      split.
      * intros j Hj. rewrite Hframe.
        -- apply list_lookup_insert_ne. intros ->. apply Hj. left.
        -- intros Hin. apply Hj. now right.
      * constructor; [|exact Hclosed]. eexists. rewrite Hframe by exact Hnotin.
        rewrite list_lookup_insert_eq by exact Hlen. split; reflexivity.
Qed.
(** X2: [socket.onmessage] (lines 357-364) when the deserializer throws, the
    hub's subscribers being application observers: each receives the
    thrown value as an error, in registration order; the last one to
    unsubscribe calls [close()] on the socket when it is connecting or
    open, and the state is reset.  The hub is left stopped, so a later
    message of that socket is delivered to nobody. *)
Theorem decode_failure_errors_consumers_and_closes :
  forall (rec : Call -> Step) (s : State) (sid : nat) (sock : WebSocket)
         (hub : Subject) (e : MessageEvent) (err : Err),
    sockets s !! sid = Some sock ->
    _socket s = Some sid ->
    _output s = ws_observer sock ->
    subjects s !! _output s = Some hub ->
    isStopped hub = false ->
    observers hub <> [] ->
    NoDup (observers hub) ->
    Forall (fun c => subscribers s !! c = Some (registered (_output s) HConsumer))
           (observers hub) ->
    deserializer (_config s) e = Throws err ->
    exists s',
      onmessage rec sid e s = Some s' /\
      trace s' = trace s ++ map (fun c => ENotify c (NError err)) (observers hub)
                 ++ (if is_open_or_connecting sock
                     then [EClose sid None None] else []) /\
      idle s' /\
      Forall (closed_at s') (observers hub) /\
      forall e2 : MessageEvent, onmessage rec sid e2 s' = Some s'.
Proof.
  intros rec s sid sock hub e err Hsock Hsk Hout Hhub Hlive Hne Hnd Hreg Hdes.
  unfold onmessage. rewrite Hsock, Hdes. unfold hub_notify.
  rewrite <- Hout, Hhub, Hlive. simpl.
  unfold update_subject at 1. rewrite Hhub. simpl.
  assert (Hlen : _output s < length (subjects s)) by (eapply lookup_lt_Some; eauto).
  destruct (drain_plain rec (NError err) sid sock (observers hub) I Hne Hnd
              (set_subjects (<[_output s := stop_subject (Some err) hub]> (subjects s)) s)
              (stop_subject (Some err) hub))
    as (s1 & Hrun & Ht & Hidle & Hcfg & Hsocks & Hsubj & _ & Hclosed);
    simpl; try assumption; try reflexivity.
  { apply list_lookup_insert_eq. exact Hlen. }
  simpl in Hrun. rewrite Hrun. simpl in *.
  assert (Hold : subjects s1 !! _output s
                 = Some (with_observers [] (stop_subject (Some err) hub))).
  { rewrite Hsubj, list_insert_insert_eq. apply lookup_app_l_Some.
    apply list_lookup_insert_eq. exact Hlen. }
  unfold update_subject. rewrite Hold. simpl.
  match goal with |- exists s', Some ?x = Some s' /\ _ => set (s2 := x) end.
  assert (Hhub2 : subjects s2 !! _output s
                  = Some (with_observers [] (with_observers []
                                               (stop_subject (Some err) hub)))).
  { unfold s2. simpl. apply list_lookup_insert_eq. eapply lookup_lt_Some; eauto. }
  assert (Hsock2 : sockets s2 !! sid = Some (after_close sock)).
  { unfold s2. simpl. rewrite Hsocks. apply list_lookup_insert_eq.
    eapply lookup_lt_Some; eauto. }
  assert (Hobs : ws_observer (after_close sock) = _output s).
  { unfold after_close. destruct (is_open_or_connecting sock); simpl; congruence. }
  exists s2. split; [reflexivity|].
  split; [exact Ht|]. split; [exact Hidle|]. split; [exact Hclosed|].
  intros e2. rewrite Hsock2, Hobs.
  destruct (deserializer (_config s2) e2); unfold hub_notify; rewrite Hhub2; reflexivity.
Qed.
(** ** A decoded message *)

Lemma selects_same_subscribers (s s' : State) (o : nat) (v : T) (c : nat)
      (out : list Effect) :
  subscribers s' = subscribers s -> selects s o v c out -> selects s' o v c out.
Proof.
  intros Heq [Hc | outer f unsubMsg b Hc Houter Hf].
  - apply selects_plain. rewrite Heq. exact Hc.
  - eapply selects_channel; eauto; rewrite Heq; eauto.
Qed.

Lemma fan_out (d : nat) (o : nat) (v : T) (obs : list nat) (outs : list (list Effect)) :
  forall s : State,
    Forall2 (selects s o v) obs outs ->
    for_each (fun c => sub_notify (exec (S d)) c (NNext v)) obs s
    = Some (set_trace (trace s ++ concat outs) s).
Proof.
  revert outs. induction obs as [|c obs IH]; intros outs s H.
  - inversion H; subst. simpl. f_equal. symmetry. apply set_trace_nil.
  - inversion H as [|? out ? outs' Hc Hrest]; subst. simpl for_each.
    assert (Hstep : sub_notify (exec (S d)) c (NNext v) s
                    = Some (set_trace (trace s ++ out) s)).
    { destruct Hc as [Hc | outer f unsubMsg b Hc Houter Hf].
      - unfold sub_notify. rewrite Hc. reflexivity.
      - rewrite (view_next_answers d s o c outer f unsubMsg v b Hc Houter Hf).
        destruct b; [reflexivity|]. f_equal. symmetry. apply set_trace_nil. }
    unfold and_then. rewrite Hstep.
    rewrite (IH outs' (set_trace (trace s ++ out) s)).
    + simpl. now rewrite <- app_assoc.
    + eapply Forall2_impl; [exact Hrest|]. intros c' out' Hc'.
      eapply selects_same_subscribers; [|exact Hc']. reflexivity.
Qed.

(** X3: [socket.onmessage] (lines 357-364) when the deserializer returns [v]
    and every predicate answers: the value goes to the hub's subscribers
    in registration order; application observers receive it, the
    consumer of a multiplex channel receives it exactly when the
    channel's predicate holds for it (lines 238-246).  Nothing else
    changes. *)
Theorem decoded_message_reaches_selected_consumers :
  forall (d : nat) (s : State) (sid : nat) (sock : WebSocket) (hub : Subject)
         (e : MessageEvent) (v : T) (outs : list (list Effect)),
    sockets s !! sid = Some sock ->
    subjects s !! ws_observer sock = Some hub ->
    isStopped hub = false ->
    deserializer (_config s) e = Ok v ->
    Forall2 (selects s (ws_observer sock) v) (observers hub) outs ->
    onmessage (exec (S d)) sid e s = Some (set_trace (trace s ++ concat outs) s).
Proof.
  intros d s sid sock hub e v outs Hsock Hhub Hlive Hdes Hsel.
  unfold onmessage. rewrite Hsock, Hdes. unfold hub_notify. rewrite Hhub, Hlive.
  apply (fan_out d (ws_observer sock)). exact Hsel.
Qed.

(** X4: while no socket is current, whatever the application does short of
    subscribing ([next], [error], [complete], unsubscribing a consumer)
    creates no socket, sends nothing, closes nothing and calls no
    lifecycle observer; the subject stays idle. *)
Theorem idle_calls_touch_no_socket :
  forall (d : nat) (l : list Action) (s s' : State),
    idle s ->
    forallb local_call l = true ->
    for_each (perform (exec d)) l s = Some s' ->
    idle s' /\
    exists added, trace s' = trace s ++ added /\ Forall offline_effect added.
Proof.
  intros d l s s' Hidle Hl Hrun.
  assert (Hq : offline s s').
  { revert s Hl Hrun Hidle. induction l as [|a l IH]; intros s Hl Hrun Hidle.
    - simpl in Hrun. injection Hrun as <-. apply offline_refl.
    - simpl in Hl. apply andb_prop in Hl. destruct Hl as [Ha Hl].
      simpl in Hrun. unfold and_then in Hrun.
      destruct (perform (exec d) a s) as [s1|] eqn:H1; [|discriminate].
      assert (Hstep : offline s s1).
      { destruct a; try discriminate Ha; simpl in H1.
        - eapply offline_ws_next; exact H1.
        - eapply offline_dest_error; exact H1.
        - eapply offline_dest_complete; exact H1.
        - eapply offline_sub_unsubscribe; [apply offline_exec|exact H1]. }
      eapply offline_trans; [exact Hstep|].
      apply IH; [exact Hl|exact Hrun|]. apply Hstep, Hidle. }
  exact (Hq Hidle).
Qed.
(** ** Subscribing *)

(** One more application observer on a subject that has a socket. *)
Lemma subscribe_connected (rec : Call -> Step) (s : State) (hub : Subject)
      (sid : nat) :
  _socket s = Some sid ->
  subjects s !! _output s = Some hub ->
  isStopped hub = false ->
  thrownError hub = None ->
  subscribe rec s
  = Some (set_subscribers (subscribers s ++ [registered (_output s) HConsumer])
            (set_subjects
               (<[_output s := with_observers (observers hub ++ [length (subscribers s)])
                                 hub]> (subjects s)) s)).
Proof.
  intros Hsk Hhub Hlive Herr.
  pose proof (_subscribe_spec rec
                (set_subscribers (subscribers s ++ [new_Subscriber HConsumer]) s)
                (length (subscribers s)) HConsumer hub) as Hsub.
  simpl in Hsub.
  specialize (Hsub (lookup_alloc _ _) Hhub Hlive Herr ltac:(congruence)).
  unfold subscribe, allocate, fresh_subscriber. simpl. rewrite Hsub.
  unfold connected. simpl. rewrite Hsk. simpl. rewrite insert_alloc. reflexivity.
Qed.

Lemma subscribe_again (rec : Call -> Step) (n : nat) :
  forall (s : State) (hub : Subject) (sid : nat),
    _socket s = Some sid ->
    subjects s !! _output s = Some hub ->
    isStopped hub = false ->
    thrownError hub = None ->
    for_each (perform rec) (repeat ASubscribe n) s
    = Some (set_subscribers
              (subscribers s ++ repeat (registered (_output s) HConsumer) n)
              (set_subjects
                 (<[_output s := with_observers
                                   (observers hub ++ seq (length (subscribers s)) n)
                                   hub]> (subjects s)) s)).
Proof.
  induction n as [|n IH]; intros s hub sid Hsk Hhub Hlive Herr.
  - simpl. rewrite !app_nil_r. destruct s, hub. simpl in *.
    rewrite list_insert_id by exact Hhub. reflexivity.
  - simpl repeat. simpl for_each. unfold and_then. simpl perform.
    rewrite (subscribe_connected rec s hub sid Hsk Hhub Hlive Herr).
    assert (Hlen : _output s < length (subjects s)) by (eapply lookup_lt_Some; eauto).
    rewrite (IH _ (with_observers (observers hub ++ [length (subscribers s)]) hub) sid);
      simpl; try assumption; [|apply list_lookup_insert_eq; exact Hlen].
    rewrite list_insert_insert_eq, length_app. simpl.
    rewrite <- !app_assoc. simpl.
    replace (length (subscribers s) + 1) with (S (length (subscribers s))) by lia.
    reflexivity.
Qed.

(** X5: [_subscribe] (lines 373-376) connects only when no socket is
    current: however many application observers subscribe one after the
    other, at most one socket is constructed, and only when there was
    none; all of them are registered with the same hub, in order. *)
Theorem subscribers_share_one_socket :
  forall (rec : Call -> Step) (n : nat) (s : State) (hub : Subject),
    subjects s !! _output s = Some hub ->
    isStopped hub = false ->
    thrownError hub = None ->
    (_socket s = None ->
     WebSocketCtor (_config s) (url (_config s)) (protocol_argument (_config s)) = Ok tt) ->
    exists s',
      for_each (perform rec) (repeat ASubscribe (S n)) s = Some s' /\
      trace s' = trace s
                 ++ match _socket s with
                    | Some _ => []
                    | None => [ENew (length (sockets s)) (url (_config s))
                                 (protocol_argument (_config s))]
                    end /\
      _socket s' = Some (match _socket s with
                         | Some sid => sid
                         | None => length (sockets s)
                         end) /\
      subjects s' !! _output s'
      = Some (with_observers (observers hub ++ seq (length (subscribers s)) (S n)) hub) /\
      destination s' = destination s.
Proof.
  intros rec n s hub Hhub Hlive Herr Hctor.
  assert (Hlen : _output s < length (subjects s)) by (eapply lookup_lt_Some; eauto).
  destruct (_socket s) as [sid|] eqn:Hsk.
  - rewrite (subscribe_again rec (S n) s hub sid Hsk Hhub Hlive Herr).
    eexists. split; [reflexivity|]. simpl. rewrite app_nil_r, Hsk.
    repeat split. apply list_lookup_insert_eq. exact Hlen.
  - simpl repeat. simpl for_each. unfold and_then. simpl perform.
    pose proof (_subscribe_spec rec
                  (set_subscribers (subscribers s ++ [new_Subscriber HConsumer]) s)
                  (length (subscribers s)) HConsumer hub) as Hsub.
    simpl in Hsub.
    specialize (Hsub (lookup_alloc _ _) Hhub Hlive Herr (fun _ => Hctor eq_refl)).
    unfold subscribe, allocate, fresh_subscriber. simpl. rewrite Hsub.
    unfold connected. simpl. rewrite Hsk. simpl. rewrite insert_alloc.
    rewrite (subscribe_again rec n _
               (with_observers (observers hub ++ [length (subscribers s)]) hub)
               (length (sockets s)));
      simpl; try assumption; try reflexivity;
      [|apply list_lookup_insert_eq; exact Hlen].
    eexists. split; [reflexivity|]. simpl.
    repeat split. rewrite list_insert_insert_eq, length_app. simpl.
    rewrite list_lookup_insert_eq by exact Hlen. rewrite <- app_assoc. simpl.
    replace (length (subscribers s) + 1) with (S (length (subscribers s))) by lia.
    reflexivity.
Qed.
(** X6: [_connectSocket] (lines 267-276) when the constructor of the socket
    throws, on an idle subject: the subscriber receives the thrown value
    as an error, no socket exists afterwards, and the refcount finalizer,
    added to a subscriber that is already closed, resets the state: the
    hub that carries the error is replaced by a fresh one and what was
    buffered is dropped. *)
Theorem failed_construction_errors_the_subscriber :
  forall (rec : Call -> Step) (s : State) (hub : Subject) (e : Err),
    _socket s = None ->
    subjects s !! _output s = Some hub ->
    isStopped hub = false ->
    observers hub = [] ->
    WebSocketCtor (_config s) (url (_config s)) (protocol_argument (_config s)) = Throws e ->
    let c := length (subscribers s) in
    exists s',
      subscribe rec s = Some s' /\
      trace s' = trace s ++ [ENotify c (NError e)] /\
      sockets s' = sockets s /\
      _socket s' = None /\
      destination s' = Replay [] Live /\
      closed_at s' c /\
      subjects s' !! _output s
      = Some {| observers := []; isStopped := true; thrownError := Some e |} /\
      subjects s' !! _output s' = Some new_Subject.
Proof.
  intros rec s hub e Hsk Hhub Hlive Hobs Hctor c. subst c.
  assert (Hlen : _output s < length (subjects s)) by (eapply lookup_lt_Some; eauto).
  destruct s as [cfg sk out dst socks subjs snks subs tr].
  destruct hub as [hobs hst herr]. simpl in *. subst sk hobs hst.
  unfold subscribe, allocate, fresh_subscriber, _subscribe, _connectSocket. simpl.
  rewrite Hctor. unfold hub_notify. run. unfold hub_subscribe. run.
  unfold sub_add. run. unfold refCount_teardown, _resetState. run.
  eexists. split; [reflexivity|]. simpl.
  repeat (split; [reflexivity|]).
  split; [eexists; simpl; rewrite lookup_alloc; split; reflexivity|].
  split; [apply lookup_app_l_Some, list_lookup_insert_eq; exact Hlen|].
  apply lookup_alloc.
Qed.
(** ** [complete] and [error] before and after the socket opens *)

(** X7: [complete()] on the subscriber created in [onopen] (lines 322-329):
    the closing observer, then [close()] without arguments whatever the
    readyState, then the reset.  No consumer is notified by the call
    itself.  Further calls of [complete()] reach the fresh buffer and
    close nothing; the buffer remembers the completion. *)
Theorem complete_closes_once :
  forall (rec : Call -> Step) (n : nat) (s : State) (k : nat) (sink : Sink),
    destination s = ToSink k ->
    sinks s !! k = Some sink ->
    sink_stopped sink = false ->
    is_Some (sockets s !! sink_socket sink) ->
    exists s',
      for_each (perform rec) (repeat AComplete (S n)) s = Some s' /\
      trace s' = trace s
                 ++ (if closingObserver (_config s) then [EClosingObserver] else [])
                 ++ [EClose (sink_socket sink) None None] /\
      _socket s' = None /\
      destination s' = Replay [] (match n with O => Live | S _ => Completed end) /\
      subscribers s' = subscribers s.
Proof.
  intros rec n s k sink Hdest Hk Hlive [sock Hsock].
  assert (Hmore : forall m (s1 : State) st,
             destination s1 = Replay [] st ->
             exists s2,
               for_each (perform rec) (repeat AComplete m) s1 = Some s2 /\
               trace s2 = trace s1 /\ _socket s2 = _socket s1 /\
               subscribers s2 = subscribers s1 /\
               destination s2
               = Replay [] (match m with
                            | O => st
                            | S _ => match st with Live => Completed | _ => st end
                            end)).
  { induction m as [|m IHm]; intros s1 st Hd.
    - exists s1. simpl. auto.
    - simpl repeat. simpl for_each. unfold and_then. simpl perform.
      unfold complete, dest_complete. rewrite Hd.
      destruct st.
      + destruct (IHm (set_destination (Replay [] Completed) s1) Completed eq_refl)
          as (s2 & Hr & Ht & Hs & Hsub & Hd2).
        rewrite Hr. exists s2. simpl in *. split; [reflexivity|].
        repeat (split; [assumption|]).
        rewrite Hd2. destruct m; reflexivity.
      + destruct (IHm s1 (Errored err) Hd) as (s2 & Hr & Ht & Hs & Hsub & Hd2).
        rewrite Hr. exists s2. simpl in *. split; [reflexivity|].
        repeat (split; [assumption|]).
        rewrite Hd2. destruct m; reflexivity.
      + destruct (IHm s1 Completed Hd) as (s2 & Hr & Ht & Hs & Hsub & Hd2).
        rewrite Hr. exists s2. simpl in *. split; [reflexivity|].
        repeat (split; [assumption|]).
        rewrite Hd2. destruct m; reflexivity. }
  simpl repeat. simpl for_each. unfold and_then. simpl perform.
  unfold complete, dest_complete. rewrite Hdest.
  unfold sink_complete. rewrite Hk, Hlive.
  destruct s as [cfg sk out dst socks subjs snks subs tr]. simpl in *.
  unfold update_sink. simpl. rewrite Hk. simpl.
  unfold socket_close, update_socket, _resetState.
  destruct (closingObserver cfg); simpl; rewrite Hsock; simpl.
  all: match goal with
       | |- context [for_each _ _ ?s1] =>
           destruct (Hmore n s1 Live eq_refl) as (s2 & Hr & Ht & Hs & Hsub & Hd2)
       end.
  all: rewrite Hr; exists s2; simpl in *.
  all: split; [reflexivity|]. 
  all: split; [rewrite Ht, <- ?app_assoc; reflexivity|].
  all: split; [assumption|]. 
  all: split; [rewrite Hd2; destruct n; reflexivity|assumption].
Qed.
(** X8: [socket.onopen] (lines 297-334) when the buffer has received
    [complete()], or an [error] that carries a code, before the socket
    opened: the buffered values are sent first, in order, then the
    subscriber receives the completion or the error the buffer held
    back, which closes the socket that has just opened and resets the
    state. *)
Theorem deferred_close_follows_the_flush :
  forall (rec : Call -> Step) (s : State) (sid cur : nat) (sock : WebSocket)
         (evt : Event) (buf : list T) (status : ReplayStatus) (ms : list Msg)
         (code : option Z) (reason : option string),
    sockets s !! sid = Some sock ->
    readyState sock = OPEN ->
    _socket s = Some cur ->
    destination s = Replay buf status ->
    Forall2 (fun v m => serializer (_config s) v = Ok m) buf ms ->
    deferred_close status = Some (code, reason) ->
    exists s',
      onopen rec sid evt s = Some s' /\
      trace s' = trace s
                 ++ (if openObserver (_config s) then [EOpenObserver evt] else [])
                 ++ map (ESend sid) ms
                 ++ (if closingObserver (_config s) then [EClosingObserver] else [])
                 ++ [EClose sid code reason] /\
      idle s'.
Proof.
  intros rec s sid cur sock evt buf status ms code reason Hsock Hopen Hsk Hdest
         Hser Hdef.
  unfold onopen. rewrite Hsock, Hsk, Hdest.
  destruct s as [cfg sk out dst socks subjs snks subs tr]. simpl in *. subst sk dst.
  assert (HF := fun tr0 =>
    flush_sends rec (length snks) sid
      {| sink_socket := sid; sink_observer := ws_observer sock; sink_stopped := false |}
      sock cfg buf ms eq_refl eq_refl Hopen Hser
      (Build_State cfg (Some cur) out (ToSink (length snks)) socks subjs
         (snks ++ [{| sink_socket := sid; sink_observer := ws_observer sock;
                      sink_stopped := false |}]) subs tr0)
      eq_refl (lookup_alloc _ _) Hsock).
  simpl in HF.
  destruct (openObserver cfg); simpl; rewrite HF; simpl.
  all: destruct status as [|err|]; simpl in Hdef; [discriminate| |].
  all: try (destruct (close_args err) as [[c r]|] eqn:Hargs; [|discriminate]).
  all: injection Hdef as <- <-.
  all: unfold sink_error, sink_complete, update_sink; simpl.
  all: rewrite lookup_alloc; simpl.
  all: rewrite ?Hargs.
  all: unfold socket_close, update_socket, _resetState.
  all: destruct (closingObserver cfg); simpl; rewrite Hsock; simpl.
  all: eexists; split; [reflexivity|]; simpl.
  all: rewrite <- ?app_assoc; simpl.
  all: split; [reflexivity|split; [reflexivity|exact I]].
Qed.
(** ** [unsubscribe()] of the subject *)

(** X9: [unsubscribe()] (lines 389-396) calls [close()] on the current socket
    exactly when it is connecting or open and resets the state, which
    leaves the subject idle.  It notifies nobody: the consumers stay
    registered with the hub the socket was connected for, and it is the
    close event of that socket that calls the close observer and then
    completes each of them, or errors each of them when the close is not
    clean.  During that event [close()] is called on no socket, and the
    subject is idle again when the event has been handled. *)
Theorem unsubscribe_leaves_consumers_to_the_close_event :
  forall (d : nat) (s : State) (sid : nat) (sock : WebSocket) (hub : Subject)
         (e : CloseEvent) (consumers : list nat),
    _socket s = Some sid ->
    sockets s !! sid = Some sock ->
    subjects s !! ws_observer sock = Some hub ->
    (isStopped hub = true -> observers hub = []) ->
    NoDup (observers hub) ->
    Forall2 (attached s (ws_observer sock)) (observers hub) consumers ->
    exists s1 s2 rest,
      unsubscribe s = Some s1 /\
      trace s1 = trace s
                 ++ (if is_open_or_connecting sock
                     then [EClose sid None None] else []) /\
      subscribers s1 = subscribers s /\
      idle s1 /\
      onclose (exec (S (S d))) sid e s1 = Some s2 /\
      trace s2 = trace s1
                 ++ (if closeObserver (_config s) then [ECloseObserver e] else [])
                 ++ rest /\
      notifications rest
      = map (fun c => (c, if wasClean e then NComplete else NError (UncleanClose e)))
            consumers /\
      closes rest = [] /\
      idle s2.
Proof.
  intros d s sid sock hub e consumers Hsk Hsock Hhub Hstopped Hnd Hatt.
  pose (n := if wasClean e then @NComplete T else NError (UncleanClose e)).
  assert (Hn : terminal n) by (unfold n; destruct (wasClean e); exact I).
  assert (Hsid : sid < length (sockets s)) by (eapply lookup_lt_Some; eauto).
  (* the state left by unsubscribe() *)
  assert (H1 : exists s1,
             unsubscribe s = Some s1 /\
             trace s1 = trace s
                        ++ (if is_open_or_connecting sock
                            then [EClose sid None None] else []) /\
             subscribers s1 = subscribers s /\
             idle s1 /\
             _config s1 = _config s /\
             sockets s1 !! sid = Some (after_close sock) /\
             subjects s1 !! ws_observer sock = Some hub /\
             output_ok s1).
  { unfold unsubscribe, and_then. rewrite Hsk, Hsock.
    unfold when, socket_close, update_socket, _resetState, after_close.
    destruct (is_open_or_connecting sock) eqn:Hoc; simpl; rewrite ?Hsock; simpl.
    all: eexists; split; [reflexivity|]; simpl.
    all: rewrite ?app_nil_r.
    all: repeat (split; [first [reflexivity | exact I | split; [reflexivity|exact I]]|]).
    all: rewrite ?Hoc.
    all: split; [first [apply list_lookup_insert_eq; exact Hsid | exact Hsock]|].
    all: split; [apply lookup_app_l_Some; exact Hhub|].
    all: unfold output_ok; simpl; rewrite lookup_alloc; eauto. }
  destruct H1 as (s1 & Hrun1 & Ht1 & Hsub1 & Hidle1 & Hcfg1 & Hsock1 & Hhub1 & Hout1).
  exists s1.
  (* the close event *)
  assert (Hobs : ws_observer (after_close sock) = ws_observer sock).
  { unfold after_close. destruct (is_open_or_connecting sock); reflexivity. }
  set (s1' := set_trace (trace s1 ++ (if closeObserver (_config s)
                                      then [ECloseObserver e] else [])) s1).
  assert (Hidle1' : idle s1') by exact Hidle1.
  destruct (hub_notify_terminal d s1' (ws_observer sock) hub n consumers)
    as (s2 & rest & Hrun & Ht & _ & Hnn & _ & _); try assumption.
  { eapply attached_same_subscribers; [|exact Hatt]. exact Hsub1. }
  { intros sid' Hs. destruct Hidle1 as [Hnone _]. simpl in Hs. congruence. }
  { intros outer i sub unsubMsg u _ _ _ _. destruct Hidle1 as [_ Hb].
    unfold sendable. simpl. unfold buffering in Hb.
    destruct (destination s1); [exact I|contradiction]. }
  destruct (offline_hub_notify (exec (S (S d))) (offline_exec (S (S d)))
              (ws_observer sock) n s1' s2 Hrun Hidle1')
    as (Hidle2 & rest' & Ht' & Hoff).
  assert (rest' = rest) as ->.
  { rewrite Ht in Ht'. now apply app_inv_head in Ht'. }
  exists s2, rest.
  split; [exact Hrun1|]. split; [exact Ht1|]. split; [exact Hsub1|].
  split; [exact Hidle1|].
  split.
  { unfold onclose. rewrite Hsock1, Hobs. destruct Hidle1 as [Hnone _].
    simpl. rewrite Hnone. rewrite Hcfg1.
    unfold n in Hrun. unfold s1' in Hrun.
    destruct (closeObserver (_config s)); simpl.
    - destruct (wasClean e); exact Hrun.
    - replace (set_trace (trace s1 ++ []) s1) with s1 in Hrun
        by (symmetry; apply set_trace_nil).
      destruct (wasClean e); exact Hrun. }
  split; [rewrite Ht; unfold s1'; simpl; now rewrite <- app_assoc|].
  split; [exact Hnn|]. split; [apply offline_closes; exact Hoff|exact Hidle2].
Qed.
(** ** What the reset drops *)

(** X10: values buffered while connecting do not survive the reset
    (lines 202-208): when the only consumer unsubscribes before the
    socket has opened, the socket is closed and the buffer replaced; a
    new consumer gets a new socket, and when that one opens nothing is
    sent. *)
Theorem buffered_values_are_dropped_by_the_reset :
  forall (rec : Call -> Step) (s : State) (hub : Subject) (c sid : nat)
         (sock : WebSocket) (buf : list T) (evt : Event),
    _socket s = Some sid ->
    sockets s !! sid = Some sock ->
    readyState sock = CONNECTING ->
    destination s = Replay buf Live ->
    subjects s !! _output s = Some hub ->
    observers hub = [c] ->
    subscribers s !! c = Some (registered (_output s) HConsumer) ->
    WebSocketCtor (_config s) (url (_config s)) (protocol_argument (_config s)) = Ok tt ->
    let sid' := length (sockets s) in
    exists s',
      for_each (perform rec)
        [AUnsubscribe c; ASubscribe; AReadyState sid' OPEN; AOpen sid' evt] s
      = Some s' /\
      trace s' = trace s
                 ++ [EClose sid None None;
                     ENew sid' (url (_config s)) (protocol_argument (_config s))]
                 ++ (if openObserver (_config s) then [EOpenObserver evt] else []) /\
      _socket s' = Some sid' /\
      destination s' = ToSink (length (sinks s)).
Proof.
  intros rec s hub c sid sock buf evt Hsk Hsock Hconn Hdest Hhub Hobs Hc Hctor sid'.
  subst sid'.
  destruct s as [cfg sk out dst socks subjs snks subs tr].
  destruct hub as [hobs hst herr]. simpl in *. subst sk dst hobs.
  assert (Hlen : out < length subjs) by (eapply lookup_lt_Some; eauto).
  assert (Hsid : sid < length socks) by (eapply lookup_lt_Some; eauto).
  assert (Hclen : c < length subs) by (eapply lookup_lt_Some; eauto).
  simpl for_each. unfold and_then. simpl perform.
  unfold subscription_unsubscribe. run. unfold remove_observer. simpl.
  rewrite Nat.eqb_refl. simpl. run.
  unfold refCount_teardown. run. rewrite ?Hsock.
  unfold is_open_or_connecting. rewrite Hconn. simpl.
  unfold update_socket. run. rewrite ?Hsock. simpl.
  unfold socket_close, update_socket, _resetState. simpl. rewrite Hsock. simpl.
  unfold subscribe, allocate, fresh_subscriber, _subscribe, _connectSocket. simpl.
  rewrite Hctor. simpl.
  unfold hub_subscribe. simpl. rewrite lookup_alloc. simpl.
  unfold update_subject. simpl. rewrite lookup_alloc. simpl.
  unfold sub_add. simpl. rewrite !lookup_alloc. simpl.
  unfold update_subscriber. simpl. rewrite !lookup_alloc. simpl.
  rewrite !insert_alloc. rewrite lookup_alloc. simpl.
  unfold set_readyState, update_socket. simpl.
  assert (Hl : length (<[sid := after_close sock]> socks) = length socks)
    by apply length_insert.
  rewrite <- Hl. rewrite lookup_alloc. simpl. rewrite insert_alloc.
  unfold onopen. simpl. rewrite lookup_alloc. simpl.
  destruct (openObserver cfg); simpl.
  all: eexists; split; [reflexivity|]; simpl.
  all: rewrite ?length_insert, <- ?app_assoc; simpl.
  all: repeat split.
Qed.

(** ** No stale destination *)

Lemma keeps_refl (s : State) : keeps_idle_buffers s s.
Proof. intros H. exact H. Qed.

Lemma keeps_trans (s s1 s2 : State) :
  keeps_idle_buffers s s1 -> keeps_idle_buffers s1 s2 -> keeps_idle_buffers s s2.
Proof. intros H1 H2 H. apply H2, H1, H. Qed.

Lemma keeps_same (s s' : State) :
  _socket s' = _socket s -> destination s' = destination s ->
  keeps_idle_buffers s s'.
Proof.
  intros Hs Hd H Hn. unfold buffering. rewrite Hd. apply H. congruence.
Qed.

Lemma keeps_buffering (s s' : State) : buffering s' -> keeps_idle_buffers s s'.
Proof. intros Hb _ _. exact Hb. Qed.

Lemma keeps_connected (s s' : State) (sid : nat) :
  _socket s' = Some sid -> keeps_idle_buffers s s'.
Proof. intros Hs _ Hn. congruence. Qed.

Lemma keeps_emit (e : Effect) (s s' : State) :
  emit e s = Some s' -> keeps_idle_buffers s s'.
Proof. unfold emit. intros H. split_run. apply keeps_same; reflexivity. Qed.

Lemma keeps_update_socket (sid : nat) f (s s' : State) :
  update_socket sid f s = Some s' -> keeps_idle_buffers s s'.
Proof. unfold update_socket. intros H. split_run. apply keeps_same; reflexivity. Qed.

Lemma keeps_update_subject (h : nat) f (s s' : State) :
  update_subject h f s = Some s' -> keeps_idle_buffers s s'.
Proof. unfold update_subject. intros H. split_run. apply keeps_same; reflexivity. Qed.

Lemma keeps_update_sink (k : nat) f (s s' : State) :
  update_sink k f s = Some s' -> keeps_idle_buffers s s'.
Proof. unfold update_sink. intros H. split_run. apply keeps_same; reflexivity. Qed.

Lemma keeps_update_subscriber (c : nat) f (s s' : State) :
  update_subscriber c f s = Some s' -> keeps_idle_buffers s s'.
Proof.
  unfold update_subscriber. intros H. split_run. apply keeps_same; reflexivity.
Qed.

Lemma keeps_allocate h (s s' : State) :
  allocate h s = Some s' -> keeps_idle_buffers s s'.
Proof. unfold allocate. intros H. split_run. apply keeps_same; reflexivity. Qed.

Lemma keeps_resetState (s s' : State) :
  _resetState s = Some s' -> keeps_idle_buffers s s'.
Proof. unfold _resetState. intros H. split_run. apply keeps_buffering. exact I. Qed.

Lemma keeps_for_each {A : Type} (f : A -> Step) (l : list A) :
  (forall a s s', f a s = Some s' -> keeps_idle_buffers s s') ->
  forall s s', for_each f l s = Some s' -> keeps_idle_buffers s s'.
Proof.
  intros Hf. induction l as [|a l IH]; intros s s' H; simpl in H.
  - split_run. apply keeps_refl.
  - split_run. eapply keeps_trans; eauto.
Qed.

Lemma keeps_and_then (f g : Step) (s s' : State) :
  and_then f g s = Some s' ->
  (forall s1, f s = Some s1 -> keeps_idle_buffers s s1) ->
  (forall s1 s2, g s1 = Some s2 -> keeps_idle_buffers s1 s2) ->
  keeps_idle_buffers s s'.
Proof.
  intros H Hf Hg. split_run. eapply keeps_trans; eauto.
Qed.

Create HintDb keeps.

#[local] Hint Resolve keeps_refl keeps_emit keeps_update_socket keeps_update_subject
  keeps_update_sink keeps_update_subscriber keeps_allocate keeps_resetState : keeps.

Ltac keeps_chain :=
  lazymatch goal with
  | |- keeps_idle_buffers ?s ?s => apply keeps_refl
  | |- keeps_idle_buffers ?s ?s' =>
      first [ solve [eauto with keeps]
            | match goal with
              | H : _ s = Some ?s1 |- _ =>
                  apply (keeps_trans s s1 s');
                  [solve [eauto with keeps] | clear H; keeps_chain]
              end ]
  end.

Lemma keeps_socket_close (sid : nat) code reason (s s' : State) :
  socket_close sid code reason s = Some s' -> keeps_idle_buffers s s'.
Proof. unfold socket_close. intros H. split_run; keeps_chain. Qed.

#[local] Hint Resolve keeps_socket_close : keeps.

Lemma keeps_refCount_teardown (s s' : State) :
  refCount_teardown s = Some s' -> keeps_idle_buffers s s'.
Proof. unfold refCount_teardown. intros H. split_run; keeps_chain. Qed.

Lemma keeps_dest_complete_replay (s s' : State) buf st :
  destination s = Replay buf st ->
  match st with
  | Live => Some (set_destination (Replay buf Completed) s)
  | _ => Some s
  end = Some s' ->
  keeps_idle_buffers s s'.
Proof.
  intros Hd H. destruct st; split_run;
    first [apply keeps_refl | apply keeps_buffering; exact I].
Qed.

#[local] Hint Resolve keeps_refCount_teardown : keeps.

Section Keeps.

Variable rec : Call -> Step.
Hypothesis Hrec : forall c s s', rec c s = Some s' -> keeps_idle_buffers s s'.

Lemma keeps_run_finalizer c f (s s' : State) :
  run_finalizer rec c f s = Some s' -> keeps_idle_buffers s s'.
Proof.
  unfold run_finalizer. intros H. destruct f; split_run; keeps_chain.
Qed.

Lemma keeps_sub_unsubscribe c (s s' : State) :
  sub_unsubscribe rec c s = Some s' -> keeps_idle_buffers s s'.
Proof.
  unfold sub_unsubscribe. intros H. split_run; [apply keeps_refl|].
  eapply keeps_trans; [eapply keeps_update_subscriber; eassumption|].
  eapply keeps_for_each; [|eassumption].
  intros f sa sb. apply keeps_run_finalizer.
Qed.

Lemma keeps_sub_add c f (s s' : State) :
  sub_add rec c f s = Some s' -> keeps_idle_buffers s s'.
Proof.
  unfold sub_add. intros H. split_run.
  - eapply keeps_run_finalizer; eassumption.
  - eapply keeps_update_subscriber; eassumption.
Qed.

Lemma keeps_deliver c h n (s s' : State) :
  deliver rec c h n s = Some s' -> keeps_idle_buffers s s'.
Proof.
  intros H. destruct h as [|outer f]; simpl in H.
  - apply (keeps_emit (ENotify c n)). exact H.
  - destruct n; split_run; keeps_chain.
Qed.

#[local] Hint Resolve keeps_sub_unsubscribe keeps_sub_add keeps_deliver : keeps.

Lemma keeps_sub_notify c n (s s' : State) :
  sub_notify rec c n s = Some s' -> keeps_idle_buffers s s'.
Proof.
  unfold sub_notify. intros H. destruct n; split_run; keeps_chain.
Qed.

Lemma keeps_hub_notify h n (s s' : State) :
  hub_notify rec h n s = Some s' -> keeps_idle_buffers s s'.
Proof.
  unfold hub_notify. intros H.
  assert (Hall : forall l s1 s2,
             for_each (fun c => sub_notify rec c n) l s1 = Some s2 ->
             keeps_idle_buffers s1 s2).
  { intros l. apply keeps_for_each. intros c sa sb. apply keeps_sub_notify. }
  destruct (subjects s !! h) as [hub|]; [|discriminate].
  destruct (isStopped hub); [split_run; apply keeps_refl|].
  destruct n; split_run; eauto.
  all: eapply keeps_trans; [eapply keeps_update_subject; eassumption|].
  all: eapply keeps_trans; [eapply Hall; eassumption|].
  all: eapply keeps_update_subject; eassumption.
Qed.

#[local] Hint Resolve keeps_sub_notify keeps_hub_notify : keeps.

Lemma keeps_sink_error k err (s s' : State) :
  sink_error rec k err s = Some s' -> keeps_idle_buffers s s'.
Proof. unfold sink_error. intros H. split_run; keeps_chain. Qed.

Lemma keeps_sink_complete k (s s' : State) :
  sink_complete k s = Some s' -> keeps_idle_buffers s s'.
Proof. unfold sink_complete. intros H. split_run; keeps_chain. Qed.

#[local] Hint Resolve keeps_sink_error keeps_sink_complete : keeps.

Lemma keeps_dest_error err (s s' : State) :
  dest_error rec err s = Some s' -> keeps_idle_buffers s s'.
Proof.
  unfold dest_error. intros H. split_run; try keeps_chain.
  all: apply keeps_buffering; exact I.
Qed.

Lemma keeps_dest_complete (s s' : State) :
  dest_complete s = Some s' -> keeps_idle_buffers s s'.
Proof.
  unfold dest_complete. intros H. split_run; try keeps_chain.
  all: apply keeps_buffering; exact I.
Qed.

#[local] Hint Resolve keeps_dest_error keeps_dest_complete : keeps.

Lemma keeps_sink_next k x (s s' : State) :
  sink_next rec k x s = Some s' -> keeps_idle_buffers s s'.
Proof.
  unfold sink_next, socket_send. intros H. split_run; keeps_chain.
Qed.

#[local] Hint Resolve keeps_sink_next : keeps.

Lemma keeps_dest_next x (s s' : State) :
  dest_next rec x s = Some s' -> keeps_idle_buffers s s'.
Proof.
  unfold dest_next. intros H. split_run; try keeps_chain.
  all: apply keeps_buffering; exact I.
Qed.

#[local] Hint Resolve keeps_dest_next : keeps.

Lemma keeps_ws_next x (s s' : State) :
  ws_next rec x s = Some s' -> keeps_idle_buffers s s'.
Proof. unfold ws_next. intros H. split_run; keeps_chain. Qed.

#[local] Hint Resolve keeps_ws_next : keeps.

Lemma keeps_call c (s s' : State) :
  call rec c s = Some s' -> keeps_idle_buffers s s'.
Proof. destruct c; simpl; eauto with keeps. Qed.

Lemma keeps_connectSocket (s s' : State) :
  _connectSocket rec s = Some s' -> keeps_idle_buffers s s'.
Proof.
  unfold _connectSocket. intros H. split_run; [|keeps_chain].
  unfold emit in H. split_run. eapply keeps_connected. reflexivity.
Qed.

Lemma keeps_hub_subscribe h c (s s' : State) :
  hub_subscribe rec h c s = Some s' -> keeps_idle_buffers s s'.
Proof. unfold hub_subscribe. intros H. split_run; keeps_chain. Qed.

#[local] Hint Resolve keeps_connectSocket keeps_hub_subscribe : keeps.

Lemma keeps_subscribe_to (c : nat) (s s' : State) :
  _subscribe rec c s = Some s' -> keeps_idle_buffers s s'.
Proof. unfold _subscribe. intros H. split_run; keeps_chain. Qed.

#[local] Hint Resolve keeps_subscribe_to : keeps.

Lemma keeps_subscribe (s s' : State) :
  subscribe rec s = Some s' -> keeps_idle_buffers s s'.
Proof. unfold subscribe. intros H. split_run; keeps_chain. Qed.

Lemma keeps_multiplex_subscribe subMsg unsubMsg messageFilter (s s' : State) :
  multiplex_subscribe rec subMsg unsubMsg messageFilter s = Some s' ->
  keeps_idle_buffers s s'.
Proof.
  unfold multiplex_subscribe. intros H. cbv zeta in H.
  eapply keeps_and_then; [exact H| |]; clear H.
  { intros s1. apply keeps_allocate. }
  intros s1 s2 H.
  eapply keeps_and_then; [exact H| |]; clear H.
  { intros s3 H. destruct (subMsg tt); eauto with keeps. }
  intros s3 s4 H. cbv beta zeta in H. split_run; keeps_chain.
Qed.

Lemma keeps_onopen sid evt (s s' : State) :
  onopen rec sid evt s = Some s' -> keeps_idle_buffers s s'.
Proof.
  unfold onopen. intros H.
  assert (Hall : forall k l s1 s2,
             for_each (sink_next rec k) l s1 = Some s2 -> keeps_idle_buffers s1 s2).
  { intros k l. apply keeps_for_each. intros x sa sb. apply keeps_sink_next. }
  destruct (sockets s !! sid) as [sock|]; [|discriminate].
  destruct (_socket s) as [cur|] eqn:Hsk; [|split_run; keeps_chain].
  unfold and_then in H.
  destruct (when (openObserver (_config s)) (emit (EOpenObserver evt)) s)
    as [s1|] eqn:H1; [|discriminate].
  assert (Hs1 : _socket s1 = Some cur).
  { unfold when, emit, skip in H1.
    destruct (openObserver (_config s)); injection H1 as <-; exact Hsk. }
  match type of H with
  | _ ?x = Some _ =>
      apply (keeps_trans s x s'); [eapply keeps_connected; exact Hs1|]
  end.
  destruct (destination s) as [buf status|k]; [|split_run; apply keeps_refl].
  cbv beta in H. unfold and_then in H.
  match type of H with
  | match for_each _ _ ?x with _ => _ end = _ =>
      destruct (for_each (sink_next rec (length (sinks s))) buf x) as [s5|] eqn:H5;
      [|discriminate];
      apply (keeps_trans x s5 s'); [eapply Hall; exact H5|]
  end.
  destruct status; split_run; keeps_chain.
Qed.

Lemma keeps_onerror sid evt (s s' : State) :
  onerror rec sid evt s = Some s' -> keeps_idle_buffers s s'.
Proof. unfold onerror. intros H. split_run; keeps_chain. Qed.

Lemma keeps_onclose sid e (s s' : State) :
  onclose rec sid e s = Some s' -> keeps_idle_buffers s s'.
Proof.
  unfold onclose. intros H.
  destruct (sockets s !! sid) as [sock|]; [|discriminate].
  eapply keeps_and_then; [exact H| |]; clear H.
  { intros s1 H. cbv beta in H. split_run; keeps_chain. }
  intros s1 s2 H.
  eapply keeps_and_then; [exact H| |]; clear H.
  { intros s3 H. cbv beta in H. split_run; keeps_chain. }
  intros s3 s4 H. destruct (wasClean e); keeps_chain.
Qed.

Lemma keeps_onmessage sid e (s s' : State) :
  onmessage rec sid e s = Some s' -> keeps_idle_buffers s s'.
Proof. unfold onmessage. intros H. split_run; keeps_chain. Qed.

Lemma keeps_unsubscribe (s s' : State) :
  unsubscribe s = Some s' -> keeps_idle_buffers s s'.
Proof. unfold unsubscribe. intros H. split_run; keeps_chain. Qed.

Lemma keeps_perform (a : Action) (s s' : State) :
  perform rec a s = Some s' -> keeps_idle_buffers s s'.
Proof.
  destruct a; simpl; intros H.
  - eapply keeps_ws_next; eauto.
  - eapply keeps_dest_error; eauto.
  - eapply keeps_dest_complete; eauto.
  - eapply keeps_subscribe; eauto.
  - eapply keeps_multiplex_subscribe; eauto.
  - eapply keeps_sub_unsubscribe; eauto.
  - eapply keeps_unsubscribe; eauto.
  - eapply keeps_update_socket; eauto.
  - eapply keeps_onopen; eauto.
  - eapply keeps_onerror; eauto.
  - eapply keeps_onclose; eauto.
  - eapply keeps_onmessage; eauto.
Qed.

End Keeps.

Lemma keeps_exec (d : nat) :
  forall (c : Call) (s s' : State), exec d c s = Some s' -> keeps_idle_buffers s s'.
Proof.
  induction d as [|d IH]; intros c s s' H; [discriminate|].
  rewrite exec_S in H. eapply keeps_call; eauto.
Qed.

(** X11: whatever the application and the sockets do, in whatever order, a
    subject without a current socket has the buffer as its destination:
    [this._socket = null] is only ever written together with
    [this.destination = new ReplaySubject()] (lines 202-206), and the
    destination is only replaced by the open subscriber while a socket is
    current (lines 286-299).  A value offered to an idle subject is
    therefore buffered, never written to the socket of an earlier
    connection. *)
Theorem idle_subject_buffers :
  forall (d : nat) (config : WebSocketSubjectConfig) (l : list Action)
         (s : State) (x : T),
    for_each (perform (exec d)) l (WebSocketSubject config) = Some s ->
    _socket s = None ->
    exists buf st,
      destination s = Replay buf st /\
      next (exec d) x s
      = Some (set_destination
                (Replay (match st with Live => buf ++ [x] | _ => buf end) st)
                (set_trace (trace s ++ [EOffer x]) s)).
Proof.
  intros d config l s x Hrun Hidle.
  assert (Hk : keeps_idle_buffers (WebSocketSubject config) s).
  { revert Hrun. apply keeps_for_each. intros a sa sb.
    apply keeps_perform. apply keeps_exec. }
  assert (Hb : buffering s) by (apply Hk; [intros _; exact I|exact Hidle]).
  unfold buffering in Hb.
  destruct (destination s) as [buf st|k] eqn:Hd; [|contradiction].
  exists buf, st. split; [reflexivity|].
  unfold next, ws_next. simpl. unfold dest_next. simpl. rewrite Hd.
  destruct s, st; simpl in *; subst; reflexivity.
Qed.

End Properties.

(** * The statements on the example states *)

(** The example states are reached by the runs that define them. *)
Lemma demo_states_reached :
  run_all 8 [subscribe; (fun _ => set_readyState 0 OPEN); (fun r => onopen r 0 7)]
    (WebSocketSubject demo_config) = Some demo_open /\
  run_all 8 [subscribe; (fun r => subscription_unsubscribe r 0)]
    (WebSocketSubject demo_config) = Some demo_detached /\
  run_all 8 [(fun _ => set_readyState 0 CLOSING)] demo_open = Some demo_closing /\
  run_all 8 [subscribe; subscribe; (fun _ => set_readyState 0 OPEN);
             (fun r => onopen r 0 7)]
    (WebSocketSubject demo_config) = Some demo_two /\
  run_all 8 [(fun r => multiplex_subscribe r demo_sub_x demo_unsub_x demo_filter_x);
             (fun r => multiplex_subscribe r demo_sub_y demo_unsub_y demo_filter_y);
             (fun _ => set_readyState 0 OPEN); (fun r => onopen r 0 7)]
    (WebSocketSubject demo_config) = Some demo_channels /\
  run_all 8 [(fun r => multiplex_subscribe r demo_sub_x demo_unsub_x demo_filter_x)]
    demo_open = Some demo_open_channel /\
  run_all 8 [(fun r => multiplex_subscribe r demo_sub_x demo_unsub_rejected demo_filter_x);
             (fun r => multiplex_subscribe r demo_sub_y demo_unsub_y demo_filter_y);
             (fun _ => set_readyState 0 OPEN); (fun r => onopen r 0 7)]
    (WebSocketSubject demo_config) = Some demo_channels_rejected.
Proof. repeat split; vm_compute; reflexivity. Qed.

(** Two values offered while Idle, one while Connecting, one after the
    open event. *)
Lemma C1_buffered_values_flushed_witness :
  let s := WebSocketSubject demo_config in
  _socket s = None /\
  destination s = Replay [] Live /\
  subjects s !! _output s = Some new_Subject /\
  Forall2 (fun x m => serializer demo_config x = Ok m) ([] ++ [1; 2] ++ [3])
          [101; 102; 103] /\
  exists s1 s2 s3 s4 s5,
    for_each (next (exec 1)) [1; 2] s = Some s1 /\
    subscribe (exec 1) s1 = Some s2 /\
    for_each (next (exec 1)) [3] s2 = Some s3 /\
    and_then (set_readyState 0 OPEN) (onopen (exec 1) 0 7)
      (set_config demo_config s3) = Some s4 /\
    trace s4 = trace s3 ++ [EOpenObserver 7; ESend 0 101; ESend 0 102; ESend 0 103] /\
    next (exec 1) 4 s4 = Some s5 /\
    trace s5 = trace s4 ++ [EOffer 4; ESend 0 104].
Proof.
  assert (HF : Forall2 (fun x m => serializer demo_config x = Ok m)
                 ([] ++ [1; 2] ++ [3]) [101; 102; 103]).
  { repeat constructor. }
  repeat (split; [first [reflexivity | exact HF]|]).
  destruct (C1_buffered_values_flushed_in_order_on_open 1
              (WebSocketSubject demo_config) new_Subject [] [1; 2] [3]
              demo_config [101; 102; 103] 7 4 104
              eq_refl eq_refl eq_refl eq_refl eq_refl eq_refl HF eq_refl)
    as (s1 & s2 & s3 & s4 & s5 & H1 & _ & _ & H2 & _ & _ & _ & H3 & _ & _ & H4
        & H5 & _ & H6 & H7 & _).
  exists s1, s2, s3, s4, s5. repeat (split; [assumption|]). assumption.
Defined.

(** The open event of the socket that [demo_detached] closed while it was
    connecting. *)
Lemma C9_open_after_teardown_witness :
  _socket demo_detached = None /\
  sockets demo_detached !! 0
  = Some {| readyState := CLOSING; ws_observer := 0; ws_binaryType := None |} /\
  exists s',
    onopen (exec 1) 0 7 demo_detached = Some s' /\
    trace s' = trace demo_detached ++ [EClose 0 None None] /\
    _socket s' = None /\
    destination s' = Replay [] Live /\
    sinks s' = sinks demo_detached.
Proof.
  split; [reflexivity|]. split; [reflexivity|].
  destruct (C9_open_after_teardown_only_closes_and_resets (exec 1) demo_detached 0
              {| readyState := CLOSING; ws_observer := 0; ws_binaryType := None |}
              7 eq_refl eq_refl)
    as (s' & H1 & H2 & _ & H3 & H4 & H5 & _).
  exists s'. repeat (split; [assumption|]). assumption.
Defined.

(** A value offered to [demo_closing], whose socket is CLOSING. *)
Lemma C10_value_dropped_witness :
  destination demo_closing = ToSink 0 /\
  sinks demo_closing !! 0
  = Some {| sink_socket := 0; sink_observer := 0; sink_stopped := false |} /\
  sockets demo_closing !! 0
  = Some {| readyState := CLOSING; ws_observer := 0; ws_binaryType := None |} /\
  CLOSING <> OPEN /\
  sink_next (exec 1) 0 5 demo_closing = Some demo_closing /\
  next (exec 1) 5 demo_closing
  = Some (set_trace (trace demo_closing ++ [EOffer 5]) demo_closing).
Proof.
  split; [reflexivity|]. split; [reflexivity|]. split; [reflexivity|].
  split; [discriminate|].
  destruct (C10_value_dropped_when_socket_not_open (exec 1) demo_closing 0
              {| sink_socket := 0; sink_observer := 0; sink_stopped := false |}
              {| readyState := CLOSING; ws_observer := 0; ws_binaryType := None |}
              5 eq_refl eq_refl eq_refl ltac:(discriminate))
    as (H1 & H2 & _).
  split; assumption.
Defined.
(** The socket of [demo_open] closes, cleanly and not. *)
Lemma C2_close_event_witness :
  sockets demo_open !! 0
  = Some {| readyState := OPEN; ws_observer := 0; ws_binaryType := None |} /\
  subjects demo_open !! 0 = Some (with_observers [0] new_Subject) /\
  Forall2 (attached demo_open 0) [0] [0] /\
  _socket demo_open = Some 0 /\
  (exists s' rest,
      onclose (exec 2) 0 demo_clean_close demo_open = Some s' /\
      trace s' = trace demo_open ++ [ECloseObserver demo_clean_close] ++ rest /\
      notifications rest = [(0, NComplete)] /\
      _socket s' = None) /\
  (exists s' rest,
      onclose (exec 2) 0 demo_unclean_close demo_open = Some s' /\
      trace s' = trace demo_open ++ [ECloseObserver demo_unclean_close] ++ rest /\
      notifications rest = [(0, NError (UncleanClose demo_unclean_close))] /\
      _socket s' = None).
Proof.
  assert (Hatt : Forall2 (attached demo_open 0) [0] [0]).
  { constructor; [|constructor]. apply attached_plain. reflexivity. }
  assert (Hout : output_ok demo_open) by (eexists; reflexivity).
  assert (Hso : socket_ok demo_open).
  { intros sid [= <-]. eexists. reflexivity. }
  assert (Hnd : NoDup [0]) by apply NoDup_singleton.
  split; [reflexivity|]. split; [reflexivity|]. split; [exact Hatt|].
  split; [reflexivity|]. split.
  - destruct (C2_close_event_resets_and_notifies_consumers 0 demo_open 0
                {| readyState := OPEN; ws_observer := 0; ws_binaryType := None |}
                (with_observers [0] new_Subject) demo_clean_close [0]
                eq_refl eq_refl ltac:(discriminate) Hnd Hatt Hout Hso
                (or_introl eq_refl))
      as (s' & rest & H1 & H2 & H3 & _ & H4).
    exists s', rest. repeat (split; [assumption|]). apply H4. reflexivity.
  - destruct (C2_close_event_resets_and_notifies_consumers 0 demo_open 0
                {| readyState := OPEN; ws_observer := 0; ws_binaryType := None |}
                (with_observers [0] new_Subject) demo_unclean_close [0]
                eq_refl eq_refl ltac:(discriminate) Hnd Hatt Hout Hso
                (or_introl eq_refl))
      as (s' & rest & H1 & H2 & H3 & _ & H4).
    exists s', rest. repeat (split; [assumption|]). apply H4. reflexivity.
Defined.

(** [error] on [demo_open], with an error that carries a code and with
    one that does not. *)
Lemma C7_local_error_witness :
  destination demo_open = ToSink 0 /\
  sinks demo_open !! 0
  = Some {| sink_socket := 0; sink_observer := 0; sink_stopped := false |} /\
  Forall2 (attached demo_open 0) [0] [0] /\
  (exists s',
      error (exec 3) (UserError (Some 4001%Z) (Some "bye"%string)) demo_open = Some s' /\
      trace s' = trace demo_open
                 ++ [EClosingObserver; EClose 0 (Some 4001%Z) (Some "bye"%string)]) /\
  (exists s' rest,
      error (exec 3) (UserError None (Some "bye"%string)) demo_open = Some s' /\
      trace s' = trace demo_open ++ [EClosingObserver] ++ rest /\
      notifications rest = [(0, NError invalid_error_object)]).
Proof.
  assert (Hatt : Forall2 (attached demo_open 0) [0] [0]).
  { constructor; [|constructor]. apply attached_plain. reflexivity. }
  assert (Hout : output_ok demo_open) by (eexists; reflexivity).
  assert (Hso : socket_ok demo_open).
  { intros sid [= <-]. eexists. reflexivity. }
  assert (Hnd : NoDup [0]) by apply NoDup_singleton.
  split; [reflexivity|]. split; [reflexivity|]. split; [exact Hatt|]. split.
  - destruct (C7_local_error_closes_with_code_or_reports_invalid_object 0 demo_open 0
                {| sink_socket := 0; sink_observer := 0; sink_stopped := false |}
                {| readyState := OPEN; ws_observer := 0; ws_binaryType := None |}
                (with_observers [0] new_Subject)
                (UserError (Some 4001%Z) (Some "bye"%string)) [0]
                eq_refl eq_refl eq_refl eq_refl eq_refl ltac:(discriminate)
                Hnd Hatt Hout Hso)
      as (s' & rest & H1 & H2 & H3 & _).
    exists s'. split; [exact H1|]. simpl in H3. rewrite H2, H3. reflexivity.
  - destruct (C7_local_error_closes_with_code_or_reports_invalid_object 0 demo_open 0
                {| sink_socket := 0; sink_observer := 0; sink_stopped := false |}
                {| readyState := OPEN; ws_observer := 0; ws_binaryType := None |}
                (with_observers [0] new_Subject)
                (UserError None (Some "bye"%string)) [0]
                eq_refl eq_refl eq_refl eq_refl eq_refl ltac:(discriminate)
                Hnd Hatt Hout Hso)
      as (s' & rest & H1 & H2 & H3 & _).
    exists s', rest. split; [exact H1|]. split; [exact H2|]. apply H3.
Defined.
(** The serializer of [demo_config] throws on 98, with a close code. *)
Lemma C6_encode_failure_witness :
  destination demo_open = ToSink 0 /\
  sockets demo_open !! 0
  = Some {| readyState := OPEN; ws_observer := 0; ws_binaryType := None |} /\
  serializer (_config demo_open) 98
  = Throws (UserError (Some 4000%Z) (Some "encode"%string)) /\
  exists s',
    next (exec 3) 98 demo_open = Some s' /\
    trace s' = trace demo_open
               ++ [EOffer 98; EClosingObserver;
                   EClose 0 (Some 4000%Z) (Some "encode"%string)] /\
    _socket s' = None /\
    destination s' = Replay [] Live.
Proof.
  assert (Hatt : Forall2 (attached demo_open 0) [0] [0]).
  { constructor; [|constructor]. apply attached_plain. reflexivity. }
  assert (Hout : output_ok demo_open) by (eexists; reflexivity).
  assert (Hso : socket_ok demo_open).
  { intros sid [= <-]. eexists. reflexivity. }
  assert (Hnd : NoDup [0]) by apply NoDup_singleton.
  split; [reflexivity|]. split; [reflexivity|]. split; [reflexivity|].
  destruct (C6_encode_failure_takes_the_error_path 0 demo_open 0
              {| sink_socket := 0; sink_observer := 0; sink_stopped := false |}
              {| readyState := OPEN; ws_observer := 0; ws_binaryType := None |}
              (with_observers [0] new_Subject) 98
              (UserError (Some 4000%Z) (Some "encode"%string)) [0]
              eq_refl eq_refl eq_refl eq_refl eq_refl eq_refl eq_refl
              ltac:(discriminate) Hnd Hatt Hout Hso)
    as (s' & rest & H1 & H2 & H3 & H4 & H5).
  exists s'. split; [exact H1|]. simpl in H3.
  split; [rewrite H2, H3; reflexivity|]. split; assumption.
Defined.

(** C6 as stated fails on [demo_open]: the socket is OPEN and nothing has
    closed it; offering 98, on which the serializer throws an error with
    code 4000, returns normally and has called [close(4000, "encode")] on
    the socket, which is CLOSING afterwards and no longer current;
    offering 99, on which the thrown error has no code, has errored the
    consumer, whose teardown has called [close()]. *)
Lemma C6_encode_failure_closes_the_socket_counterexample :
  sockets demo_open !! 0
  = Some {| readyState := OPEN; ws_observer := 0; ws_binaryType := None |} /\
  closes (trace demo_open) = [] /\
  (exists s',
      next (exec 3) 98 demo_open = Some s' /\
      closes (trace s') = [(0, Some 4000%Z, Some "encode"%string)] /\
      sockets s' !! 0
      = Some {| readyState := CLOSING; ws_observer := 0; ws_binaryType := None |} /\
      _socket s' = None) /\
  (exists s',
      next (exec 3) 99 demo_open = Some s' /\
      closes (trace s') = [(0, None, None)] /\
      sockets s' !! 0
      = Some {| readyState := CLOSING; ws_observer := 0; ws_binaryType := None |} /\
      _socket s' = None).
Proof.
  split; [reflexivity|]. split; [reflexivity|].
  split; eexists; (split; [vm_compute; reflexivity|]); repeat split.
Qed.

(** Two plain consumers on an open socket. *)
Lemma C3_last_unsubscribe_witness :
  subjects demo_two !! _output demo_two = Some (with_observers [0; 1] new_Subject) /\
  subscribers demo_two !! 0 = Some (registered 0 HConsumer) /\
  subscribers demo_two !! 1 = Some (registered 0 HConsumer) /\
  _socket demo_two = Some 0 /\
  sockets demo_two !! 0
  = Some {| readyState := OPEN; ws_observer := 0; ws_binaryType := None |} /\
  exists s1 s2,
    subscription_unsubscribe (exec 1) 0 demo_two = Some s1 /\
    trace s1 = trace demo_two /\
    _socket s1 = Some 0 /\
    sockets s1 = sockets demo_two /\
    subscription_unsubscribe (exec 1) 1 s1 = Some s2 /\
    trace s2 = trace demo_two ++ [EClose 0 None None] /\
    _socket s2 = None.
Proof.
  repeat (split; [reflexivity|]).
  destruct (C3_last_unsubscribe_closes_and_resets (exec 1) demo_two
              (with_observers [0; 1] new_Subject) 0 1
              (registered 0 HConsumer) (registered 0 HConsumer) 0
              {| readyState := OPEN; ws_observer := 0; ws_binaryType := None |}
              eq_refl eq_refl ltac:(discriminate) eq_refl eq_refl eq_refl
              eq_refl eq_refl eq_refl eq_refl eq_refl)
    as (s1 & s2 & H1 & H2 & H3 & H4 & _ & _ & _ & H5 & H6 & _ & H7 & _).
  exists s1, s2. repeat (split; [assumption|]).
  split; [|exact H7]. apply H6. right. reflexivity.
Defined.

(** A channel whose subscribe-message producer throws, subscribed on
    [demo_open]. *)
Lemma C5_failed_subscribe_message_witness :
  demo_sub_throws tt = Throws (UserError None (Some "no channel"%string)) /\
  subjects demo_open !! _output demo_open = Some (with_observers [0] new_Subject) /\
  socket_ok demo_open /\
  sendable demo_open 2 /\
  exists s1 added,
    multiplex_subscribe (exec 1) demo_sub_throws demo_unsub_x demo_filter_x demo_open
    = Some s1 /\
    trace s1 = trace demo_open
               ++ ENotify 1 (NError (UserError None (Some "no channel"%string)))
                  :: added /\
    notifications added = [] /\
    offers added = [2] /\
    closed_at s1 1 /\
    closed_at s1 2 /\
    sub_notify (exec 1) 1 (NNext 5) s1 = Some s1.
Proof.
  assert (Hso : socket_ok demo_open).
  { intros sid [= <-]. eexists. reflexivity. }
  assert (H2 : sendable demo_open 2).
  { eexists. split; [reflexivity|]. right. eexists. split; [reflexivity|].
    right. eexists. reflexivity. }
  split; [reflexivity|]. split; [reflexivity|]. split; [exact Hso|].
  split; [exact H2|].
  destruct (C5_failed_subscribe_message_errors_the_consumer 0 demo_open
              (with_observers [0] new_Subject) demo_sub_throws demo_unsub_x
              demo_filter_x (UserError None (Some "no channel"%string))
              eq_refl eq_refl eq_refl eq_refl Hso ltac:(discriminate)
              ltac:(intros u [= <-]; exact H2))
    as (s1 & added & Hrun & Ht & Hnn & Hoff & _ & Hc1 & Hc2 & Hdrop).
  exists s1, added. repeat (split; [assumption|]). apply Hdrop.
Defined.

(** C5 as stated fails.  From the initial state, no socket exists; after
    a channel whose subscribe-message producer throws is subscribed, a
    socket has been constructed and closed, which only subscribing to the
    hub and the refcount finalizer of a hub subscriber do, and the
    unsubscribe message has been offered: the filtered view, subscriber
    1, was subscribed to the hub and unsubscribed by the teardown.  On
    [demo_open], whose socket is open, the unsubscribe message of the
    channel is sent to the server. *)
Lemma C5_view_is_attached_counterexample :
  (exists s1,
      multiplex_subscribe (exec 3) demo_sub_throws demo_unsub_x demo_filter_x
        (WebSocketSubject demo_config) = Some s1 /\
      trace s1 = [ENotify 0 (NError (UserError None (Some "no channel"%string)));
                  ENew 0 "ws://localhost:8081" None; EOffer 2; EClose 0 None None] /\
      subscribers s1 !! 1
      = Some {| handler := HFilter 0 demo_filter_x; stopped := true; closed := true;
                finalizers := [] |}) /\
  (exists s1,
      multiplex_subscribe (exec 3) demo_sub_throws demo_unsub_x demo_filter_x
        demo_open = Some s1 /\
      trace s1 = trace demo_open
                 ++ [ENotify 1 (NError (UserError None (Some "no channel"%string)));
                     EOffer 2; ESend 0 102]).
Proof.
  split; eexists; (split; [vm_compute; reflexivity|]); repeat split.
Qed.



(** * The further properties on the example states *)

(** The socket of [demo_two] fails. *)
Lemma onerror_witness :
  sockets demo_two !! 0
  = Some {| readyState := OPEN; ws_observer := 0; ws_binaryType := None |} /\
  subjects demo_two !! 0 = Some (with_observers [0; 1] new_Subject) /\
  Forall2 (attached demo_two 0) [0; 1] [0; 1] /\
  exists s' rest,
    onerror (exec 2) 0 9 demo_two = Some s' /\
    trace s' = trace demo_two ++ rest /\
    notifications rest
    = [(0, NError (TransportError 9)); (1, NError (TransportError 9))] /\
    closes rest = [] /\
    idle s'.
Proof.
  assert (Hatt : Forall2 (attached demo_two 0) [0; 1] [0; 1]).
  { repeat (constructor; [apply attached_plain; reflexivity|]). constructor. }
  assert (Hnd : NoDup [0; 1]).
  { apply NoDup_cons. split; [|apply NoDup_singleton].
    intros H. apply list_elem_of_singleton in H. discriminate. }
  split; [reflexivity|]. split; [reflexivity|]. split; [exact Hatt|].
  destruct (onerror_resets_and_errors_every_consumer 0 demo_two 0
              {| readyState := OPEN; ws_observer := 0; ws_binaryType := None |}
              (with_observers [0; 1] new_Subject) 9 [0; 1]
              eq_refl eq_refl ltac:(discriminate) Hnd Hatt)
    as (s' & rest & H1 & H2 & H3 & _ & H4 & H5).
  exists s', rest. repeat (split; [assumption|]). assumption.
Defined.

(** The message 0, which the deserializer of [demo_strict] rejects. *)
Lemma decode_failure_witness :
  sockets demo_strict_two !! 0
  = Some {| readyState := OPEN; ws_observer := 0; ws_binaryType := None |} /\
  _socket demo_strict_two = Some 0 /\
  subjects demo_strict_two !! _output demo_strict_two
  = Some (with_observers [0; 1] new_Subject) /\
  deserializer (_config demo_strict_two) {| data := 0 |}
  = Throws (UserError None (Some "bad frame"%string)) /\
  exists s',
    onmessage (exec 1) 0 {| data := 0 |} demo_strict_two = Some s' /\
    trace s' = trace demo_strict_two
               ++ [ENotify 0 (NError (UserError None (Some "bad frame"%string)));
                   ENotify 1 (NError (UserError None (Some "bad frame"%string)));
                   EClose 0 None None] /\
    idle s' /\
    onmessage (exec 1) 0 {| data := 5 |} s' = Some s'.
Proof.
  assert (Hnd : NoDup [0; 1]).
  { apply NoDup_cons. split; [|apply NoDup_singleton].
    intros H. apply list_elem_of_singleton in H. discriminate. }
  repeat (split; [reflexivity|]).
  destruct (decode_failure_errors_consumers_and_closes (exec 1) demo_strict_two 0
              {| readyState := OPEN; ws_observer := 0; ws_binaryType := None |}
              (with_observers [0; 1] new_Subject) {| data := 0 |}
              (UserError None (Some "bad frame"%string))
              eq_refl eq_refl eq_refl eq_refl eq_refl ltac:(discriminate) Hnd
              ltac:(repeat constructor) eq_refl)
    as (s' & H1 & H2 & H3 & _ & H4).
  exists s'. split; [exact H1|]. split; [exact H2|]. split; [exact H3|]. apply H4.
Defined.

(** The message 5 on [demo_channels]: X selects it, Y does not. *)
Lemma decoded_message_witness :
  sockets demo_channels !! 0
  = Some {| readyState := OPEN; ws_observer := 0; ws_binaryType := None |} /\
  subjects demo_channels !! 0 = Some (with_observers [1; 3] new_Subject) /\
  Forall2 (selects demo_channels 0 5) [1; 3] [[ENotify 0 (NNext 5)]; []] /\
  onmessage (exec 1) 0 {| data := 5 |} demo_channels
  = Some (set_trace (trace demo_channels ++ [ENotify 0 (NNext 5)]) demo_channels).
Proof.
  assert (Hsel : Forall2 (selects demo_channels 0 5) [1; 3] [[ENotify 0 (NNext 5)]; []]).
  { constructor; [|constructor; [|constructor]].
    - exact (selects_channel demo_channels 0 5 1 0 demo_filter_x demo_unsub_x true
               eq_refl eq_refl eq_refl).
    - exact (selects_channel demo_channels 0 5 3 2 demo_filter_y demo_unsub_y false
               eq_refl eq_refl eq_refl). }
  split; [reflexivity|]. split; [reflexivity|]. split; [exact Hsel|].
  exact (decoded_message_reaches_selected_consumers 0 demo_channels 0
           {| readyState := OPEN; ws_observer := 0; ws_binaryType := None |}
           (with_observers [1; 3] new_Subject) {| data := 5 |} 5
           [[ENotify 0 (NNext 5)]; []] eq_refl eq_refl eq_refl eq_refl Hsel).
Defined.

(** Calls on [demo_detached], which has no socket. *)
Lemma idle_calls_witness :
  idle demo_detached /\
  exists s',
    for_each (perform (exec 3))
      [ANext 1; AComplete; ANext 2; AUnsubscribe 0;
       AError (UserError (Some 4000%Z) None)] demo_detached = Some s' /\
    idle s' /\
    exists added,
      trace s' = trace demo_detached ++ added /\ Forall offline_effect added.
Proof.
  assert (Hidle : idle demo_detached) by (split; [reflexivity|exact I]).
  split; [exact Hidle|].
  eexists. split; [vm_compute; reflexivity|].
  apply (idle_calls_touch_no_socket 3
           [ANext 1; AComplete; ANext 2; AUnsubscribe 0;
            AError (UserError (Some 4000%Z) None)] demo_detached _ Hidle eq_refl).
  vm_compute. reflexivity.
Defined.

(** Three consumers subscribe to a new subject. *)
Lemma subscribers_share_witness :
  subjects (WebSocketSubject demo_config) !! _output (WebSocketSubject demo_config)
  = Some new_Subject /\
  WebSocketCtor demo_config (url demo_config) (protocol_argument demo_config) = Ok tt /\
  exists s',
    for_each (perform (exec 1)) [ASubscribe; ASubscribe; ASubscribe]
      (WebSocketSubject demo_config) = Some s' /\
    trace s' = [ENew 0 "ws://localhost:8081"%string None] /\
    _socket s' = Some 0 /\
    subjects s' !! _output s' = Some (with_observers [0; 1; 2] new_Subject).
Proof.
  split; [reflexivity|]. split; [reflexivity|].
  destruct (subscribers_share_one_socket (exec 1) 2 (WebSocketSubject demo_config)
              new_Subject eq_refl eq_refl eq_refl (fun _ => eq_refl))
    as (s' & H1 & H2 & H3 & H4 & _).
  exists s'. repeat (split; [assumption|]). assumption.
Defined.

(** A consumer subscribes under [demo_no_transport]. *)
Lemma failed_construction_witness :
  _socket (WebSocketSubject demo_no_transport) = None /\
  WebSocketCtor demo_no_transport (url demo_no_transport) (protocol_argument demo_no_transport)
  = Throws (TypeError "no transport"%string) /\
  exists s',
    subscribe (exec 1) (WebSocketSubject demo_no_transport) = Some s' /\
    trace s' = [ENotify 0 (NError (TypeError "no transport"%string))] /\
    sockets s' = [] /\
    _socket s' = None /\
    closed_at s' 0.
Proof.
  split; [reflexivity|]. split; [reflexivity|].
  destruct (failed_construction_errors_the_subscriber (exec 1)
              (WebSocketSubject demo_no_transport) new_Subject
              (TypeError "no transport"%string)
              eq_refl eq_refl eq_refl eq_refl eq_refl)
    as (s' & H1 & H2 & H3 & H4 & _ & H5 & _).
  exists s'. repeat (split; [assumption|]). assumption.
Defined.

(** [complete()] twice on [demo_open]. *)
Lemma complete_closes_once_witness :
  destination demo_open = ToSink 0 /\
  sinks demo_open !! 0
  = Some {| sink_socket := 0; sink_observer := 0; sink_stopped := false |} /\
  exists s',
    for_each (perform (exec 1)) [AComplete; AComplete] demo_open = Some s' /\
    trace s' = trace demo_open ++ [EClosingObserver; EClose 0 None None] /\
    _socket s' = None /\
    destination s' = Replay [] Completed /\
    subscribers s' = subscribers demo_open.
Proof.
  split; [reflexivity|]. split; [reflexivity|].
  exact (complete_closes_once (exec 1) 1 demo_open 0
           {| sink_socket := 0; sink_observer := 0; sink_stopped := false |}
           eq_refl eq_refl eq_refl (ex_intro _ _ eq_refl)).
Defined.

(** The open event on [demo_completed_early]. *)
Lemma deferred_close_witness :
  sockets demo_completed_early !! 0
  = Some {| readyState := OPEN; ws_observer := 0; ws_binaryType := None |} /\
  destination demo_completed_early = Replay [1] Completed /\
  Forall2 (fun v m => serializer (_config demo_completed_early) v = Ok m) [1] [101] /\
  deferred_close Completed = Some (None, None) /\
  exists s',
    onopen (exec 1) 0 7 demo_completed_early = Some s' /\
    trace s' = trace demo_completed_early
               ++ [EOpenObserver 7; ESend 0 101; EClosingObserver; EClose 0 None None] /\
    idle s'.
Proof.
  assert (Hser : Forall2 (fun v m => serializer (_config demo_completed_early) v = Ok m)
                   [1] [101]) by (repeat constructor).
  split; [reflexivity|]. split; [reflexivity|]. split; [exact Hser|].
  split; [reflexivity|].
  exact (deferred_close_follows_the_flush (exec 1) demo_completed_early 0 0
           {| readyState := OPEN; ws_observer := 0; ws_binaryType := None |}
           7 [1] Completed [101] None None
           eq_refl eq_refl eq_refl eq_refl Hser eq_refl).
Defined.

(** [unsubscribe()] on [demo_two], then the clean close event of its
    socket. *)
Lemma unsubscribe_witness :
  _socket demo_two = Some 0 /\
  Forall2 (attached demo_two 0) [0; 1] [0; 1] /\
  exists s1 s2 rest,
    unsubscribe demo_two = Some s1 /\
    trace s1 = trace demo_two ++ [EClose 0 None None] /\
    subscribers s1 = subscribers demo_two /\
    onclose (exec 2) 0 demo_clean_close s1 = Some s2 /\
    trace s2 = trace s1 ++ [ECloseObserver demo_clean_close] ++ rest /\
    notifications rest = [(0, NComplete); (1, NComplete)] /\
    closes rest = [].
Proof.
  assert (Hatt : Forall2 (attached demo_two 0) [0; 1] [0; 1]).
  { repeat (constructor; [apply attached_plain; reflexivity|]). constructor. }
  assert (Hnd : NoDup [0; 1]).
  { apply NoDup_cons. split; [|apply NoDup_singleton].
    intros H. apply list_elem_of_singleton in H. discriminate. }
  split; [reflexivity|]. split; [exact Hatt|].
  destruct (unsubscribe_leaves_consumers_to_the_close_event 0 demo_two 0
              {| readyState := OPEN; ws_observer := 0; ws_binaryType := None |}
              (with_observers [0; 1] new_Subject) demo_clean_close [0; 1]
              eq_refl eq_refl eq_refl ltac:(discriminate) Hnd Hatt)
    as (s1 & s2 & rest & H1 & H2 & H3 & _ & H4 & H5 & H6 & H7 & _).
  exists s1, s2, rest. repeat (split; [assumption|]). assumption.
Defined.

(** The consumer of [demo_connecting] leaves before the socket opens;
    another one subscribes and its socket opens. *)
Lemma buffered_values_dropped_witness :
  destination demo_connecting = Replay [1] Live /\
  sockets demo_connecting !! 0
  = Some {| readyState := CONNECTING; ws_observer := 0; ws_binaryType := None |} /\
  exists s',
    for_each (perform (exec 1))
      [AUnsubscribe 0; ASubscribe; AReadyState 1 OPEN; AOpen 1 7] demo_connecting
    = Some s' /\
    trace s' = trace demo_connecting
               ++ [EClose 0 None None; ENew 1 "ws://localhost:8081"%string None;
                   EOpenObserver 7] /\
    _socket s' = Some 1.
Proof.
  split; [reflexivity|]. split; [reflexivity|].
  destruct (buffered_values_are_dropped_by_the_reset (exec 1) demo_connecting
              (with_observers [0] new_Subject) 0 0
              {| readyState := CONNECTING; ws_observer := 0; ws_binaryType := None |}
              [1] 7 eq_refl eq_refl eq_refl eq_refl eq_refl eq_refl eq_refl eq_refl)
    as (s' & H1 & H2 & H3 & _).
  exists s'. repeat (split; [assumption|]). assumption.
Defined.

(** [demo_detached] is reached from the constructor and has no socket. *)
Lemma idle_subject_buffers_witness :
  for_each (perform (exec 8)) [ASubscribe; AUnsubscribe 0] (WebSocketSubject demo_config)
  = Some demo_detached /\
  _socket demo_detached = None /\
  exists buf st,
    destination demo_detached = Replay buf st /\
    next (exec 8) 5 demo_detached
    = Some (set_destination
              (Replay (match st with Live => buf ++ [5] | _ => buf end) st)
              (set_trace (trace demo_detached ++ [EOffer 5]) demo_detached)).
Proof.
  assert (Hrun : for_each (perform (exec 8)) [ASubscribe; AUnsubscribe 0]
                   (WebSocketSubject demo_config) = Some demo_detached).
  { vm_compute. reflexivity. }
  split; [exact Hrun|]. split; [reflexivity|].
  exact (idle_subject_buffers 8 demo_config [ASubscribe; AUnsubscribe 0]
           demo_detached 5 Hrun eq_refl).
Defined.

(** The consumer 0 of [demo_detached] has unsubscribed; a second consumer
    subscribes, its socket opens, a message arrives and the socket
    closes. *)
Lemma stopped_subscriber_witness :
  muted demo_detached 0 /\
  exists s',
    for_each (perform (exec 8))
      [ASubscribe; AReadyState 1 OPEN; AOpen 1 7; AMessage 1 {| data := 5 |};
       ACloseEvent 1 demo_clean_close] demo_detached = Some s' /\
    muted s' 0 /\
    received 0 (trace s') = received 0 (trace demo_detached) /\
    received 1 (trace s') = [NNext 5; NComplete].
Proof.
  assert (Hm : muted demo_detached 0) by (eexists; split; reflexivity).
  split; [exact Hm|].
  eexists. split; [vm_compute; reflexivity|].
  split; [|split; [|reflexivity]].
  - eapply (stopped_subscriber_receives_nothing 0 8
              [ASubscribe; AReadyState 1 OPEN; AOpen 1 7; AMessage 1 {| data := 5 |};
               ACloseEvent 1 demo_clean_close] demo_detached _ Hm).
    vm_compute. reflexivity.
  - eapply (stopped_subscriber_receives_nothing 0 8
              [ASubscribe; AReadyState 1 OPEN; AOpen 1 7; AMessage 1 {| data := 5 |};
               ACloseEvent 1 demo_clean_close] demo_detached _ Hm).
    vm_compute. reflexivity.
Defined.
